(** * CCPv5 device model of PSPEmu (src/psp-dev-ccp-v5.c)

    A shallow embedding of the cryptographic co-processor device: the local
    storage buffer, the data transfer context, the PASSTHRU, SHA and RSA
    request processors, the queue executor and the MMIO front-end, together
    with the properties the specification states about them. *)

From Stdlib Require Import ZArith Zpow_facts Lia Bool.
From Stdlib.Strings Require Import Byte.
From stdpp Require Import base list gmap.

Local Open Scope Z_scope.

(** ** Machine integers and bytes *)

Abbreviation byte := Byte.byte.

Definition u8 (x : Z) : Z := x mod 2 ^ 8.
Definition u16 (x : Z) : Z := x mod 2 ^ 16.
Definition u32 (x : Z) : Z := x mod 2 ^ 32.
Definition u64 (x : Z) : Z := x mod 2 ^ 64.

(** [x &= ~m] on an unsigned register. *)
Definition and_not (x m : Z) : Z := Z.land x (Z.lnot m).

(** The C truth value of an integer. *)
Definition nonzero (x : Z) : bool := negb (x =? 0).

Definition byte_to_Z (b : byte) : Z := Z.of_N (Byte.to_N b).

Definition byte_of_Z (z : Z) : byte :=
  match Byte.of_N (Z.to_N (u8 z)) with
  | Some b => b
  | None => Byte.x00
  end.

(** Little-endian and big-endian reading of a byte string as an unsigned
    integer ([BN_lebin2bn], [BN_bin2bn]) and writing of an integer on a fixed
    number of bytes ([BN_bn2binpad]). *)
Fixpoint le_to_Z (l : list byte) : Z :=
  match l with
  | [] => 0
  | b :: l' => byte_to_Z b + 256 * le_to_Z l'
  end.

Definition be_to_Z (l : list byte) : Z := le_to_Z (reverse l).

Fixpoint Z_to_le (n : nat) (z : Z) : list byte :=
  match n with
  | O => []
  | S n' => byte_of_Z z :: Z_to_le n' (z / 256)
  end.

Definition Z_to_be (n : nat) (z : Z) : list byte := reverse (Z_to_le n z).

(** ** The header psp/ccp.h

    The register layout, the bit assignment of the request descriptor and the
    enumeration values come from the header psp/ccp.h, which is not among the
    sources.  They are taken as parameters; the laws are what the C compiler
    guarantees of them (the labels of one switch are pairwise distinct) and
    what their use as enumerators needs. *)

Class CcpHdr := {
  (* memory type word of a descriptor *)
  CCP_V5_MEM_TYPE_GET : Z -> Z;
  CCP_V5_MEM_LSB_CTX_ID_GET : Z -> Z;
  CCP_V5_MEM_TYPE_SYSTEM : Z;
  CCP_V5_MEM_TYPE_SB : Z;
  CCP_V5_MEM_TYPE_LOCAL : Z;
  (* dword 0 of a descriptor *)
  CCP_V5_ENGINE_GET : Z -> Z;
  CCP_V5_ENGINE_FUNC_GET : Z -> Z;
  CCP_V5_ENGINE_INIT_GET : Z -> bool;
  CCP_V5_ENGINE_EOM_GET : Z -> bool;
  CCP_V5_ENGINE_AES : Z;
  CCP_V5_ENGINE_XTS_AES128 : Z;
  CCP_V5_ENGINE_DES3 : Z;
  CCP_V5_ENGINE_SHA : Z;
  CCP_V5_ENGINE_RSA : Z;
  CCP_V5_ENGINE_PASSTHRU : Z;
  CCP_V5_ENGINE_ZLIB_DECOMP : Z;
  CCP_V5_ENGINE_ECC : Z;
  (* engine specific function fields *)
  CCP_V5_ENGINE_PASSTHRU_BYTESWAP_GET : Z -> Z;
  CCP_V5_ENGINE_PASSTHRU_BITWISE_GET : Z -> Z;
  CCP_V5_ENGINE_PASSTHRU_REFLECT_GET : Z -> Z;
  CCP_V5_ENGINE_PASSTHRU_BYTESWAP_NOOP : Z;
  CCP_V5_ENGINE_PASSTHRU_BYTESWAP_256BIT : Z;
  CCP_V5_ENGINE_PASSTHRU_BITWISE_NOOP : Z;
  CCP_V5_ENGINE_SHA_TYPE_GET : Z -> Z;
  CCP_V5_ENGINE_SHA_TYPE_256 : Z;
  CCP_V5_ENGINE_SHA_TYPE_384 : Z;
  CCP_V5_ENGINE_RSA_SZ_GET : Z -> Z;
  CCP_V5_ENGINE_RSA_MODE_GET : Z -> Z;
  (* MMIO window and queue registers *)
  CCP_V5_Q_OFFSET : Z;
  CCP_V5_Q_SIZE : Z;
  CCP_V5_Q_REG_CTRL : Z;
  CCP_V5_Q_REG_HEAD : Z;
  CCP_V5_Q_REG_TAIL : Z;
  CCP_V5_Q_REG_STATUS : Z;
  CCP_V5_Q_REG_IEN : Z;
  CCP_V5_Q_REG_ISTS : Z;
  CCP_V5_Q_REG_CTRL_RUN : Z;
  CCP_V5_Q_REG_CTRL_HALT : Z;
  CCP_V5_Q_REG_STATUS_SUCCESS : Z;
  CCP_V5_Q_REG_STATUS_ERROR : Z;
  CCP_V5_Q_REG_ISTS_COMPLETION : Z;
  CCP_V5_Q_REG_ISTS_ERROR : Z;
  CCP_V5_Q_REG_ISTS_Q_STOP : Z;
  CCP_V5_Q_REG_ISTS_Q_EMPTY : Z;
  (* laws *)
  mem_type_labels :
    NoDup [CCP_V5_MEM_TYPE_SYSTEM; CCP_V5_MEM_TYPE_SB; CCP_V5_MEM_TYPE_LOCAL];
  engine_labels :
    NoDup [CCP_V5_ENGINE_PASSTHRU; CCP_V5_ENGINE_SHA; CCP_V5_ENGINE_AES;
           CCP_V5_ENGINE_ZLIB_DECOMP; CCP_V5_ENGINE_RSA; CCP_V5_ENGINE_ECC;
           CCP_V5_ENGINE_XTS_AES128; CCP_V5_ENGINE_DES3];
  q_reg_labels :
    NoDup [CCP_V5_Q_REG_CTRL; CCP_V5_Q_REG_HEAD; CCP_V5_Q_REG_TAIL;
           CCP_V5_Q_REG_STATUS; CCP_V5_Q_REG_IEN; CCP_V5_Q_REG_ISTS];
  sha_type_labels :
    CCP_V5_ENGINE_SHA_TYPE_256 <> CCP_V5_ENGINE_SHA_TYPE_384;
  byteswap_labels :
    CCP_V5_ENGINE_PASSTHRU_BYTESWAP_NOOP <> CCP_V5_ENGINE_PASSTHRU_BYTESWAP_256BIT;
  q_size_pos : 0 < CCP_V5_Q_SIZE;
  q_offset_nonneg : 0 <= CCP_V5_Q_OFFSET
}.

(** ** Data model *)

(** A single CCP queue (struct CCPQUEUE). *)
Record CCPQUEUE := mkCCPQUEUE {
  u32RegCtrl : Z;
  u32RegReqTail : Z;
  u32RegReqHead : Z;
  u32RegSts : Z;
  u32RegIen : Z;
  u32RegIsts : Z;
  fEnabled : bool
}.

(** A request descriptor (CCP5REQ), 32 bytes.  The operation union is kept
    in its non-SHA view; the SHA view reads the same two dwords as the message
    bit length. *)
Record CCP5REQ := mkCCP5REQ {
  u32Dw0 : Z;
  cbSrc : Z;
  u32AddrSrcLow : Z;
  u16AddrSrcHigh : Z;
  u16SrcMemType : Z;
  u32AddrDstLow : Z;
  u16AddrDstHigh : Z;
  u16DstMemType : Z;
  u32AddrKeyLow : Z;
  u16AddrKeyHigh : Z;
  u16KeyMemType : Z
}.

Definition u32ShaBitsLow (r : CCP5REQ) : Z := u32AddrDstLow r.
Definition u32ShaBitsHigh (r : CCP5REQ) : Z :=
  Z.lor (u16AddrDstHigh r) (Z.shiftl (u16DstMemType r) 16).

(** CCP_ADDR_CREATE_FROM_HI_LO *)
Definition CCP_ADDR_CREATE_FROM_HI_LO (a_High a_Low : Z) : Z :=
  Z.lor (Z.shiftl a_High 32) a_Low.

(** The digests the SHA engine selects ([EVP_sha256], [EVP_sha384]). *)
Inductive EVP_MD := EVP_sha256 | EVP_sha384.

Definition EVP_MD_size (md : EVP_MD) : Z :=
  match md with EVP_sha256 => 32 | EVP_sha384 => 48 end.

(** A streaming digest context: the digest it was initialised for and the
    bytes it was fed so far. *)
Record EVP_MD_CTX := mkEVP_MD_CTX {
  md_type : EVP_MD;
  md_data : list byte
}.

(** The part of the device instance (struct PSPDEVCCP) the request processors
    work on: the local storage buffer, the streaming contexts, the size of
    the last transfer and, through [pDev], the I/O manager that holds the
    PSP-local memory.  [ExtCtx] stands for the AES context and the zlib
    stream, whose processors are not embedded.  The queues and the interrupt
    line, which no request processor touches, are in [PSPDEVCCP] below. *)
Record CCPCORE (Ext : Type) := mkCCPCORE {
  Lsb : list byte;
  pOsslShaCtx : option EVP_MD_CTX;
  ExtCtx : Ext;
  cbWrittenLast : Z;
  hIoMgr : gmap Z byte
}.
Arguments mkCCPCORE {Ext}.
Arguments Lsb {Ext}.
Arguments pOsslShaCtx {Ext}.
Arguments ExtCtx {Ext}.
Arguments cbWrittenLast {Ext}.
Arguments hIoMgr {Ext}.

Definition set_Lsb {Ext} (v : list byte) (s : CCPCORE Ext) : CCPCORE Ext :=
  mkCCPCORE v (pOsslShaCtx s) (ExtCtx s) (cbWrittenLast s) (hIoMgr s).
Definition set_pOsslShaCtx {Ext} (v : option EVP_MD_CTX) (s : CCPCORE Ext) : CCPCORE Ext :=
  mkCCPCORE (Lsb s) v (ExtCtx s) (cbWrittenLast s) (hIoMgr s).
Definition set_cbWrittenLast {Ext} (v : Z) (s : CCPCORE Ext) : CCPCORE Ext :=
  mkCCPCORE (Lsb s) (pOsslShaCtx s) (ExtCtx s) v (hIoMgr s).
Definition set_hIoMgr {Ext} (v : gmap Z byte) (s : CCPCORE Ext) : CCPCORE Ext :=
  mkCCPCORE (Lsb s) (pOsslShaCtx s) (ExtCtx s) (cbWrittenLast s) v.

(** sizeof(pThis->Lsb): 128 slots of 32 bytes. *)
Definition sizeof_Lsb : Z := 4096.
Definition sizeof_abData : Z := 32.
Definition ELEMENTS_aSlots : Z := 128.

(** ** Libraries and processors outside the embedding

    OpenSSL is used through its contract: a digest context yields the SHA-2
    digest of the bytes fed to it, and [RSA_public_encrypt] with
    [RSA_NO_PADDING], when it succeeds, yields the big-endian encoding of
    [from ^ e mod n] on as many bytes as it was given.  [indeterminate] gives
    the contents of an automatic buffer that was never written.
    [digest_overrun] is what becomes of a SHA request once
    [EVP_DigestFinal_ex] has written a digest past the end of the buffer it
    was given: nothing is known of it.  The AES, ZLIB and ECC request
    processors are arbitrary functions of the state they can reach: nothing
    below depends on what they compute. *)
Class CcpEnv (Ext : Type) := {
  EVP_Digest : EVP_MD -> list byte -> list byte;
  EVP_Digest_length :
    forall md m, Z.of_nat (length (EVP_Digest md m)) = EVP_MD_size md;
  RSA_public_encrypt : Z -> Z -> list byte -> option (list byte);
  RSA_public_encrypt_spec :
    forall n e from to,
      RSA_public_encrypt n e from = Some to ->
      to = Z_to_be (length from) (be_to_Z from ^ e mod n);
  indeterminate : Z -> list byte;
  indeterminate_length :
    forall n, 0 <= n -> Z.of_nat (length (indeterminate n)) = n;
  digest_overrun : CCPCORE Ext -> CCP5REQ -> Z -> bool -> bool -> Z * CCPCORE Ext;
  pspDevCcpReqAesProcess :
    CCPCORE Ext -> CCP5REQ -> Z -> bool -> bool -> Z * CCPCORE Ext;
  pspDevCcpReqZlibProcess :
    CCPCORE Ext -> CCP5REQ -> Z -> bool -> bool -> Z * CCPCORE Ext;
  pspDevCcpReqEccProcess :
    CCPCORE Ext -> CCP5REQ -> Z -> bool -> bool -> Z * CCPCORE Ext
}.

(** ** The I/O manager *)

(** Modelled from the spec: the host I/O manager ([PSPEmuIoMgrPspAddrRead],
    [PSPEmuIoMgrPspAddrWrite]) is not among the sources.  PSP-local memory is
    a finite map from 32-bit addresses to bytes; an access succeeds when
    it stays within the 32-bit address space and every byte of it is mapped,
    and returns non-zero otherwise. *)
Definition iom_mapped (m : gmap Z byte) (PspAddr cb : Z) : bool :=
  (PspAddr + cb <=? 2 ^ 32)
  && forallb (fun i => bool_decide (is_Some (m !! (PspAddr + i)))) (seqZ 0 cb).

Definition iom_peek (m : gmap Z byte) (PspAddr cb : Z) : list byte :=
  (fun i => default Byte.x00 (m !! (PspAddr + i))) <$> seqZ 0 cb.

Fixpoint iom_poke (m : gmap Z byte) (PspAddr : Z) (l : list byte) : gmap Z byte :=
  match l with
  | [] => m
  | b :: l' => iom_poke (<[PspAddr := b]> m) (PspAddr + 1) l'
  end.

Definition PSPEmuIoMgrPspAddrRead (m : gmap Z byte) (PspAddr cbRead : Z)
  : option (list byte) :=
  if iom_mapped m PspAddr cbRead then Some (iom_peek m PspAddr cbRead) else None.

Definition PSPEmuIoMgrPspAddrWrite (m : gmap Z byte) (PspAddr : Z)
    (pvSrc : list byte) (cbWrite : Z) : Z * gmap Z byte :=
  if iom_mapped m PspAddr cbWrite
  then (0, iom_poke m PspAddr (take (Z.to_nat cbWrite) pvSrc))
  else (-1, m).

(** ** Transfers between the address spaces *)

Section Xfer.
Context {Ext : Type}.
Implicit Types (pThis : CCPCORE Ext) (CcpAddr : Z).

Definition pspDevCcpXferMemSysRead pThis CcpAddr (cbRead : Z) : option (list byte) :=
  None.

Definition pspDevCcpXferMemSysWrite pThis CcpAddr (pvSrc : list byte) (cbWrite : Z)
  : Z * CCPCORE Ext :=
  (-1, pThis).

Definition pspDevCcpXferMemLsbRead pThis CcpAddr (cbRead : Z) : option (list byte) :=
  if (CcpAddr <? sizeof_Lsb) && (u64 (CcpAddr + cbRead) <=? sizeof_Lsb)
  then Some (take (Z.to_nat cbRead) (drop (Z.to_nat CcpAddr) (Lsb pThis)))
  else None.

Definition pspDevCcpXferMemLsbWrite pThis CcpAddr (pvSrc : list byte) (cbWrite : Z)
  : Z * CCPCORE Ext :=
  if (CcpAddr <? sizeof_Lsb) && (u64 (CcpAddr + cbWrite) <=? sizeof_Lsb)
  then (0, set_Lsb (list_inserts (Z.to_nat CcpAddr)
                      (take (Z.to_nat cbWrite) pvSrc) (Lsb pThis)) pThis)
  else (-1, pThis).

Definition pspDevCcpXferMemLocalRead pThis CcpAddr (cbRead : Z) : option (list byte) :=
  PSPEmuIoMgrPspAddrRead (hIoMgr pThis) (u32 CcpAddr) cbRead.

Definition pspDevCcpXferMemLocalWrite pThis CcpAddr (pvSrc : list byte) (cbWrite : Z)
  : Z * CCPCORE Ext :=
  let '(rc, m) := PSPEmuIoMgrPspAddrWrite (hIoMgr pThis) (u32 CcpAddr) pvSrc cbWrite in
  if rc =? 0
  then (rc, set_cbWrittenLast (u64 (cbWrittenLast pThis + cbWrite)) (set_hIoMgr m pThis))
  else (rc, pThis).

End Xfer.

(** The transfer callbacks of a context, as the functions they point to. *)
Inductive XFERFN := XferMemSys | XferMemLsb | XferMemLocal.

#[global] Instance XFERFN_eq_dec : EqDecision XFERFN.
Proof. solve_decision. Defined.

(** Data transfer context (struct CCPXFERCTX); the device instance is passed
    along with it. *)
Record CCPXFERCTX := mkCCPXFERCTX {
  pfnRead : XFERFN;
  pfnWrite : XFERFN;
  CcpAddrSrc : Z;
  cbReadLeft : Z;
  CcpAddrDst : Z;
  cbWriteLeft : Z;
  fWriteRev : bool
}.

Section XferCtx.
Context `{hdr : CcpHdr} {Ext : Type}.
Implicit Types (pThis : CCPCORE Ext) (pCtx : CCPXFERCTX) (pReq : CCP5REQ).

Definition call_pfnRead (fn : XFERFN) pThis (CcpAddr cbRead : Z) : option (list byte) :=
  match fn with
  | XferMemSys => pspDevCcpXferMemSysRead pThis CcpAddr cbRead
  | XferMemLsb => pspDevCcpXferMemLsbRead pThis CcpAddr cbRead
  | XferMemLocal => pspDevCcpXferMemLocalRead pThis CcpAddr cbRead
  end.

Definition call_pfnWrite (fn : XFERFN) pThis (CcpAddr : Z) (pvSrc : list byte)
    (cbWrite : Z) : Z * CCPCORE Ext :=
  match fn with
  | XferMemSys => pspDevCcpXferMemSysWrite pThis CcpAddr pvSrc cbWrite
  | XferMemLsb => pspDevCcpXferMemLsbWrite pThis CcpAddr pvSrc cbWrite
  | XferMemLocal => pspDevCcpXferMemLocalWrite pThis CcpAddr pvSrc cbWrite
  end.

(** The switch over a memory type: the callback, or the default case. *)
Definition xfer_fn_of_mem_type (uMemType : Z) : option XFERFN :=
  if uMemType =? CCP_V5_MEM_TYPE_SYSTEM then Some XferMemSys
  else if uMemType =? CCP_V5_MEM_TYPE_SB then Some XferMemLsb
  else if uMemType =? CCP_V5_MEM_TYPE_LOCAL then Some XferMemLocal
  else None.

(** pspDevCcpXferCtxInit: the device with [cbWrittenLast] reset, and the
    context unless the status is -1. *)
Definition pspDevCcpXferCtxInit pThis pReq (fSha : bool) (cbWrite : Z)
    (fWriteRev_ : bool) : CCPCORE Ext * option CCPXFERCTX :=
  let pThis := set_cbWrittenLast 0 pThis in
  let CcpAddrSrc_ := CCP_ADDR_CREATE_FROM_HI_LO (u16AddrSrcHigh pReq) (u32AddrSrcLow pReq) in
  match xfer_fn_of_mem_type (CCP_V5_MEM_TYPE_GET (u16SrcMemType pReq)) with
  | None => (pThis, None)
  | Some pfnRead_ =>
      let dst :=
        if negb fSha then
          match xfer_fn_of_mem_type (CCP_V5_MEM_TYPE_GET (u16DstMemType pReq)) with
          | Some pfnWrite_ =>
              Some (pfnWrite_,
                    CCP_ADDR_CREATE_FROM_HI_LO (u16AddrDstHigh pReq) (u32AddrDstLow pReq))
          | None => None
          end
        else (* SHA always writes to the LSB. *)
          let uLsbCtxId := u8 (CCP_V5_MEM_LSB_CTX_ID_GET (u16SrcMemType pReq)) in
          if uLsbCtxId <? ELEMENTS_aSlots
          then Some (XferMemLsb, uLsbCtxId * sizeof_abData)
          else None in
      match dst with
      | None => (pThis, None)
      | Some (pfnWrite_, CcpAddrDst_) =>
          let CcpAddrDst_ :=
            if fWriteRev_ then u64 (CcpAddrDst_ + cbWrite) else CcpAddrDst_ in
          (pThis,
           Some (mkCCPXFERCTX pfnRead_ pfnWrite_ CcpAddrSrc_ (cbSrc pReq)
                   CcpAddrDst_ cbWrite fWriteRev_))
      end
  end.

(** pspDevCcpXferCtxRead.  [pcbRead] tells whether the optional pointer is
    given; the bytes read stand for the filled part of [pvDst], their number
    for [*pcbRead]. *)
Definition pspDevCcpXferCtxRead pThis pCtx (cbRead : Z) (pcbRead : bool)
  : option (CCPXFERCTX * list byte) :=
  let cbThisRead := Z.min cbRead (cbReadLeft pCtx) in
  if nonzero cbThisRead && (pcbRead || (cbThisRead =? cbRead)) then
    match call_pfnRead (pfnRead pCtx) pThis (CcpAddrSrc pCtx) cbThisRead with
    | Some data =>
        Some (mkCCPXFERCTX (pfnRead pCtx) (pfnWrite pCtx)
                (u64 (CcpAddrSrc pCtx + cbThisRead)) (cbReadLeft pCtx - cbThisRead)
                (CcpAddrDst pCtx) (cbWriteLeft pCtx) (fWriteRev pCtx),
              data)
    | None => None
    end
  else None.

Definition set_CcpAddrDst (v : Z) pCtx : CCPXFERCTX :=
  mkCCPXFERCTX (pfnRead pCtx) (pfnWrite pCtx) (CcpAddrSrc pCtx) (cbReadLeft pCtx)
    v (cbWriteLeft pCtx) (fWriteRev pCtx).

(** The byte-wise loop of a reversed write: one iteration per source byte
    while the status is 0. *)
Fixpoint xfer_write_rev (pbSrc : list byte) pThis pCtx : Z * CCPCORE Ext * CCPXFERCTX :=
  match pbSrc with
  | [] => (0, pThis, pCtx)
  | b :: pbSrc' =>
      let pCtx := set_CcpAddrDst (u64 (CcpAddrDst pCtx - 1)) pCtx in
      let '(rc, pThis) := call_pfnWrite (pfnWrite pCtx) pThis (CcpAddrDst pCtx) [b] 1 in
      if rc =? 0 then xfer_write_rev pbSrc' pThis pCtx else (rc, pThis, pCtx)
  end.

(** pspDevCcpXferCtxWrite: status, device and context after the call. *)
Definition pspDevCcpXferCtxWrite pThis pCtx (pvSrc : list byte) (cbWrite : Z)
    (pcbWritten : bool) : Z * CCPCORE Ext * CCPXFERCTX :=
  let cbThisWrite := Z.min cbWrite (cbWriteLeft pCtx) in
  if nonzero cbThisWrite && (pcbWritten || (cbThisWrite =? cbWrite)) then
    if fWriteRev pCtx then
      xfer_write_rev (take (Z.to_nat cbThisWrite) pvSrc) pThis pCtx
    else
      let '(rc, pThis') :=
        call_pfnWrite (pfnWrite pCtx) pThis (CcpAddrDst pCtx) pvSrc cbThisWrite in
      if rc =? 0 then
        (rc, pThis',
         mkCCPXFERCTX (pfnRead pCtx) (pfnWrite pCtx) (CcpAddrSrc pCtx) (cbReadLeft pCtx)
           (u64 (CcpAddrDst pCtx + cbThisWrite)) (cbWriteLeft pCtx - cbThisWrite)
           (fWriteRev pCtx))
      else (rc, pThis', pCtx)
  else (-1, pThis, pCtx).

(** pspDevCcpReverseBuf on the first [cbBuf] bytes of a buffer. *)
Definition pspDevCcpReverseBuf (pbBuf : list byte) (cbBuf : Z) : list byte :=
  reverse (take (Z.to_nat cbBuf) pbBuf) ++ drop (Z.to_nat cbBuf) pbBuf.

(** pspDevCcpKeyCopyFromReq: the status and the key buffer after the call.
    A key memory type other than LOCAL and SB leaves the buffer as it was
    and the status at 0. *)
Definition pspDevCcpKeyCopyFromReq pThis pReq (cbKey : Z) (pvKey : list byte)
  : Z * list byte :=
  let CcpAddrKey := CCP_ADDR_CREATE_FROM_HI_LO (u16AddrKeyHigh pReq) (u32AddrKeyLow pReq) in
  if CCP_V5_MEM_TYPE_GET (u16KeyMemType pReq) =? CCP_V5_MEM_TYPE_LOCAL then
    match pspDevCcpXferMemLocalRead pThis CcpAddrKey cbKey with
    | Some data => (0, list_inserts 0 data pvKey)
    | None => (-1, pvKey)
    end
  else if CCP_V5_MEM_TYPE_GET (u16KeyMemType pReq) =? CCP_V5_MEM_TYPE_SB then
    if (CcpAddrKey <? sizeof_Lsb) && (u64 (CcpAddrKey + cbKey) <=? sizeof_Lsb)
    then (0, list_inserts 0
               (take (Z.to_nat cbKey) (drop (Z.to_nat CcpAddrKey) (Lsb pThis))) pvKey)
    else (-1, pvKey)
  else (0, pvKey).

End XferCtx.

(** ** Request processors *)

Section Engines.
Context `{hdr : CcpHdr} {Ext : Type} `{env : !CcpEnv Ext}.
Implicit Types (pThis : CCPCORE Ext) (pReq : CCP5REQ).

Definition _4K : Z := 4096.

(** Upper bound on the iterations of a loop that takes [cbChunk] bytes off
    [cbLeft] per iteration. *)
Definition iterations (cbLeft cbChunk : Z) : nat := S (Z.to_nat (cbLeft / cbChunk)).

(** The copy loop of pspDevCcpReqPassthruProcess. *)
Fixpoint passthru_loop (fuel : nat) pThis (XferCtx : CCPXFERCTX) (cbLeft : Z)
  : Z * CCPCORE Ext :=
  if cbLeft =? 0 then (0, pThis)
  else
    match fuel with
    | O => (-1, pThis)
    | S fuel' =>
        let cbThisProc := Z.min cbLeft _4K in
        match pspDevCcpXferCtxRead pThis XferCtx cbThisProc false with
        | None => (-1, pThis)
        | Some (XferCtx, abData) =>
            let '(rc, pThis, XferCtx) :=
              pspDevCcpXferCtxWrite pThis XferCtx abData cbThisProc false in
            if rc =? 0
            then passthru_loop fuel' pThis XferCtx (cbLeft - cbThisProc)
            else (rc, pThis)
        end
    end.

Definition passthru_supported (uByteSwap uBitwise uReflect : Z) pReq : bool :=
  (uBitwise =? CCP_V5_ENGINE_PASSTHRU_BITWISE_NOOP)
  && ((uByteSwap =? CCP_V5_ENGINE_PASSTHRU_BYTESWAP_NOOP)
      || ((uByteSwap =? CCP_V5_ENGINE_PASSTHRU_BYTESWAP_256BIT) && (cbSrc pReq =? 32)))
  && (uReflect =? 0).

Definition pspDevCcpReqPassthruProcess pThis pReq (uFunc : Z) : Z * CCPCORE Ext :=
  let uByteSwap := u8 (CCP_V5_ENGINE_PASSTHRU_BYTESWAP_GET uFunc) in
  let uBitwise := u8 (CCP_V5_ENGINE_PASSTHRU_BITWISE_GET uFunc) in
  let uReflect := u8 (CCP_V5_ENGINE_PASSTHRU_REFLECT_GET uFunc) in
  if passthru_supported uByteSwap uBitwise uReflect pReq then
    let cbLeft := cbSrc pReq in
    match pspDevCcpXferCtxInit pThis pReq false cbLeft
            (uByteSwap =? CCP_V5_ENGINE_PASSTHRU_BYTESWAP_256BIT) with
    | (pThis, Some XferCtx) =>
        passthru_loop (iterations cbLeft _4K) pThis XferCtx cbLeft
    | (pThis, None) => (-1, pThis)
    end
  else (-1, pThis).

(** [EVP_DigestUpdate] on the context of the device. *)
Definition EVP_DigestUpdate pThis (abData : list byte) : CCPCORE Ext :=
  match pOsslShaCtx pThis with
  | Some ctx => set_pOsslShaCtx (Some (mkEVP_MD_CTX (md_type ctx) (md_data ctx ++ abData))) pThis
  | None => pThis
  end.

(** [EVP_DigestFinal_ex] into [pbDigest]: the whole digest of the context
    is written from the start of the buffer, whatever the size of the
    buffer.  [None] is the write past the end of a buffer that is shorter
    than the digest. *)
Definition EVP_DigestFinal_ex (ctx : EVP_MD_CTX) (pbDigest : list byte)
  : option (list byte) :=
  let digest := EVP_Digest (md_type ctx) (md_data ctx) in
  if (length digest <=? length pbDigest)%nat then Some (list_inserts 0 digest pbDigest)
  else None.

(** The update loop of pspDevCcpReqShaProcess. *)
Fixpoint sha_loop (fuel : nat) pThis (XferCtx : CCPXFERCTX) (cbLeft : Z)
  : Z * CCPCORE Ext * CCPXFERCTX :=
  if cbLeft =? 0 then (0, pThis, XferCtx)
  else
    match fuel with
    | O => (-1, pThis, XferCtx)
    | S fuel' =>
        let cbThisProc := Z.min cbLeft 256 in
        match pspDevCcpXferCtxRead pThis XferCtx cbThisProc false with
        | None => (-1, pThis, XferCtx)
        | Some (XferCtx, abData) =>
            sha_loop fuel' (EVP_DigestUpdate pThis abData) XferCtx (cbLeft - cbThisProc)
        end
    end.

Definition pspDevCcpReqShaProcess pThis pReq (uFunc : Z) (fInit fEom : bool)
  : Z * CCPCORE Ext :=
  let uShaType := u32 (CCP_V5_ENGINE_SHA_TYPE_GET uFunc) in
  if (uShaType =? CCP_V5_ENGINE_SHA_TYPE_256) || (uShaType =? CCP_V5_ENGINE_SHA_TYPE_384) then
    let cbLeft := cbSrc pReq in
    let '(pOsslEvpSha, cbDigest) :=
      if uShaType =? CCP_V5_ENGINE_SHA_TYPE_256 then (EVP_sha256, 32) else (EVP_sha384, 48) in
    match pspDevCcpXferCtxInit pThis pReq true (EVP_MD_size pOsslEvpSha) true with
    | (pThis, Some XferCtx) =>
        let pThis :=
          match pOsslShaCtx pThis with
          | None => set_pOsslShaCtx (Some (mkEVP_MD_CTX pOsslEvpSha [])) pThis
          | Some _ => pThis
          end in
        let '(rc, pThis, XferCtx) := sha_loop (iterations cbLeft 256) pThis XferCtx cbLeft in
        if (rc =? 0) && fEom then
          (* Finalize state and write to the storage buffer. *)
          match pOsslShaCtx pThis with
          | Some ctx =>
              match EVP_DigestFinal_ex ctx (indeterminate cbDigest) with
              | Some pbDigest =>
                  let '(rc, pThis, _) :=
                    pspDevCcpXferCtxWrite pThis XferCtx pbDigest cbDigest false in
                  (rc, set_pOsslShaCtx None pThis)
              | None =>
                  (* the digest of the context went past the end of the
                     alloca(cbDigest) buffer, next to XferCtx *)
                  digest_overrun pThis pReq uFunc fInit fEom
              end
          | None => (-1, pThis)
          end
        else (rc, pThis)
    | (pThis, None) => (-1, pThis)
    end
  else (-1, pThis).

(** pspDevCcpReqRsaProcess.  [abExp] is the automatic array of that name as
    it is found on entry. *)
Definition pspDevCcpReqRsaProcess pThis pReq (uFunc : Z) (fInit fEom : bool)
    (abExp : list byte) : Z * CCPCORE Ext :=
  let uSz := u16 (CCP_V5_ENGINE_RSA_SZ_GET uFunc) in
  let uMode := u8 (CCP_V5_ENGINE_RSA_MODE_GET uFunc) in
  if (uMode =? 0)
     && (((uSz =? 256) && (cbSrc pReq =? 512)) || ((uSz =? 512) && (cbSrc pReq =? 1024)))
  then
    let '(rc, abExp) := pspDevCcpKeyCopyFromReq pThis pReq uSz abExp in
    if rc =? 0 then
      let pExp := le_to_Z (take (Z.to_nat (uSz / 2)) abExp) in
      match pspDevCcpXferCtxInit pThis pReq false uSz false with
      | (pThis, Some XferCtx) =>
          match pspDevCcpXferCtxRead pThis XferCtx (cbSrc pReq) false with
          | Some (XferCtx, abData) =>
              let pMod := le_to_Z (take (Z.to_nat (cbSrc pReq / 2)) abData) in
              (* Need to convert to little endian format. *)
              let abMsg :=
                take (Z.to_nat (cbSrc pReq / 2))
                  (pspDevCcpReverseBuf (drop (Z.to_nat uSz) abData) (cbSrc pReq / 2)) in
              match RSA_public_encrypt pMod pExp abMsg with
              | Some abResult =>
                  if Z.of_nat (length abResult) =? uSz then
                    let abResult := pspDevCcpReverseBuf abResult uSz in
                    let '(rc, pThis, _) :=
                      pspDevCcpXferCtxWrite pThis XferCtx abResult uSz false in
                    (rc, pThis)
                  else (-1, pThis)
              | None => (-1, pThis)
              end
          | None => (-1, pThis)
          end
      | (pThis, None) => (-1, pThis)
      end
    else (rc, pThis)
  else (-1, pThis).

(** pspDevCcpReqProcess: the dispatch on the engine of dword 0. *)
Definition pspDevCcpReqProcess pThis pReq : Z * CCPCORE Ext :=
  let uEngine := u32 (CCP_V5_ENGINE_GET (u32Dw0 pReq)) in
  let uFunction := u32 (CCP_V5_ENGINE_FUNC_GET (u32Dw0 pReq)) in
  let fInit := CCP_V5_ENGINE_INIT_GET (u32Dw0 pReq) in
  let fEom := CCP_V5_ENGINE_EOM_GET (u32Dw0 pReq) in
  if uEngine =? CCP_V5_ENGINE_PASSTHRU then
    pspDevCcpReqPassthruProcess pThis pReq uFunction
  else if uEngine =? CCP_V5_ENGINE_SHA then
    pspDevCcpReqShaProcess pThis pReq uFunction fInit fEom
  else if uEngine =? CCP_V5_ENGINE_AES then
    pspDevCcpReqAesProcess pThis pReq uFunction fInit fEom
  else if uEngine =? CCP_V5_ENGINE_ZLIB_DECOMP then
    pspDevCcpReqZlibProcess pThis pReq uFunction fInit fEom
  else if uEngine =? CCP_V5_ENGINE_RSA then
    pspDevCcpReqRsaProcess pThis pReq uFunction fInit fEom (indeterminate 512)
  else if uEngine =? CCP_V5_ENGINE_ECC then
    pspDevCcpReqEccProcess pThis pReq uFunction fInit fEom
  else (-1, pThis).

End Engines.

(** ** The device: queues, executor and MMIO front-end *)

(** What the device hands to its surroundings: calls of [pfnIrqSet] of the
    device interface and the lines it prints.  [EvQueueRunMaybe] records a
    call of the queue executor; it is kept in the same trace to tell when
    the executor is invoked. *)
Inductive printf_msg :=
  | MsgUnsupportedAccessWidth (offMmio cb : Z)
  | MsgInvalidQueue (offMmio cb uQueue : Z)
  | MsgReqReadFailed (u32ReqHead : Z).

Inductive event :=
  | EvIrqSet (idPrio idDev : Z) (fAssert : bool)
  | EvPrintf (msg : printf_msg)
  | EvQueueRunMaybe (uQueue : nat).

(** The device instance (struct PSPDEVCCP) with the trace of its device
    interface.  The trace grows at its end. *)
Record PSPDEVCCP (Ext : Type) := mkPSPDEVCCP {
  aQueues : list CCPQUEUE;
  Core : CCPCORE Ext;
  Trace : list event
}.
Arguments mkPSPDEVCCP {Ext}.
Arguments aQueues {Ext}.
Arguments Core {Ext}.
Arguments Trace {Ext}.

Definition ELEMENTS_aQueues : Z := 2.

(** The state of the interrupt line of device 0x15 after a trace: what the
    last [pfnIrqSet] for it asked for, deasserted before the first. *)
Fixpoint irq_line_from (fAsserted : bool) (t : list event) : bool :=
  match t with
  | [] => fAsserted
  | EvIrqSet _ idDev fAssert :: t' =>
      irq_line_from (if idDev =? 21 then fAssert else fAsserted) t'
  | _ :: t' => irq_line_from fAsserted t'
  end.

Definition irq_line (t : list event) : bool := irq_line_from false t.

(** Modelled from the spec: the layout of CCP5REQ comes from psp/ccp.h, which
    is not among the sources.  A descriptor is 32 bytes, little-endian:
    dword 0, the source byte count, the source address low and high, the
    source memory type, the destination address low and high and memory type
    (or the SHA bit length), the key address low and high and memory type. *)
Definition CCP5REQ_of_bytes (b : list byte) : CCP5REQ :=
  let f (off len : Z) := le_to_Z (take (Z.to_nat len) (drop (Z.to_nat off) b)) in
  mkCCP5REQ (f 0 4) (f 4 4) (f 8 4) (f 12 2) (f 14 2) (f 16 4) (f 20 2) (f 22 2)
    (f 24 4) (f 28 2) (f 30 2).

Definition sizeof_Req : Z := 32.

Section Device.
Context `{hdr : CcpHdr} {Ext : Type} `{env : !CcpEnv Ext}.
Implicit Types (pThis : PSPDEVCCP Ext) (pQueue : CCPQUEUE) (uQueue : nat).

Definition set_Core (c : CCPCORE Ext) pThis : PSPDEVCCP Ext :=
  mkPSPDEVCCP (aQueues pThis) c (Trace pThis).
Definition emit (e : event) pThis : PSPDEVCCP Ext :=
  mkPSPDEVCCP (aQueues pThis) (Core pThis) (Trace pThis ++ [e]).
(** An update through the pointer [pQueue = &pThis->aQueues[uQueue]]. *)
Definition upd_queue (f : CCPQUEUE -> CCPQUEUE) uQueue pThis : PSPDEVCCP Ext :=
  mkPSPDEVCCP (alter f uQueue (aQueues pThis)) (Core pThis) (Trace pThis).

Definition set_u32RegCtrl (v : Z) pQueue : CCPQUEUE :=
  mkCCPQUEUE v (u32RegReqTail pQueue) (u32RegReqHead pQueue) (u32RegSts pQueue)
    (u32RegIen pQueue) (u32RegIsts pQueue) (fEnabled pQueue).
Definition set_u32RegReqTail (v : Z) pQueue : CCPQUEUE :=
  mkCCPQUEUE (u32RegCtrl pQueue) v (u32RegReqHead pQueue) (u32RegSts pQueue)
    (u32RegIen pQueue) (u32RegIsts pQueue) (fEnabled pQueue).
Definition set_u32RegReqHead (v : Z) pQueue : CCPQUEUE :=
  mkCCPQUEUE (u32RegCtrl pQueue) (u32RegReqTail pQueue) v (u32RegSts pQueue)
    (u32RegIen pQueue) (u32RegIsts pQueue) (fEnabled pQueue).
Definition set_u32RegSts (v : Z) pQueue : CCPQUEUE :=
  mkCCPQUEUE (u32RegCtrl pQueue) (u32RegReqTail pQueue) (u32RegReqHead pQueue) v
    (u32RegIen pQueue) (u32RegIsts pQueue) (fEnabled pQueue).
Definition set_u32RegIen (v : Z) pQueue : CCPQUEUE :=
  mkCCPQUEUE (u32RegCtrl pQueue) (u32RegReqTail pQueue) (u32RegReqHead pQueue)
    (u32RegSts pQueue) v (u32RegIsts pQueue) (fEnabled pQueue).
Definition set_u32RegIsts (v : Z) pQueue : CCPQUEUE :=
  mkCCPQUEUE (u32RegCtrl pQueue) (u32RegReqTail pQueue) (u32RegReqHead pQueue)
    (u32RegSts pQueue) (u32RegIen pQueue) v (fEnabled pQueue).
Definition set_fEnabled (v : bool) pQueue : CCPQUEUE :=
  mkCCPQUEUE (u32RegCtrl pQueue) (u32RegReqTail pQueue) (u32RegReqHead pQueue)
    (u32RegSts pQueue) (u32RegIen pQueue) (u32RegIsts pQueue) v.

(** What the executor records for a request that did not succeed. *)
Definition queue_signal_error pQueue : CCPQUEUE :=
  set_u32RegIsts (Z.lor (u32RegIsts (set_u32RegSts CCP_V5_Q_REG_STATUS_ERROR pQueue))
                    CCP_V5_Q_REG_ISTS_ERROR)
    (set_u32RegSts CCP_V5_Q_REG_STATUS_ERROR pQueue).

Definition queue_signal_success pQueue : CCPQUEUE :=
  set_u32RegIsts (Z.lor (u32RegIsts (set_u32RegSts CCP_V5_Q_REG_STATUS_SUCCESS pQueue))
                    CCP_V5_Q_REG_ISTS_COMPLETION)
    (set_u32RegSts CCP_V5_Q_REG_STATUS_SUCCESS pQueue).

(** One iteration of the drain loop of pspDevCcpQueueRunMaybe on the
    descriptor at [u32ReqHead]: the device and the advanced head when the
    loop goes on, the device alone when the iteration ends in [break]. *)
Definition queue_drain_step pThis uQueue (u32ReqHead : Z)
  : PSPDEVCCP Ext * Z + PSPDEVCCP Ext :=
  match PSPEmuIoMgrPspAddrRead (hIoMgr (Core pThis)) u32ReqHead sizeof_Req with
  | Some bytes =>
      let Req := CCP5REQ_of_bytes bytes in
      let '(rc, core) := pspDevCcpReqProcess (Core pThis) Req in
      let pThis := set_Core core pThis in
      if rc =? 0 then
        inl (upd_queue queue_signal_success uQueue pThis, u32 (u32ReqHead + sizeof_Req))
      else
        inr (upd_queue queue_signal_error uQueue pThis)
  | None =>
      inr (upd_queue queue_signal_error uQueue
             (emit (EvPrintf (MsgReqReadFailed u32ReqHead)) pThis))
  end.

(** The drain loop: the device and the local [u32ReqHead] when the loop is
    left, or [None] when it is still running after [fuel] iterations. *)
Fixpoint queue_drain (fuel : nat) pThis uQueue (u32ReqTail u32ReqHead : Z)
  : option (PSPDEVCCP Ext * Z) :=
  if u32ReqTail =? u32ReqHead then Some (pThis, u32ReqHead)
  else
    match fuel with
    | O => None
    | S fuel' =>
        match queue_drain_step pThis uQueue u32ReqHead with
        | inl (pThis, u32ReqHead) => queue_drain fuel' pThis uQueue u32ReqTail u32ReqHead
        | inr pThis => Some (pThis, u32ReqHead)
        end
    end.

(** The registers of the queue once the loop is left. *)
Definition queue_halt (u32ReqTail u32ReqHead : Z) pQueue : CCPQUEUE :=
  let pQueue := set_u32RegReqHead u32ReqHead pQueue in
  let pQueue := set_u32RegCtrl (Z.lor (u32RegCtrl pQueue) CCP_V5_Q_REG_CTRL_HALT) pQueue in
  let pQueue := set_u32RegIsts (Z.lor (u32RegIsts pQueue) CCP_V5_Q_REG_ISTS_Q_STOP) pQueue in
  if u32ReqTail =? u32ReqHead
  then set_u32RegIsts (Z.lor (u32RegIsts pQueue) CCP_V5_Q_REG_ISTS_Q_EMPTY) pQueue
  else pQueue.

(** Issue an interrupt request if there is something pending. *)
Definition queue_irq_maybe uQueue pThis : PSPDEVCCP Ext :=
  match aQueues pThis !! uQueue with
  | Some pQueue =>
      if nonzero (Z.land (u32RegIen pQueue) (u32RegIsts pQueue))
      then emit (EvIrqSet 0 21 true) pThis
      else pThis
  | None => pThis
  end.

(** The device when the drain loop of an enabled queue is entered: the call
    is on the trace and the halt bit is cleared. *)
Definition queue_run_enter pThis uQueue : PSPDEVCCP Ext :=
  upd_queue (fun q => set_u32RegCtrl (and_not (u32RegCtrl q) CCP_V5_Q_REG_CTRL_HALT) q)
    uQueue (emit (EvQueueRunMaybe uQueue) pThis).

Definition pspDevCcpQueueRunMaybe (fuel : nat) pThis uQueue : option (PSPDEVCCP Ext) :=
  match aQueues pThis !! uQueue with
  | Some pQueue =>
      if fEnabled pQueue then
        (* Clear halt and running bit. *)
        let pThis := queue_run_enter pThis uQueue in
        let u32ReqTail := u32RegReqTail pQueue in
        match queue_drain fuel pThis uQueue u32ReqTail (u32RegReqHead pQueue) with
        | Some (pThis, u32ReqHead) =>
            (* Set halt bit again. *)
            Some (queue_irq_maybe uQueue
                    (upd_queue (queue_halt u32ReqTail u32ReqHead) uQueue pThis))
        | None => None
        end
      else Some (emit (EvQueueRunMaybe uQueue) pThis)
  | None => Some (emit (EvQueueRunMaybe uQueue) pThis)
  end.

(** pspDevCcpMmioQueueRegRead: the value stored through [pu32Dst] and the
    device after the call. *)
Definition queue_reg_read (offRegQ : Z) pQueue : Z :=
  if offRegQ =? CCP_V5_Q_REG_CTRL then u32RegCtrl pQueue
  else if offRegQ =? CCP_V5_Q_REG_HEAD then u32RegReqHead pQueue
  else if offRegQ =? CCP_V5_Q_REG_TAIL then u32RegReqTail pQueue
  else if offRegQ =? CCP_V5_Q_REG_STATUS then u32RegSts pQueue
  else if offRegQ =? CCP_V5_Q_REG_IEN then u32RegIen pQueue
  else if offRegQ =? CCP_V5_Q_REG_ISTS then u32RegIsts pQueue
  else 0.

Definition pspDevCcpMmioQueueRegRead (fuel : nat) pThis uQueue (offRegQ : Z)
  : option (Z * PSPDEVCCP Ext) :=
  let u32Dst := from_option (queue_reg_read offRegQ) 0 (aQueues pThis !! uQueue) in
  match pspDevCcpQueueRunMaybe fuel pThis uQueue with
  | Some pThis => Some (u32Dst, pThis)
  | None => None
  end.

(** The case of the interrupt status register in that switch. *)
Definition queue_ists_write (u32Val : Z) uQueue pThis : PSPDEVCCP Ext :=
  (* Set bits clear the corresponding interrupt. *)
  let pThis := upd_queue (fun q => set_u32RegIsts (and_not (u32RegIsts q) u32Val) q)
                 uQueue pThis in
  (* Reset the interrupt line if there is nothing pending anymore. *)
  match aQueues pThis !! uQueue with
  | Some pQueue =>
      if negb (nonzero (Z.land (u32RegIen pQueue) (u32RegIsts pQueue)))
      then emit (EvIrqSet 0 21 false) pThis
      else pThis
  | None => pThis
  end.

(** The switch of pspDevCcpMmioQueueRegWrite. *)
Definition queue_reg_write (offRegQ u32Val : Z) uQueue pThis : PSPDEVCCP Ext :=
  if offRegQ =? CCP_V5_Q_REG_CTRL then
    upd_queue (fun q =>
      let q :=
        if nonzero (Z.land u32Val CCP_V5_Q_REG_CTRL_RUN) && negb (fEnabled q)
        then set_fEnabled true q
        else if negb (nonzero (Z.land u32Val CCP_V5_Q_REG_CTRL_RUN)) && fEnabled q
        then set_fEnabled false q
        else q in
      (* The run bit seems to be always cleared. *)
      set_u32RegCtrl (and_not u32Val CCP_V5_Q_REG_CTRL_RUN) q) uQueue pThis
  else if offRegQ =? CCP_V5_Q_REG_HEAD then upd_queue (set_u32RegReqHead u32Val) uQueue pThis
  else if offRegQ =? CCP_V5_Q_REG_TAIL then upd_queue (set_u32RegReqTail u32Val) uQueue pThis
  else if offRegQ =? CCP_V5_Q_REG_STATUS then upd_queue (set_u32RegSts u32Val) uQueue pThis
  else if offRegQ =? CCP_V5_Q_REG_IEN then upd_queue (set_u32RegIen u32Val) uQueue pThis
  else if offRegQ =? CCP_V5_Q_REG_ISTS then queue_ists_write u32Val uQueue pThis
  else pThis.

Definition pspDevCcpMmioQueueRegWrite (fuel : nat) pThis uQueue (offRegQ u32Val : Z)
  : option (PSPDEVCCP Ext) :=
  let pThis := queue_reg_write offRegQ u32Val uQueue pThis in
  match aQueues pThis !! uQueue with
  | Some pQueue =>
      if nonzero (u32RegIen pQueue)
      then pspDevCcpQueueRunMaybe fuel pThis uQueue
      else Some pThis
  | None => Some pThis
  end.

(** pspDevCcpMmioRead: the caller's buffer [pvDst] and the device after the
    call. *)
Definition pspDevCcpMmioRead (fuel : nat) pThis (offMmio cbRead : Z) (pvDst : list byte)
  : option (list byte * PSPDEVCCP Ext) :=
  if negb (cbRead =? 4) then
    Some (pvDst, emit (EvPrintf (MsgUnsupportedAccessWidth offMmio cbRead)) pThis)
  else if CCP_V5_Q_OFFSET <=? offMmio then
    (* Queue access. *)
    let offMmio := u32 (offMmio - CCP_V5_Q_OFFSET) in
    let uQueue := offMmio / CCP_V5_Q_SIZE in
    let offRegQ := offMmio mod CCP_V5_Q_SIZE in
    if uQueue <? ELEMENTS_aQueues then
      match pspDevCcpMmioQueueRegRead fuel pThis (Z.to_nat uQueue) offRegQ with
      | Some (u32Dst, pThis) => Some (list_inserts 0 (Z_to_le 4 u32Dst) pvDst, pThis)
      | None => None
      end
    else Some (pvDst, emit (EvPrintf (MsgInvalidQueue offMmio cbRead uQueue)) pThis)
  else
    Some (list_inserts 0 (replicate (Z.to_nat cbRead) Byte.x00) pvDst, pThis).

Definition pspDevCcpMmioWrite (fuel : nat) pThis (offMmio cbWrite : Z) (pvVal : list byte)
  : option (PSPDEVCCP Ext) :=
  if negb (cbWrite =? 4) then
    Some (emit (EvPrintf (MsgUnsupportedAccessWidth offMmio cbWrite)) pThis)
  else if CCP_V5_Q_OFFSET <=? offMmio then
    (* Queue access. *)
    let offMmio := u32 (offMmio - CCP_V5_Q_OFFSET) in
    let uQueue := offMmio / CCP_V5_Q_SIZE in
    let offRegQ := offMmio mod CCP_V5_Q_SIZE in
    if uQueue <? ELEMENTS_aQueues then
      pspDevCcpMmioQueueRegWrite fuel pThis (Z.to_nat uQueue) offRegQ
        (le_to_Z (take 4 pvVal))
    else Some (emit (EvPrintf (MsgInvalidQueue offMmio cbWrite uQueue)) pThis)
  else Some pThis.

(** pspDevCcpMmioRead2: the caller's buffer after the call. *)
Definition pspDevCcpMmioRead2 pThis (offMmio cbRead : Z) (pvDst : list byte)
  : list byte * PSPDEVCCP Ext :=
  if negb (cbRead =? 4) then
    (pvDst, emit (EvPrintf (MsgUnsupportedAccessWidth offMmio cbRead)) pThis)
  else if offMmio =? 40 then
    (list_inserts 0 (Z_to_le 4 (u32 (cbWrittenLast (Core pThis)))) pvDst, pThis)
  else if offMmio =? 56 then (list_inserts 0 (Z_to_le 4 1) pvDst, pThis)
  else (list_inserts 0 (Z_to_le 4 0) pvDst, pThis).

(** pspDevCcpInit on the instance memory it is handed: the registers it
    sets, the others as found. *)
Definition pspDevCcpInit pThis : PSPDEVCCP Ext :=
  mkPSPDEVCCP
    ((fun q => mkCCPQUEUE CCP_V5_Q_REG_CTRL_HALT (u32RegReqTail q) (u32RegReqHead q)
                 CCP_V5_Q_REG_STATUS_SUCCESS 0 0 false) <$> aQueues pThis)
    (set_pOsslShaCtx None (Core pThis))
    (Trace pThis).

End Device.

(** ** Reference instances

    A header with the bit assignment of the CCP v5 as the Linux driver
    documents it (it agrees with the request dump quoted in
    pspDevCcpMmioQueueRegRead), SHA-256 and SHA-384 after FIPS 180-4, and
    textbook RSA.  The closed examples below are evaluated on them. *)

Module SHA2.

(** The two SHA-2 families of FIPS 180-4: word size in bytes, round
    constants, initial hash value, the rotation amounts of the four sigma
    functions and the digest length in bytes. *)
Record params := mkparams {
  wbytes : Z;
  K : list Z;
  H0 : list Z;
  Sig0 : Z * Z * Z;
  Sig1 : Z * Z * Z;
  sig0 : Z * Z * Z;
  sig1 : Z * Z * Z;
  outlen : nat
}.

Section Hash.
Variable P : params.

Definition wbits : Z := 8 * wbytes P.
Definition wrap (x : Z) : Z := x mod 2 ^ wbits.
Definition rotr (n x : Z) : Z := Z.lor (Z.shiftr x n) (wrap (Z.shiftl x (wbits - n))).
Definition Ch (x y z : Z) : Z := Z.lxor z (Z.land x (Z.lxor y z)).
Definition Maj (x y z : Z) : Z := Z.lxor (Z.lxor (Z.land x y) (Z.land x z)) (Z.land y z).
Definition bigsig (r : Z * Z * Z) (x : Z) : Z :=
  let '(a, b, c) := r in Z.lxor (Z.lxor (rotr a x) (rotr b x)) (rotr c x).
Definition smallsig (r : Z * Z * Z) (x : Z) : Z :=
  let '(a, b, c) := r in Z.lxor (Z.lxor (rotr a x) (rotr b x)) (Z.shiftr x c).

Definition round (st : list Z) (k w : Z) : list Z :=
  match st with
  | [a; b; c; d; e; f; g; h] =>
      let T1 := wrap (h + bigsig (Sig1 P) e + Ch e f g + k + w) in
      let T2 := wrap (bigsig (Sig0 P) a + Maj a b c) in
      [wrap (T1 + T2); a; b; c; wrap (d + T1); e; f; g]
  | _ => st
  end.

(** The message schedule as a window of the last sixteen words. *)
Definition next_w (win : list Z) : Z :=
  wrap (smallsig (sig1 P) (nth 14 win 0) + nth 9 win 0
        + smallsig (sig0 P) (nth 1 win 0) + nth 0 win 0).

Fixpoint rounds (ks : list Z) (win st : list Z) : list Z :=
  match ks with
  | [] => st
  | k :: ks' => rounds ks' (tail win ++ [next_w win]) (round st k (hd 0 win))
  end.

Definition words (block : list byte) : list Z :=
  be_to_Z <$> reshape (replicate 16 (Z.to_nat (wbytes P))) block.

Definition compress (H : list Z) (block : list byte) : list Z :=
  zip_with (fun x y => wrap (x + y)) H (rounds (K P) (words block) H).

Definition blockbytes : Z := 16 * wbytes P.

Definition pad (m : list byte) : list byte :=
  let len := Z.of_nat (length m) in
  let k := (- (len + 1 + 2 * wbytes P)) mod blockbytes in
  m ++ [Byte.x80] ++ replicate (Z.to_nat k) Byte.x00
    ++ Z_to_be (Z.to_nat (2 * wbytes P)) (8 * len).

Definition hash (m : list byte) : list byte :=
  let p := pad m in
  let blocks :=
    reshape (replicate (Z.to_nat (Z.of_nat (length p) / blockbytes))
               (Z.to_nat blockbytes)) p in
  take (outlen P)
    (concat (Z_to_be (Z.to_nat (wbytes P)) <$> foldl compress (H0 P) blocks)).

End Hash.

(** The constants are the leading fractional bits of the square and cube
    roots of the first primes (FIPS 180-4, 4.2.2, 4.2.3, 5.3.3 and 5.3.4). *)
Definition is_prime (n : Z) : bool :=
  (1 <? n) && forallb (fun d => negb (n mod d =? 0)) (seqZ 2 (Z.sqrt n - 1)).

Definition primes (n : nat) : list Z := take n (List.filter is_prime (seqZ 2 408)).

(** The largest [r] below [2 ^ bits] with [r ^ k <= n], bit by bit from
    [r = 0]. *)
Fixpoint iroot (k n : Z) (bits : nat) (r : Z) : Z :=
  match bits with
  | O => r
  | S b => let r' := r + 2 ^ Z.of_nat b in iroot k n b (if r' ^ k <=? n then r' else r)
  end.

(** The first [w] fractional bits of the [k]-th root of [p]. *)
Definition frac_root (k w p : Z) : Z :=
  iroot k (p * 2 ^ (k * w)) (Z.to_nat w + 8) 0 mod 2 ^ w.

Definition K256 : list Z := Eval vm_compute in frac_root 3 32 <$> primes 64.
Definition H256 : list Z := Eval vm_compute in frac_root 2 32 <$> primes 8.
Definition K512 : list Z := Eval vm_compute in frac_root 3 64 <$> primes 80.
Definition H384 : list Z := Eval vm_compute in frac_root 2 64 <$> drop 8 (primes 16).

Definition sha256_params : params :=
  mkparams 4 K256 H256 (2, 13, 22) (6, 11, 25) (7, 18, 3) (17, 19, 10) 32.
Definition sha384_params : params :=
  mkparams 8 K512 H384 (28, 34, 39) (14, 18, 41) (1, 8, 7) (19, 61, 6) 48.

Definition sha256 : list byte -> list byte := hash sha256_params.
Definition sha384 : list byte -> list byte := hash sha384_params.

End SHA2.

Definition ccp_v5_hdr : CcpHdr.
Proof.
  refine {|
    CCP_V5_MEM_TYPE_GET := fun x => Z.land x 3;
    CCP_V5_MEM_LSB_CTX_ID_GET := fun x => Z.land (Z.shiftr x 2) 255;
    CCP_V5_MEM_TYPE_SYSTEM := 0;
    CCP_V5_MEM_TYPE_SB := 1;
    CCP_V5_MEM_TYPE_LOCAL := 2;
    CCP_V5_ENGINE_GET := fun dw0 => Z.land (Z.shiftr dw0 20) 15;
    CCP_V5_ENGINE_FUNC_GET := fun dw0 => Z.land (Z.shiftr dw0 5) 32767;
    CCP_V5_ENGINE_INIT_GET := fun dw0 => Z.testbit dw0 3;
    CCP_V5_ENGINE_EOM_GET := fun dw0 => Z.testbit dw0 4;
    CCP_V5_ENGINE_AES := 0;
    CCP_V5_ENGINE_XTS_AES128 := 1;
    CCP_V5_ENGINE_DES3 := 2;
    CCP_V5_ENGINE_SHA := 3;
    CCP_V5_ENGINE_RSA := 4;
    CCP_V5_ENGINE_PASSTHRU := 5;
    CCP_V5_ENGINE_ZLIB_DECOMP := 6;
    CCP_V5_ENGINE_ECC := 7;
    CCP_V5_ENGINE_PASSTHRU_BYTESWAP_GET := fun f => Z.land f 3;
    CCP_V5_ENGINE_PASSTHRU_BITWISE_GET := fun f => Z.land (Z.shiftr f 2) 7;
    CCP_V5_ENGINE_PASSTHRU_REFLECT_GET := fun f => Z.land (Z.shiftr f 5) 3;
    CCP_V5_ENGINE_PASSTHRU_BYTESWAP_NOOP := 0;
    CCP_V5_ENGINE_PASSTHRU_BYTESWAP_256BIT := 2;
    CCP_V5_ENGINE_PASSTHRU_BITWISE_NOOP := 0;
    CCP_V5_ENGINE_SHA_TYPE_GET := fun f => Z.land (Z.shiftr f 10) 15;
    CCP_V5_ENGINE_SHA_TYPE_256 := 3;
    CCP_V5_ENGINE_SHA_TYPE_384 := 4;
    CCP_V5_ENGINE_RSA_SZ_GET := fun f => Z.land f 8191;
    CCP_V5_ENGINE_RSA_MODE_GET := fun f => Z.land (Z.shiftr f 13) 3;
    CCP_V5_Q_OFFSET := 4096;
    CCP_V5_Q_SIZE := 4096;
    CCP_V5_Q_REG_CTRL := 0;
    CCP_V5_Q_REG_HEAD := 8;
    CCP_V5_Q_REG_TAIL := 4;
    CCP_V5_Q_REG_STATUS := 256;
    CCP_V5_Q_REG_IEN := 12;
    CCP_V5_Q_REG_ISTS := 16;
    CCP_V5_Q_REG_CTRL_RUN := 1;
    CCP_V5_Q_REG_CTRL_HALT := 2;
    CCP_V5_Q_REG_STATUS_SUCCESS := 0;
    CCP_V5_Q_REG_STATUS_ERROR := 1;
    CCP_V5_Q_REG_ISTS_COMPLETION := 1;
    CCP_V5_Q_REG_ISTS_ERROR := 2;
    CCP_V5_Q_REG_ISTS_Q_STOP := 4;
    CCP_V5_Q_REG_ISTS_Q_EMPTY := 8
  |}; try lia; compute_done.
Defined.

(** Textbook RSA as [RSA_public_encrypt] with [RSA_NO_PADDING] computes it:
    the input has as many bytes as the modulus and is below it, the public
    exponent is below the modulus, the modulus is odd. *)
Definition BN_num_bytes (n : Z) : Z := if n =? 0 then 0 else Z.log2 n / 8 + 1.

Definition rsa_public_encrypt_nopad (n e : Z) (from : list byte) : option (list byte) :=
  let m := be_to_Z from in
  if (Z.of_nat (length from) =? BN_num_bytes n) && (m <? n) && (0 <=? e) && (e <? n)
     && Z.odd n
  then Some (Z_to_be (length from) (Zpow_mod m e n))
  else None.

(** The reference environment: no AES, ZLIB or ECC (these requests fail), an
    automatic buffer that was never written holds 0xAA bytes, and a request
    whose digest overran its buffer fails with the state it had. *)
Definition ccp_ref_env : CcpEnv unit.
Proof.
  refine {|
    EVP_Digest := fun md =>
      match md with EVP_sha256 => SHA2.sha256 | EVP_sha384 => SHA2.sha384 end;
    RSA_public_encrypt := rsa_public_encrypt_nopad;
    indeterminate := fun n => replicate (Z.to_nat n) Byte.xaa;
    digest_overrun := fun pThis _ _ _ _ => (-1, pThis);
    pspDevCcpReqAesProcess := fun pThis _ _ _ _ => (-1, pThis);
    pspDevCcpReqZlibProcess := fun pThis _ _ _ _ => (-1, pThis);
    pspDevCcpReqEccProcess := fun pThis _ _ _ _ => (-1, pThis)
  |}.
  - (* the state has eight words throughout, the digest is a prefix of it *)
    assert (Hle : forall n z, length (Z_to_le n z) = n).
    { intros n. induction n as [|n IH]; intros z; simpl; [done | by rewrite IH]. }
    assert (Hround : forall P st k w,
              length st = 8%nat -> length (SHA2.round P st k w) = 8%nat).
    { intros P st k w H. do 9 (destruct st as [|? st]; try discriminate H). reflexivity. }
    assert (Hrounds : forall P ks win st,
              length st = 8%nat -> length (SHA2.rounds P ks win st) = 8%nat).
    { intros P ks. induction ks as [|k ks IH]; intros win st H; simpl; [done |].
      apply IH, Hround, H. }
    assert (Hfold : forall P blocks H,
              length H = 8%nat -> length (foldl (SHA2.compress P) H blocks) = 8%nat).
    { intros P blocks. induction blocks as [|b blocks IH]; intros H HH; simpl; [done |].
      apply IH. unfold SHA2.compress.
      rewrite length_zip_with, Hrounds, HH by done. reflexivity. }
    assert (Hhash : forall P m,
              length (SHA2.H0 P) = 8%nat ->
              (SHA2.outlen P <= 8 * Z.to_nat (SHA2.wbytes P))%nat ->
              length (SHA2.hash P m) = SHA2.outlen P).
    { intros P m H0 Hout. unfold SHA2.hash.
      match goal with |- context [foldl ?f ?a ?l] =>
        pose proof (Hfold P l a H0) as HL; set (Hs := foldl f a l) in * end.
      do 9 (destruct Hs as [|? Hs]; try discriminate HL).
      rewrite length_take. cbn [fmap list_fmap concat]. unfold Z_to_be.
      rewrite !length_app, !length_reverse, !Hle. simpl. lia. }
    intros [] m; unfold SHA2.sha256, SHA2.sha384;
      rewrite Hhash; simpl; try reflexivity; lia.
  - intros n e from to. unfold rsa_public_encrypt_nopad.
    destruct (_ && _) eqn:Hc; [|discriminate]. intros [= <-].
    rewrite Zpow_mod_correct; [reflexivity |].
    intros ->. rewrite !andb_true_iff in Hc. by destruct Hc as [_ Hc].
  - intros n Hn. rewrite length_replicate. lia.
Defined.

(** * Further code of the device and of the tracer *)

(** ** The swap loop of pspDevCcpReverseBuf *)

(** pspDevCcpReverseBuf as it is written: the cursors [pbBuf] and
    [pbBufTop], as offsets into the buffer, swap their bytes and move towards
    each other while the first is below the second.  [fuel] bounds the
    iterations.  (The C code is undefined when the cursors leave the buffer;
    here a read outside gives 0 and a write outside is dropped.) *)
Fixpoint reverse_buf_loop (fuel : nat) (buf : list byte) (pbBuf pbBufTop : Z) : list byte :=
  match fuel with
  | O => buf
  | S fuel' =>
      if pbBuf <? pbBufTop then
        let bTmp := default Byte.x00 (buf !! Z.to_nat pbBuf) in
        let buf := <[Z.to_nat pbBuf := default Byte.x00 (buf !! Z.to_nat pbBufTop)]> buf in
        let buf := <[Z.to_nat pbBufTop := bTmp]> buf in
        reverse_buf_loop fuel' buf (pbBuf + 1) (pbBufTop - 1)
      else buf
  end.

Definition pspDevCcpReverseBuf_loop (pbBuf : list byte) (cbBuf : Z) : list byte :=
  reverse_buf_loop (Z.to_nat cbBuf) pbBuf 0 (cbBuf - 1).

(** ** Helpers of the ECC engine *)

(** Modelled from the spec: the number type CCP5ECCNUM comes from psp/ccp.h,
    which is not among the sources; it is a little-endian integer of 72
    bytes (pspDevCcpReqEccProcess speaks of 0x48 bytes, or 576 bits).  A
    BIGNUM of OpenSSL is the non-negative integer it stands for, and its
    allocation succeeds. *)
Definition sizeof_CCP5ECCNUM : Z := 72.

(** The table [abPrime384] of pspDevCcpEccGetGroup. *)
Definition abPrime384 : list byte :=
  [Byte.xff; Byte.xff; Byte.xff; Byte.xff; Byte.x00; Byte.x00; Byte.x00; Byte.x00]
  ++ [Byte.x00; Byte.x00; Byte.x00; Byte.x00; Byte.xff; Byte.xff; Byte.xff; Byte.xff]
  ++ [Byte.xfe; Byte.xff; Byte.xff; Byte.xff; Byte.xff; Byte.xff; Byte.xff; Byte.xff]
  ++ replicate 24 Byte.xff
  ++ [Byte.x00].

(** The one group the function hands out: NIST P-384. *)
Inductive EC_GROUP := EC_curve_P384.

(** pspDevCcpEccGetGroup: the group, or NULL when the prime is not that of
    the table.  The coefficient is ignored. *)
Definition pspDevCcpEccGetGroup (pPrime : Z) : option EC_GROUP :=
  let pPrime384 := le_to_Z abPrime384 in
  if negb (pPrime =? pPrime384) then None else Some EC_curve_P384.

Section Ecc.
Context `{hdr : CcpHdr} {Ext : Type}.
Implicit Types (pThis : CCPCORE Ext) (pXferCtx : CCPXFERCTX).

(** pspDevCcpReqEccReturnNumber.  ([BN_bn2lebinpad] into 72 bytes does not
    fail once the number is known to fit.) *)
Definition pspDevCcpReqEccReturnNumber pThis pXferCtx (pResult : Z)
  : Z * CCPCORE Ext * CCPXFERCTX :=
  if BN_num_bytes pResult >? sizeof_CCP5ECCNUM then (-1, pThis, pXferCtx)
  else
    let Out := Z_to_le (Z.to_nat sizeof_CCP5ECCNUM) pResult in
    pspDevCcpXferCtxWrite pThis pXferCtx Out sizeof_CCP5ECCNUM false.

(** pspDevCcpReqEccReturnPoint on the affine coordinates of the point, or
    on none when [EC_POINT_get_affine_coordinates] fails. *)
Definition pspDevCcpReqEccReturnPoint pThis pXferCtx (pPoint : option (Z * Z))
  : Z * CCPCORE Ext * CCPXFERCTX :=
  match pPoint with
  | Some (pX, pY) =>
      let '(rc, pThis, pXferCtx) := pspDevCcpReqEccReturnNumber pThis pXferCtx pX in
      if rc =? 0 then pspDevCcpReqEccReturnNumber pThis pXferCtx pY
      else (rc, pThis, pXferCtx)
  | None => (-1, pThis, pXferCtx)
  end.

End Ecc.

(** * The tracer (psp-trace.c) *)

(** Modelled from the spec: psp-trace.h is not among the sources.  The
    number of event types, the flag asking for the full core context and the
    sizes of the event structures are parameters. *)
Class TraceHdr := {
  PSPTRACEEVTTYPE_LAST : nat;
  PSPEMU_TRACE_F_FULL_CORE_CTX : Z;
  sizeof_PSPTRACEEVT : Z;
  sizeof_PSPTRACEEVTXFER : Z;
  sizeof_PSPTRACEEVTDEVXFER : Z
}.

Inductive PSPTRACEEVTCONTENTTYPE :=
  | PSPTRACEEVTCONTENTTYPE_INVALID
  | PSPTRACEEVTCONTENTTYPE_STRING
  | PSPTRACEEVTCONTENTTYPE_XFER
  | PSPTRACEEVTCONTENTTYPE_DEV_XFER.

(** What the variable part [abContent] of an event holds: zeroes as
    [calloc] left them, a string, a transfer descriptor (PSPTRACEEVTXFER) or
    a device access descriptor (PSPTRACEEVTDEVXFER). *)
Inductive evt_content :=
  | ContentZero
  | ContentString (sz : list byte)
  | ContentXfer (uAddrSrc uAddrDst cbXfer : Z) (abXfer : list byte)
  | ContentDevXfer (uAddrDev cbXfer : Z) (fRead : bool) (abXfer pszDevId : list byte).

(** A trace event (struct PSPTRACEEVT).  Of the core registers the
    program counter is the one that is filled in; the time stamp is never
    set. *)
Record PSPTRACEEVT := mkPSPTRACEEVT {
  idTraceEvt : Z;
  enmEvtType : nat;
  enmContent : PSPTRACEEVTCONTENTTYPE;
  au32CoreRegs_PC : Z;
  cbAlloc : Z;
  abContent : evt_content
}.

(** The tracer instance (struct PSPTRACEINT).  [papTraceEvts] maps the
    slots of the array that were stored to to the events they point to; the
    handle of the core and the creation time stamp are left out. *)
Record PSPTRACEINT := mkPSPTRACEINT {
  uTraceEvtIdNext : Z;
  fFlags : Z;
  afEvtTypesEnabled : list bool;
  cbEvtAlloc : Z;
  cTraceEvtsMax : Z;
  cTraceEvts : Z;
  papTraceEvts : gmap Z PSPTRACEEVT
}.

(** The tracers that exist, by handle, and the global default tracer.  A
    handle is [None] for NULL. *)
Record TRACERS := mkTRACERS {
  g_pTraceDef : option nat;
  instances : gmap nat PSPTRACEINT
}.

(** What the surroundings answer during one call: whether [calloc] and
    [realloc] succeed, the status and value of [PSPEmuCoreQueryReg] for the
    program counter, and what a read of afEvtTypesEnabled at an index
    outside of the array finds in the memory behind it. *)
Record TRACEIO := mkTRACEIO {
  io_calloc : bool;
  io_realloc : bool;
  io_query_rc : Z;
  io_query_pc : Z;
  io_flag_beyond : nat -> bool
}.

Section Tracer.
Context `{thdr : TraceHdr}.
Implicit Types (pThis : PSPTRACEINT) (pEvt : PSPTRACEEVT) (w : TRACERS)
  (hTrace : option nat) (io : TRACEIO).

Definition pspEmuTraceGetInstance w hTrace : option nat :=
  match hTrace with
  | None => g_pTraceDef w
  | Some h => Some h
  end.

(** The instance a handle points to.  (A handle of no live tracer, which C
    would dereference all the same, counts as no tracer.) *)
Definition trace_instance w hTrace : option (nat * PSPTRACEINT) :=
  match pspEmuTraceGetInstance w hTrace with
  | Some h =>
      match instances w !! h with
      | Some pThis => Some (h, pThis)
      | None => None
      end
  | None => None
  end.

Definition set_instance (h : nat) pThis w : TRACERS :=
  mkTRACERS (g_pTraceDef w) (<[h := pThis]> (instances w)).

(** pThis->afEvtTypesEnabled[enmEvtType]: the array is indexed without a
    check, an index outside of it reads what lies behind the array. *)
Definition afEvtTypesEnabled_at pThis (enmEvtType_ : nat) io : bool :=
  match afEvtTypesEnabled pThis !! enmEvtType_ with
  | Some f => f
  | None => io_flag_beyond io enmEvtType_
  end.

(** pspEmuTraceGetInstanceForEvtType. *)
Definition pspEmuTraceGetInstanceForEvtType w hTrace (enmEvtType_ : nat) io
  : option (nat * PSPTRACEINT) :=
  match trace_instance w hTrace with
  | Some (h, pThis) =>
      if afEvtTypesEnabled_at pThis enmEvtType_ io then Some (h, pThis) else None
  | None => None
  end.

Definition set_afEvtTypesEnabled (v : list bool) pThis : PSPTRACEINT :=
  mkPSPTRACEINT (uTraceEvtIdNext pThis) (fFlags pThis) v (cbEvtAlloc pThis)
    (cTraceEvtsMax pThis) (cTraceEvts pThis) (papTraceEvts pThis).

(** pspEmuTraceEvtTypeConfigure: status and instance. *)
Fixpoint pspEmuTraceEvtTypeConfigure pThis (paEvtTypes : list nat) (fEnable : bool)
  : Z * PSPTRACEINT :=
  match paEvtTypes with
  | [] => (0, pThis)
  | enmEvtType_ :: paEvtTypes' =>
      if (enmEvtType_ <? PSPTRACEEVTTYPE_LAST)%nat then
        pspEmuTraceEvtTypeConfigure
          (set_afEvtTypesEnabled (<[enmEvtType_ := true]> (afEvtTypesEnabled pThis)) pThis)
          paEvtTypes' fEnable
      else (-1, pThis)
  end.

Definition set_cTraceEvtsMax (v : Z) pThis : PSPTRACEINT :=
  mkPSPTRACEINT (uTraceEvtIdNext pThis) (fFlags pThis) (afEvtTypesEnabled pThis)
    (cbEvtAlloc pThis) v (cTraceEvts pThis) (papTraceEvts pThis).

Definition set_idTraceEvt (v : Z) pEvt : PSPTRACEEVT :=
  mkPSPTRACEEVT v (enmEvtType pEvt) (enmContent pEvt) (au32CoreRegs_PC pEvt)
    (cbAlloc pEvt) (abContent pEvt).

(** pspEmuTraceEvtLink: status and instance. *)
Definition pspEmuTraceEvtLink pThis pEvt io : Z * PSPTRACEINT :=
  let '(rc, pThis) :=
    if cTraceEvts pThis =? cTraceEvtsMax pThis then
      (* Grow the array. *)
      if io_realloc io
      then (0, set_cTraceEvtsMax (u64 (cTraceEvtsMax pThis + _4K)) pThis)
      else (-1, pThis)
    else (0, pThis) in
  if rc =? 0 then
    (rc,
     mkPSPTRACEINT (u64 (uTraceEvtIdNext pThis + 1)) (fFlags pThis) (afEvtTypesEnabled pThis)
       (u64 (cbEvtAlloc pThis + u64 (sizeof_PSPTRACEEVT + cbAlloc pEvt)))
       (cTraceEvtsMax pThis) (u64 (cTraceEvts pThis + 1))
       (<[cTraceEvts pThis := set_idTraceEvt (uTraceEvtIdNext pThis) pEvt]>
          (papTraceEvts pThis)))
  else (rc, pThis).

(** pspEmuTraceEvtCreateAndLink: status, instance, and the slot of the
    event that was linked, which stands for [*ppEvt]. *)
Definition pspEmuTraceEvtCreateAndLink pThis (enmEvtType_ : nat)
    (enmContent_ : PSPTRACEEVTCONTENTTYPE) (cbAlloc_ : Z) io
  : Z * PSPTRACEINT * option Z :=
  if io_calloc io then
    let pEvt := mkPSPTRACEEVT 0 enmEvtType_ enmContent_ 0 cbAlloc_ ContentZero in
    (* Gather the PSP core context. *)
    let '(rc, pEvt) :=
      if nonzero (Z.land (fFlags pThis) PSPEMU_TRACE_F_FULL_CORE_CTX) then (0, pEvt)
      else
        (io_query_rc io,
         mkPSPTRACEEVT 0 enmEvtType_ enmContent_ (io_query_pc io) cbAlloc_ ContentZero) in
    if rc =? 0 then
      let '(rc, pThis') := pspEmuTraceEvtLink pThis pEvt io in
      if rc =? 0 then (0, pThis', Some (cTraceEvts pThis)) else (rc, pThis', None)
    else (rc, pThis, None)
  else (-1, pThis, None).

(** A store through the event pointer that pspEmuTraceEvtCreateAndLink
    handed back: the event is the one the array points to. *)
Definition set_abContent (slot : Z) (c : evt_content) pThis : PSPTRACEINT :=
  mkPSPTRACEINT (uTraceEvtIdNext pThis) (fFlags pThis) (afEvtTypesEnabled pThis)
    (cbEvtAlloc pThis) (cTraceEvtsMax pThis) (cTraceEvts pThis)
    (alter (fun pEvt => mkPSPTRACEEVT (idTraceEvt pEvt) (enmEvtType pEvt) (enmContent pEvt)
                          (au32CoreRegs_PC pEvt) (cbAlloc pEvt) c)
       slot (papTraceEvts pThis)).

(** The end of the add functions: the content is filled in when the event
    was linked. *)
Definition trace_fill (h : nat) (r : Z * PSPTRACEINT * option Z) (c : evt_content) w
  : Z * TRACERS :=
  match r with
  | (rc, pThis, Some slot) => (rc, set_instance h (set_abContent slot c pThis) w)
  | (rc, pThis, None) => (rc, set_instance h pThis w)
  end.

(** pspEmuTraceEvtAddDevReadWriteWorker.  [pszDevId] is the identifier
    without its terminator. *)
Definition pspEmuTraceEvtAddDevReadWriteWorker w hTrace (enmEvtType_ : nat)
    (pszDevId : list byte) (uAddr : Z) (pvData : list byte) (cbXfer : Z) (fRead : bool) io
  : Z * TRACERS :=
  match pspEmuTraceGetInstanceForEvtType w hTrace enmEvtType_ io with
  | Some (h, pThis) =>
      let cchDevId := u64 (Z.of_nat (length pszDevId) + 1) in (* Include terminator *)
      let cbAlloc_ := u64 (sizeof_PSPTRACEEVTDEVXFER + cbXfer + cchDevId) in
      trace_fill h
        (pspEmuTraceEvtCreateAndLink pThis enmEvtType_ PSPTRACEEVTCONTENTTYPE_DEV_XFER
           cbAlloc_ io)
        (ContentDevXfer uAddr cbXfer fRead (take (Z.to_nat cbXfer) pvData)
           (pszDevId ++ [Byte.x00])) w
  | None => (0, w)
  end.

(** PSPEmuTraceCreate: status, tracers and the new handle.  The handle is
    one that no live tracer has. *)
Definition PSPEmuTraceCreate w (fFlags_ : Z) io : Z * TRACERS * option nat :=
  if io_calloc io then
    let h := fresh (dom (instances w)) in
    (0,
     set_instance h
       (mkPSPTRACEINT 0 fFlags_ (replicate PSPTRACEEVTTYPE_LAST false) 0 0 0 ∅) w,
     Some h)
  else (-1, w, None).

(** PSPEmuTraceDestroy *)
Definition PSPEmuTraceDestroy w (h : nat) : TRACERS :=
  mkTRACERS
    (* Unset as default. *)
    (if bool_decide (g_pTraceDef w = Some h) then None else g_pTraceDef w)
    (delete h (instances w)).

Definition PSPEmuTraceSetDefault w hTrace : Z * TRACERS :=
  (0, mkTRACERS hTrace (instances w)).

Definition PSPEmuTraceEvtEnable w hTrace (paEvtTypes : list nat) : Z * TRACERS :=
  match trace_instance w hTrace with
  | Some (h, pThis) =>
      let '(rc, pThis) := pspEmuTraceEvtTypeConfigure pThis paEvtTypes true in
      (rc, set_instance h pThis w)
  | None => (0, w)
  end.

Definition PSPEmuTraceEvtDisable w hTrace (paEvtTypes : list nat) : Z * TRACERS :=
  match trace_instance w hTrace with
  | Some (h, pThis) =>
      let '(rc, pThis) := pspEmuTraceEvtTypeConfigure pThis paEvtTypes false in
      (rc, set_instance h pThis w)
  | None => (0, w)
  end.

Definition PSPEmuTraceDumpToFile w hTrace (pszFilename : list byte) : Z := -1.

(** PSPEmuTraceEvtAddStringV on the text [sz] that the format and its
    arguments expand to: [vsnprintf] returns its length and leaves at most
    4095 bytes of it and a terminator in [szTmp].  (For a text of 4096
    bytes or more the C code copies from beyond [szTmp]; here the copy ends
    with the buffer.) *)
Definition PSPEmuTraceEvtAddStringV w hTrace (enmEvtType_ : nat) (sz : list byte) io
  : Z * TRACERS :=
  match pspEmuTraceGetInstanceForEvtType w hTrace enmEvtType_ io with
  | Some (h, pThis) =>
      let szTmp := take 4095 sz ++ [Byte.x00] in
      let rcStr := Z.of_nat (length sz) in
      if rcStr >? 0 then
        let cbAlloc_ := rcStr + 1 in (* Include terminator. *)
        trace_fill h
          (pspEmuTraceEvtCreateAndLink pThis enmEvtType_ PSPTRACEEVTCONTENTTYPE_STRING
             cbAlloc_ io)
          (ContentString (take (Z.to_nat cbAlloc_) szTmp)) w
      else (-1, w)
  | None => (0, w)
  end.

Definition PSPEmuTraceEvtAddString w hTrace (enmEvtType_ : nat) (sz : list byte) io
  : Z * TRACERS :=
  PSPEmuTraceEvtAddStringV w hTrace enmEvtType_ sz io.

Definition PSPEmuTraceEvtAddXfer w hTrace (enmEvtType_ : nat) (uAddrSrc uAddrDst : Z)
    (pvBuf : list byte) (cbXfer : Z) io : Z * TRACERS :=
  match pspEmuTraceGetInstanceForEvtType w hTrace enmEvtType_ io with
  | Some (h, pThis) =>
      let cbAlloc_ := u64 (sizeof_PSPTRACEEVTXFER + cbXfer) in
      trace_fill h
        (pspEmuTraceEvtCreateAndLink pThis enmEvtType_ PSPTRACEEVTCONTENTTYPE_XFER
           cbAlloc_ io)
        (ContentXfer uAddrSrc uAddrDst cbXfer (take (Z.to_nat cbXfer) pvBuf)) w
  | None => (0, w)
  end.

Definition PSPEmuTraceEvtAddDevRead w hTrace (enmEvtType_ : nat) (pszDevId : list byte)
    (uAddr : Z) (pvData : list byte) (cbRead : Z) io : Z * TRACERS :=
  pspEmuTraceEvtAddDevReadWriteWorker w hTrace enmEvtType_ pszDevId uAddr pvData cbRead true io.

Definition PSPEmuTraceEvtAddDevWrite w hTrace (enmEvtType_ : nat) (pszDevId : list byte)
    (uAddr : Z) (pvData : list byte) (cbWrite : Z) io : Z * TRACERS :=
  pspEmuTraceEvtAddDevReadWriteWorker w hTrace enmEvtType_ pszDevId uAddr pvData cbWrite false io.

End Tracer.

(** A header for the tracer with the eight event types that
    pspEmuTraceGetEvtTypeStr names, for the closed examples. *)
Definition trace_ref_hdr : TraceHdr :=
  {| PSPTRACEEVTTYPE_LAST := 8;
     PSPEMU_TRACE_F_FULL_CORE_CTX := 1;
     sizeof_PSPTRACEEVT := 112;
     sizeof_PSPTRACEEVTXFER := 32;
     sizeof_PSPTRACEEVTDEVXFER := 40 |}.

(** * Terms of the properties

    What the properties below speak of: the effect of a memcpy on the
    storage buffer, the calls recorded in a trace, the progress of the drain
    loop, the states the guest can reach, the bytes of an address space and
    of the windows of a request, a message submitted in parts. *)

(** PTRDIFF_MAX: no C object, hence no transfer buffer, is larger. *)
Definition PTRDIFF_MAX : Z := 2 ^ 63 - 1.

Section LsbTerms.
Context {Ext : Type}.
Implicit Types (pThis : CCPCORE Ext).

(** What a memcpy of [n] bytes out of the buffer at offset [a] yields. *)
Definition lsb_memcpy_out pThis (a n : Z) (pvDst : list byte) : Prop :=
  length pvDst = Z.to_nat n /\
  forall i : nat, (i < Z.to_nat n)%nat -> pvDst !! i = Lsb pThis !! (Z.to_nat a + i)%nat.

(** What a memcpy of [n] bytes of [pvSrc] into the buffer at offset [a]
    leaves: the bytes copied, every other byte and every other field as
    before. *)
Definition lsb_memcpy_in pThis (a n : Z) (pvSrc : list byte) (pThis' : CCPCORE Ext) : Prop :=
  length (Lsb pThis') = length (Lsb pThis) /\
  (forall i : nat, (Z.to_nat a <= i < Z.to_nat a + Z.to_nat n)%nat ->
     Lsb pThis' !! i = pvSrc !! (i - Z.to_nat a)%nat) /\
  (forall i : nat, ~ (Z.to_nat a <= i < Z.to_nat a + Z.to_nat n)%nat ->
     Lsb pThis' !! i = Lsb pThis !! i) /\
  pOsslShaCtx pThis' = pOsslShaCtx pThis /\ ExtCtx pThis' = ExtCtx pThis /\
  cbWrittenLast pThis' = cbWrittenLast pThis /\ hIoMgr pThis' = hIoMgr pThis.

End LsbTerms.

(** The calls of [pfnIrqSet] and of the queue executor in a trace. *)
Fixpoint irq_calls (t : list event) : list (Z * Z * bool) :=
  match t with
  | [] => []
  | EvIrqSet idPrio idDev fAssert :: t' => (idPrio, idDev, fAssert) :: irq_calls t'
  | _ :: t' => irq_calls t'
  end.

Fixpoint run_calls (t : list event) : list nat :=
  match t with
  | [] => []
  | EvQueueRunMaybe uQueue :: t' => uQueue :: run_calls t'
  | _ :: t' => run_calls t'
  end.

Section ExecutorTerms.
Context `{hdr : CcpHdr} {Ext : Type} `{env : !CcpEnv Ext}.
Implicit Types (pThis : PSPDEVCCP Ext) (pQueue : CCPQUEUE) (uQueue : nat).

(** What the drain loop leaves of the registers of its queue: everything
    but the status, and the interrupt status up to COMPLETION and ERROR. *)
Definition drain_frame (q q' : CCPQUEUE) : Prop :=
  u32RegCtrl q' = u32RegCtrl q /\ u32RegReqTail q' = u32RegReqTail q /\
  u32RegReqHead q' = u32RegReqHead q /\ u32RegIen q' = u32RegIen q /\
  fEnabled q' = fEnabled q /\
  exists x, u32RegIsts q' = Z.lor (u32RegIsts q) x /\
            Z.land x (Z.lor CCP_V5_Q_REG_ISTS_COMPLETION CCP_V5_Q_REG_ISTS_ERROR) = x.

(** The drain loop has reached [pThis'] and the descriptor at [h'] from
    [pThis] and [h] through [n] iterations that went on. *)
Inductive drain_reaches uQueue (tail : Z)
  : nat -> PSPDEVCCP Ext -> Z -> PSPDEVCCP Ext -> Z -> Prop :=
  | drain_reaches_here pThis h : drain_reaches uQueue tail 0 pThis h pThis h
  | drain_reaches_next n pThis h pThis1 h1 pThis' h' :
      tail <> h ->
      queue_drain_step pThis uQueue h = inl (pThis1, h1) ->
      drain_reaches uQueue tail n pThis1 h1 pThis' h' ->
      drain_reaches uQueue tail (S n) pThis h pThis' h'.

(** The device states the guest can bring about: the initialised device and
    what MMIO accesses to the queue window make of it. *)
Inductive reachable : PSPDEVCCP Ext -> Prop :=
  | reachable_init pThis :
      length (aQueues pThis) = 2%nat -> Trace pThis = [] ->
      reachable (pspDevCcpInit pThis)
  | reachable_read fuel pThis offMmio cbRead pvDst pvDst' pThis' :
      reachable pThis ->
      pspDevCcpMmioRead fuel pThis offMmio cbRead pvDst = Some (pvDst', pThis') ->
      reachable pThis'
  | reachable_write fuel pThis offMmio cbWrite pvVal pThis' :
      reachable pThis ->
      pspDevCcpMmioWrite fuel pThis offMmio cbWrite pvVal = Some pThis' ->
      reachable pThis'.

(** Something is pending on some queue. *)
Definition irq_pending pThis : Prop :=
  exists q, q ∈ aQueues pThis /\ Z.land (u32RegIen q) (u32RegIsts q) <> 0.



End ExecutorTerms.

(** The byte an address of an address space holds, the cell of the space an
    address selects (a PSP-local address is cut to 32 bits) and a window of
    bytes. *)
Definition xfer_byte {Ext} (fn : XFERFN) (pThis : CCPCORE Ext) (CcpAddr : Z) : byte :=
  match fn with
  | XferMemSys => Byte.x00
  | XferMemLsb => default Byte.x00 (Lsb pThis !! Z.to_nat CcpAddr)
  | XferMemLocal => default Byte.x00 (hIoMgr pThis !! u32 CcpAddr)
  end.

Definition xfer_cell (fn : XFERFN) (CcpAddr : Z) : Z :=
  match fn with
  | XferMemLocal => u32 CcpAddr
  | _ => CcpAddr
  end.

Definition xfer_peek {Ext} (fn : XFERFN) (pThis : CCPCORE Ext) (CcpAddr cb : Z) : list byte :=
  (fun i => xfer_byte fn pThis (CcpAddr + i)) <$> seqZ 0 cb.

Definition byte_at (l : list byte) (i : Z) : byte := default Byte.x00 (l !! Z.to_nat i).

(** Projections of the transfer context and the device, reduced alone. *)
Tactic Notation "ctx_simpl" :=
  cbn [pfnRead pfnWrite CcpAddrSrc cbReadLeft CcpAddrDst cbWriteLeft fWriteRev
       Lsb pOsslShaCtx ExtCtx cbWrittenLast hIoMgr
       md_type md_data
       set_cbWrittenLast set_Lsb set_pOsslShaCtx set_hIoMgr set_CcpAddrDst].
Tactic Notation "ctx_simpl" "in" hyp(H) :=
  cbn [pfnRead pfnWrite CcpAddrSrc cbReadLeft CcpAddrDst cbWriteLeft fWriteRev
       Lsb pOsslShaCtx ExtCtx cbWrittenLast hIoMgr
       md_type md_data
       set_cbWrittenLast set_Lsb set_pOsslShaCtx set_hIoMgr set_CcpAddrDst] in H.

Section TransferTerms.
Context `{hdr : CcpHdr} {Ext : Type}.
Implicit Types (pThis : CCPCORE Ext) (pCtx : CCPXFERCTX) (pReq : CCP5REQ).

(** What a write through a callback leaves: the bytes written, and every
    other cell of every address space as it was. *)
Definition xfer_written fn pThis (a n : Z) (data : list byte) (pThis' : CCPCORE Ext) : Prop :=
  (forall i, 0 <= i < n -> xfer_byte fn pThis' (a + i) = byte_at data i) /\
  (forall fn' a',
     0 <= a' ->
     fn' <> fn \/ (forall i, 0 <= i < n -> xfer_cell fn a' <> xfer_cell fn (a + i)) ->
     xfer_byte fn' pThis' a' = xfer_byte fn' pThis a') /\
  length (Lsb pThis') = length (Lsb pThis) /\
  pOsslShaCtx pThis' = pOsslShaCtx pThis /\ ExtCtx pThis' = ExtCtx pThis.

(** Requests as they are decoded from a descriptor: every field within
    its width. *)
Definition req_wf pReq : Prop :=
  0 <= cbSrc pReq < 2 ^ 32 /\
  0 <= u32AddrSrcLow pReq < 2 ^ 32 /\ 0 <= u16AddrSrcHigh pReq < 2 ^ 16 /\
  0 <= u32AddrDstLow pReq < 2 ^ 32 /\ 0 <= u16AddrDstHigh pReq < 2 ^ 16 /\
  0 <= u32AddrKeyLow pReq < 2 ^ 32 /\ 0 <= u16AddrKeyHigh pReq < 2 ^ 16.

Definition req_src_addr pReq : Z :=
  CCP_ADDR_CREATE_FROM_HI_LO (u16AddrSrcHigh pReq) (u32AddrSrcLow pReq).
Definition req_dst_addr pReq : Z :=
  CCP_ADDR_CREATE_FROM_HI_LO (u16AddrDstHigh pReq) (u32AddrDstLow pReq).
Definition req_src_fn pReq : option XFERFN :=
  xfer_fn_of_mem_type (CCP_V5_MEM_TYPE_GET (u16SrcMemType pReq)).
Definition req_dst_fn pReq : option XFERFN :=
  xfer_fn_of_mem_type (CCP_V5_MEM_TYPE_GET (u16DstMemType pReq)).

(** The source window of a request and the first [cb] bytes of its
    destination window, as the device holds them. *)
Definition req_src_window pThis pReq : list byte :=
  match req_src_fn pReq with
  | Some fn => xfer_peek fn pThis (req_src_addr pReq) (cbSrc pReq)
  | None => []
  end.

Definition req_dst_window pThis pReq (cb : Z) : list byte :=
  match req_dst_fn pReq with
  | Some fn => xfer_peek fn pThis (req_dst_addr pReq) cb
  | None => []
  end.

(** No source byte lies where an earlier chunk of 4096 bytes was written:
    the source byte [i] is read with chunk [i / 4096], after the
    destination bytes below [4096 * (i / 4096)] were written. *)
Definition passthru_no_overlap pReq : Prop :=
  forall fn i j,
    req_src_fn pReq = Some fn -> req_dst_fn pReq = Some fn ->
    0 <= i < cbSrc pReq -> 0 <= j < 4096 * (i / 4096) ->
    xfer_cell fn (req_src_addr pReq + i) <> xfer_cell fn (req_dst_addr pReq + j).

End TransferTerms.

(** A multi-part SHA message as it is submitted: each descriptor with the
    function, init and eom fields of its dword 0. *)
Definition sha_desc : Type := CCP5REQ * Z * bool * bool.

Section ShaTerms.
Context `{hdr : CcpHdr} {Ext : Type} `{env : !CcpEnv Ext}.
Implicit Types (pThis : CCPCORE Ext) (pCtx : CCPXFERCTX) (pReq : CCP5REQ).

(** The descriptors of a message processed one after the other. *)
Fixpoint sha_submit pThis (descs : list sha_desc) : list Z * CCPCORE Ext :=
  match descs with
  | [] => ([], pThis)
  | (pReq, uFunc, fInit, fEom) :: descs' =>
      let '(rc, pThis) := pspDevCcpReqShaProcess pThis pReq uFunc fInit fEom in
      let '(rcs, pThis) := sha_submit pThis descs' in
      (rc :: rcs, pThis)
  end.

(** The SHA type field of a function selects the digest [md]. *)
Definition sha_type_is (uFunc : Z) (md : EVP_MD) : Prop :=
  (u32 (CCP_V5_ENGINE_SHA_TYPE_GET uFunc) = CCP_V5_ENGINE_SHA_TYPE_256 /\ md = EVP_sha256)
  \/ (u32 (CCP_V5_ENGINE_SHA_TYPE_GET uFunc) = CCP_V5_ENGINE_SHA_TYPE_384 /\ md = EVP_sha384).

(** The streaming context of the device holds the bytes [acc] for [md];
    no context stands for no bytes. *)
Definition sha_ctx_holds (md : EVP_MD) (o : option EVP_MD_CTX) (acc : list byte) : Prop :=
  match o with
  | None => acc = []
  | Some ctx => ctx = mkEVP_MD_CTX md acc
  end.

(** The LSB slot a SHA request names in its source memory type. *)
Definition req_lsb_ctx_id pReq : Z := u8 (CCP_V5_MEM_LSB_CTX_ID_GET (u16SrcMemType pReq)).

Definition sd_req (d : sha_desc) : CCP5REQ := d.1.1.1.
Definition sd_uFunc (d : sha_desc) : Z := d.1.1.2.
Definition sd_fInit (d : sha_desc) : bool := d.1.2.
Definition sd_fEom (d : sha_desc) : bool := d.2.

(** The message of a sequence of descriptors: their source windows, in
    order, as the device holds them. *)
Definition sha_message pThis (descs : list sha_desc) : list byte :=
  concat ((fun d => req_src_window pThis (sd_req d)) <$> descs).

End ShaTerms.

Section RsaTerms.
Context `{hdr : CcpHdr} {Ext : Type} `{env : !CcpEnv Ext}.
Implicit Types (pThis : CCPCORE Ext) (pReq : CCP5REQ).

Definition req_key_addr pReq : Z :=
  CCP_ADDR_CREATE_FROM_HI_LO (u16AddrKeyHigh pReq) (u32AddrKeyLow pReq).

(** The address space [pspDevCcpKeyCopyFromReq] reads the key from: it
    knows the memory types LOCAL and SB and no other. *)
Definition req_key_fn pReq : option XFERFN :=
  if CCP_V5_MEM_TYPE_GET (u16KeyMemType pReq) =? CCP_V5_MEM_TYPE_LOCAL then Some XferMemLocal
  else if CCP_V5_MEM_TYPE_GET (u16KeyMemType pReq) =? CCP_V5_MEM_TYPE_SB then Some XferMemLsb
  else None.

End RsaTerms.

(** ** Terms of the further properties *)

Section ExecutorFurtherTerms.
Context `{hdr : CcpHdr} {Ext : Type} `{env : !CcpEnv Ext}.

(** What the switch of pspDevCcpMmioQueueRegWrite stores in the queue it is
    handed. *)
Definition queue_reg_store (offRegQ u32Val : Z) (q : CCPQUEUE) : CCPQUEUE :=
  if offRegQ =? CCP_V5_Q_REG_CTRL then
    set_u32RegCtrl (and_not u32Val CCP_V5_Q_REG_CTRL_RUN)
      (set_fEnabled (nonzero (Z.land u32Val CCP_V5_Q_REG_CTRL_RUN)) q)
  else if offRegQ =? CCP_V5_Q_REG_HEAD then set_u32RegReqHead u32Val q
  else if offRegQ =? CCP_V5_Q_REG_TAIL then set_u32RegReqTail u32Val q
  else if offRegQ =? CCP_V5_Q_REG_STATUS then set_u32RegSts u32Val q
  else if offRegQ =? CCP_V5_Q_REG_IEN then set_u32RegIen u32Val q
  else if offRegQ =? CCP_V5_Q_REG_ISTS then set_u32RegIsts (and_not (u32RegIsts q) u32Val) q
  else q.

(** The descriptors of a ring from [h] to [tail] processed in order, each
    read from the PSP memory the requests before it left: the core after
    [n] descriptors that all succeed, and [None] when the ring does not
    hold [n] descriptors, one of them cannot be read or one of them
    fails. *)
Fixpoint ring_process (n : nat) (tail : Z) (core : CCPCORE Ext) (h : Z)
  : option (CCPCORE Ext) :=
  match n with
  | O => if tail =? h then Some core else None
  | S n' =>
      if tail =? h then None
      else
        match PSPEmuIoMgrPspAddrRead (hIoMgr core) h 32 with
        | Some bytes =>
            match pspDevCcpReqProcess core (CCP5REQ_of_bytes bytes) with
            | (rc, core') =>
                if rc =? 0 then ring_process n' tail core' (u32 (h + 32)) else None
            end
        | None => None
        end
  end.

End ExecutorFurtherTerms.

Section TracerTerms.
Context `{thdr : TraceHdr}.

(** The events of a tracer are numbered as they are stored: the slots in
    use are those below the count, the event in slot [i] has the identifier
    [i], the next identifier is the count, and the capacity is the least
    multiple of 4096 that holds the count. *)
Definition trace_wf (pThis : PSPTRACEINT) : Prop :=
  uTraceEvtIdNext pThis = cTraceEvts pThis /\
  0 <= cTraceEvts pThis <= cTraceEvtsMax pThis /\
  cTraceEvtsMax pThis < cTraceEvts pThis + 4096 /\
  cTraceEvtsMax pThis mod 4096 = 0 /\
  (forall i, is_Some (papTraceEvts pThis !! i) <-> 0 <= i < cTraceEvts pThis) /\
  (forall i pEvt, papTraceEvts pThis !! i = Some pEvt -> idTraceEvt pEvt = i).

(** Every live tracer is numbered that way and has room to grow. *)
Definition tracers_wf (w : TRACERS) : Prop :=
  forall h pThis, instances w !! h = Some pThis ->
    trace_wf pThis /\ cTraceEvtsMax pThis + 4096 < 2 ^ 64.

(** One call of the interface of the tracer. *)
Inductive trace_call (w : TRACERS) : TRACERS -> Prop :=
  | call_create fFlags_ io : trace_call w (PSPEmuTraceCreate w fFlags_ io).1.2
  | call_destroy h : trace_call w (PSPEmuTraceDestroy w h)
  | call_set_default hTrace : trace_call w (PSPEmuTraceSetDefault w hTrace).2
  | call_enable hTrace tys : trace_call w (PSPEmuTraceEvtEnable w hTrace tys).2
  | call_disable hTrace tys : trace_call w (PSPEmuTraceEvtDisable w hTrace tys).2
  | call_add_string hTrace ty sz io :
      trace_call w (PSPEmuTraceEvtAddString w hTrace ty sz io).2
  | call_add_xfer hTrace ty uAddrSrc uAddrDst pvBuf cbXfer io :
      trace_call w (PSPEmuTraceEvtAddXfer w hTrace ty uAddrSrc uAddrDst pvBuf cbXfer io).2
  | call_add_dev_read hTrace ty pszDevId uAddr pvData cb io :
      trace_call w (PSPEmuTraceEvtAddDevRead w hTrace ty pszDevId uAddr pvData cb io).2
  | call_add_dev_write hTrace ty pszDevId uAddr pvData cb io :
      trace_call w (PSPEmuTraceEvtAddDevWrite w hTrace ty pszDevId uAddr pvData cb io).2.

End TracerTerms.

(** * The reference device

    Devices, memories and requests on the CCP v5 register layout with real
    SHA-2 and textbook RSA, on which the properties are evaluated at the
    end. *)

Section ReferenceDevice.
#[local] Existing Instance ccp_v5_hdr.
#[local] Existing Instance ccp_ref_env.

(** PSP memory holding the bytes [l] from [base] on. *)
Definition ram (base : Z) (l : list byte) : gmap Z byte :=
  list_to_map (zip (seqZ base (Z.of_nat (length l))) l).

(** The 32 bytes of a descriptor. *)
Definition req_bytes (r : CCP5REQ) : list byte :=
  Z_to_le 4 (u32Dw0 r) ++ Z_to_le 4 (cbSrc r) ++ Z_to_le 4 (u32AddrSrcLow r)
  ++ Z_to_le 2 (u16AddrSrcHigh r) ++ Z_to_le 2 (u16SrcMemType r)
  ++ Z_to_le 4 (u32AddrDstLow r) ++ Z_to_le 2 (u16AddrDstHigh r)
  ++ Z_to_le 2 (u16DstMemType r)
  ++ Z_to_le 4 (u32AddrKeyLow r) ++ Z_to_le 2 (u16AddrKeyHigh r)
  ++ Z_to_le 2 (u16KeyMemType r).

(** A device after [pspDevCcpInit] over the memory [m], and 32-bit
    accesses to it. *)
Definition core0 (m : gmap Z byte) : CCPCORE unit :=
  mkCCPCORE (replicate 4096 Byte.x00) None tt 0 m.

Definition dev0 (m : gmap Z byte) : PSPDEVCCP unit :=
  pspDevCcpInit (mkPSPDEVCCP (replicate 2 (mkCCPQUEUE 0 0 0 0 0 0 false)) (core0 m) []).

Definition mmio_w32 (offMmio v : Z) (d : option (PSPDEVCCP unit)) : option (PSPDEVCCP unit) :=
  d ≫= fun pThis => pspDevCcpMmioWrite 8 pThis offMmio 4 (Z_to_le 4 v).

Definition mmio_r32 (offMmio : Z) (d : option (PSPDEVCCP unit)) : option (PSPDEVCCP unit) :=
  d ≫= fun pThis => snd <$> pspDevCcpMmioRead 8 pThis offMmio 4 (replicate 4 Byte.x00).

(** A DES3 request, which no engine takes, alone in the ring of queue 0. *)
Definition des3_req : CCP5REQ := mkCCP5REQ (Z.shiftl 2 20) 0 0 0 0 0 0 0 0 0 0.

Definition des3_dev : PSPDEVCCP unit :=
  let d := dev0 (ram 4096 (req_bytes des3_req)) in
  mkPSPDEVCCP [mkCCPQUEUE 0 4128 4096 0 0 0 true; mkCCPQUEUE 2 0 0 0 0 0 false]
    (Core d) [].

(** The device after the run on the failing ring. *)
Definition des3_halted : PSPDEVCCP unit :=
  mkPSPDEVCCP [mkCCPQUEUE 2 4128 4096 1 0 6 true; mkCCPQUEUE 2 0 0 0 0 0 false]
    (Core des3_dev) [EvQueueRunMaybe 0].

(** A queue 0 that is enabled, with the completion interrupt enabled, an
    empty ring and nothing pending: what the guest gets by writing 1 to
    interrupt-enable and RUN to control. *)
Definition idle_dev : PSPDEVCCP unit :=
  mkPSPDEVCCP [mkCCPQUEUE 2 0 0 0 1 12 true; mkCCPQUEUE 2 0 0 0 0 0 false]
    (core0 ∅) [EvQueueRunMaybe 0; EvQueueRunMaybe 0].

(** Queue 0 after the guest enabled the Q_STOP and Q_EMPTY interrupts, ran
    the empty ring, which asserted the line, and disabled every interrupt
    again. *)
Definition masked_dev : PSPDEVCCP unit :=
  mkPSPDEVCCP [mkCCPQUEUE 2 0 0 0 0 12 true; mkCCPQUEUE 2 0 0 0 0 0 false]
    (core0 ∅) [EvQueueRunMaybe 0; EvQueueRunMaybe 0; EvIrqSet 0 21 true].

(** That device after a run of queue 0. *)
Definition masked_run : PSPDEVCCP unit :=
  mkPSPDEVCCP (aQueues masked_dev) (core0 ∅) (Trace masked_dev ++ [EvQueueRunMaybe 0]).

(** The bytes 0, 1, 2, ... (modulo 256). *)
Definition ramp (n : Z) : list byte := (fun i => byte_of_Z (i mod 256)) <$> seqZ 0 n.

(** A copy of 32 bytes of PSP memory into slot 2 of the local storage
    buffer with the 256-bit byte swap. *)
Definition swap_core : CCPCORE unit := core0 (ram 65536 (ramp 32)).
Definition swap_req : CCP5REQ :=
  mkCCP5REQ (Z.lor (Z.shiftl 5 20) (Z.shiftl 2 5)) 32 65536 0 2 64 0 1 0 0 0.

(** A copy without byte swap of 4097 bytes of PSP memory onto themselves,
    one byte further up.  The second chunk, the last byte, is read after the
    first chunk was written over it. *)
Definition overlap_core : CCPCORE unit := core0 (ram 65536 (ramp 4098)).
Definition overlap_req : CCP5REQ :=
  mkCCP5REQ (Z.shiftl 5 20) 4097 65536 0 2 65537 0 2 0 0 0.

(** A copy without byte swap of 4098 bytes of PSP memory onto themselves,
    one byte further down.  The second chunk is read from above what the
    first chunk wrote. *)
Definition down_core : CCPCORE unit := core0 (ram 65536 (ramp 4099)).
Definition down_req : CCP5REQ :=
  mkCCP5REQ (Z.shiftl 5 20) 4098 65537 0 2 65536 0 2 0 0 0.

(** The message abc after an x, in PSP memory, and SHA-256 requests on
    parts of it that name slot 7. *)
Definition abc_core : CCPCORE unit :=
  core0 (ram 256 [Byte.x78; Byte.x61; Byte.x62; Byte.x63]).

Definition sha256_req (src len : Z) (fInit fEom : bool) : sha_desc :=
  (mkCCP5REQ (Z.lor (Z.shiftl 3 20) (Z.shiftl 3 15)) len src 0 (Z.lor 2 (Z.shiftl 7 2))
     0 0 0 0 0 0,
   Z.shiftl 3 10, fInit, fEom).

Definition abc_descs : list sha_desc :=
  [sha256_req 257 2 true false; sha256_req 259 1 false true].

(** The device after a SHA-256 request on the x that was not the end of
    its message. *)
Definition stale_core : CCPCORE unit :=
  (sha_submit abc_core [sha256_req 256 1 true false]).2.

(** An RSA-2048 request on the odd modulus 2^2047 + 1 and the message 2.
    Source and destination are PSP memory; the key address 0x3000 holds the
    exponent 3, and the key memory type is SYSTEM. *)
Definition rsa_modulus : Z := 2 ^ 2047 + 1.

Definition rsa_core : CCPCORE unit :=
  core0 (ram 8192 (Z_to_le 256 rsa_modulus ++ Z_to_le 256 2)
         ∪ ram 12288 (Z_to_le 256 3)
         ∪ ram 16384 (replicate 256 Byte.x00)).

Definition rsa_req : CCP5REQ :=
  mkCCP5REQ (Z.lor (Z.shiftl 4 20) (Z.shiftl 256 5)) 512 8192 0 2 16384 0 2 12288 0 0.

(** The request processed with the little-endian [e] in [abExp]. *)
Definition rsa_run (e : Z) : Z * CCPCORE unit :=
  pspDevCcpReqRsaProcess rsa_core rsa_req 256 false false (Z_to_le 512 e).

(** The same request with the key memory type LOCAL. *)
Definition rsa_req_local : CCP5REQ :=
  mkCCP5REQ (Z.lor (Z.shiftl 4 20) (Z.shiftl 256 5)) 512 8192 0 2 16384 0 2 12288 0 2.


#[local] Existing Instance trace_ref_hdr.

(** Two requests in the ring of queue 0: the byte-swapping copy [swap_req]
    of 32 bytes of PSP memory into slot 2 of the storage buffer, then the
    byte-swapping copy of that slot back to PSP memory at 0x10040.  The
    second reads what the first wrote. *)
Definition back_req : CCP5REQ :=
  mkCCP5REQ (Z.lor (Z.shiftl 5 20) (Z.shiftl 2 5)) 32 64 0 1 65600 0 2 0 0 0.

Definition ring_dev : PSPDEVCCP unit :=
  mkPSPDEVCCP [mkCCPQUEUE 0 4160 4096 0 0 0 true; mkCCPQUEUE 2 0 0 0 0 0 false]
    (core0 (ram 4096 (req_bytes swap_req ++ req_bytes back_req)
            ∪ ram 65536 (ramp 32) ∪ ram 65600 (replicate 32 Byte.x00))) [].

(** The core once both were processed: slot 2 holds the 32 bytes in
    reverse order, and PSP memory at 0x10040 holds them in their order. *)
Definition ring_end : CCPCORE unit :=
  mkCCPCORE (list_inserts 64 (reverse (ramp 32)) (replicate 4096 Byte.x00)) None tt 32
    (ram 4096 (req_bytes swap_req ++ req_bytes back_req)
     ∪ ram 65536 (ramp 32) ∪ ram 65600 (ramp 32)).

(** A ring of queue 0 in memory that is not there. *)
Definition void_dev : PSPDEVCCP unit :=
  mkPSPDEVCCP [mkCCPQUEUE 0 4128 4096 0 0 0 true; mkCCPQUEUE 2 0 0 0 0 0 false]
    (core0 ∅) [].

(** The fresh device after 0x1020 was written to the tail register of
    queue 0, and after RUN was written to its control register. *)
Definition tail_dev : PSPDEVCCP unit :=
  mkPSPDEVCCP [mkCCPQUEUE 2 4128 0 0 0 0 false; mkCCPQUEUE 2 0 0 0 0 0 false] (core0 ∅) [].

Definition run_dev : PSPDEVCCP unit :=
  mkPSPDEVCCP [mkCCPQUEUE 0 0 0 0 0 0 true; mkCCPQUEUE 2 0 0 0 0 0 false] (core0 ∅) [].

(** The byte-swapping copy with SYSTEM memory as its destination. *)
Definition sys_req : CCP5REQ :=
  mkCCP5REQ (Z.lor (Z.shiftl 5 20) (Z.shiftl 2 5)) 32 65536 0 2 64 0 0 0 0 0.

(** A copy of 32 bytes within PSP memory. *)
Definition copy_core : CCPCORE unit := core0 (ram 65536 (ramp 64)).

Definition copy_req : CCP5REQ :=
  mkCCP5REQ (Z.shiftl 5 20) 32 65536 0 2 65568 0 2 0 0 0.

Definition copy_dev : PSPDEVCCP unit := mkPSPDEVCCP (aQueues (dev0 ∅)) copy_core [].

(** A SHA-384 request on abc that ends its message and names the last
    slot. *)
Definition sha384_last_slot : CCP5REQ :=
  mkCCP5REQ (Z.lor (Z.shiftl 3 20) (Z.shiftl 4 15)) 3 257 0 (Z.lor 2 (Z.shiftl 127 2))
    0 0 0 0 0 0.

(** A SHA-256 request on abc that is a whole message, and a copy of slot 7
    to slot 8 with the 256-bit byte swap. *)
Definition abc_req : CCP5REQ := sd_req (sha256_req 257 3 true true).

Definition abc_hashed : CCPCORE unit :=
  (pspDevCcpReqShaProcess abc_core abc_req (Z.shiftl 3 10) true true).2.

Definition slot_copy_req : CCP5REQ :=
  mkCCP5REQ (Z.lor (Z.shiftl 5 20) (Z.shiftl 2 5)) 32 224 0 1 256 0 1 0 0 0.

Definition abc_delivered : CCPCORE unit :=
  (pspDevCcpReqPassthruProcess abc_hashed slot_copy_req 2).2.

(** A context that writes to the start of the storage buffer. *)
Definition lsb_ctx : CCPXFERCTX := mkCCPXFERCTX XferMemLsb XferMemLsb 0 0 0 144 false.

(** A tracer that is the default one, with the event types 3 and 4
    enabled, before and after the text x was added with type 3. *)
Definition tracer0 : PSPTRACEINT :=
  mkPSPTRACEINT 0 0 [false; false; false; true; true; false; false; false] 0 0 0 ∅.

Definition tracers0 : TRACERS := mkTRACERS (Some 0%nat) {[0%nat := tracer0]}.

Definition trace_io_ok : TRACEIO := mkTRACEIO true true 0 256 (fun _ => true).

Definition tracers1 : TRACERS :=
  (PSPEmuTraceEvtAddString tracers0 None 3 [Byte.x78] trace_io_ok).2.

Definition tracer1 : PSPTRACEINT :=
  mkPSPTRACEINT 1 0 [false; false; false; true; true; false; false; false] 114 4096 1
    {[0 := mkPSPTRACEEVT 0 3 PSPTRACEEVTCONTENTTYPE_STRING 256 2
             (ContentString [Byte.x78; Byte.x00])]}.

End ReferenceDevice.

(** * Properties *)

Lemma Z_to_le_length n z : length (Z_to_le n z) = n.
Proof. revert z; induction n as [|n IH]; intros z; simpl; [done | by rewrite IH]. Qed.

Lemma Z_to_be_length n z : length (Z_to_be n z) = n.
Proof. unfold Z_to_be. by rewrite length_reverse, Z_to_le_length. Qed.

(** ** The local storage buffer *)

Section LsbProperties.
Context {Ext : Type}.
Implicit Types (pThis : CCPCORE Ext).

Lemma u64_small x : 0 <= x < 2 ^ 64 -> u64 x = x.
Proof. intros H. unfold u64. by rewrite Z.mod_small. Qed.

Lemma lsb_read_out_of_bounds pThis a n :
  0 <= a < 2 ^ 64 -> 0 <= n <= PTRDIFF_MAX ->
  4096 <= a \/ 4096 < a + n ->
  pspDevCcpXferMemLsbRead pThis a n = None.
Proof.
  unfold pspDevCcpXferMemLsbRead, sizeof_Lsb, PTRDIFF_MAX. intros Ha Hn Hout.
  destruct (a <? 4096) eqn:E1; [|done]. apply Z.ltb_lt in E1.
  rewrite u64_small by lia.
  destruct (a + n <=? 4096) eqn:E2; [|done]. apply Z.leb_le in E2. lia.
Qed.

Lemma lsb_write_out_of_bounds pThis a pvSrc n :
  0 <= a < 2 ^ 64 -> 0 <= n <= PTRDIFF_MAX ->
  4096 <= a \/ 4096 < a + n ->
  pspDevCcpXferMemLsbWrite pThis a pvSrc n = (-1, pThis).
Proof.
  unfold pspDevCcpXferMemLsbWrite, sizeof_Lsb, PTRDIFF_MAX. intros Ha Hn Hout.
  destruct (a <? 4096) eqn:E1; [|done]. apply Z.ltb_lt in E1.
  rewrite u64_small by lia.
  destruct (a + n <=? 4096) eqn:E2; [|done]. apply Z.leb_le in E2. lia.
Qed.

Lemma lsb_read_in_bounds pThis a n :
  0 <= a -> 0 <= n -> a < 4096 -> a + n <= 4096 ->
  pspDevCcpXferMemLsbRead pThis a n
  = Some (take (Z.to_nat n) (drop (Z.to_nat a) (Lsb pThis))).
Proof.
  unfold pspDevCcpXferMemLsbRead, sizeof_Lsb. intros Ha Hn H1 H2.
  rewrite u64_small by lia.
  destruct (a <? 4096) eqn:E1; [|apply Z.ltb_ge in E1; lia].
  destruct (a + n <=? 4096) eqn:E2; [done | apply Z.leb_gt in E2; lia].
Qed.

Lemma lsb_write_in_bounds pThis a pvSrc n :
  0 <= a -> 0 <= n -> a < 4096 -> a + n <= 4096 ->
  pspDevCcpXferMemLsbWrite pThis a pvSrc n
  = (0, set_Lsb (list_inserts (Z.to_nat a) (take (Z.to_nat n) pvSrc) (Lsb pThis)) pThis).
Proof.
  unfold pspDevCcpXferMemLsbWrite, sizeof_Lsb. intros Ha Hn H1 H2.
  rewrite u64_small by lia.
  destruct (a <? 4096) eqn:E1; [|apply Z.ltb_ge in E1; lia].
  destruct (a + n <=? 4096) eqn:E2; [done | apply Z.leb_gt in E2; lia].
Qed.

Lemma lsb_memcpy_out_take pThis a n :
  0 <= a -> 0 <= n -> a + n <= Z.of_nat (length (Lsb pThis)) ->
  lsb_memcpy_out pThis a n (take (Z.to_nat n) (drop (Z.to_nat a) (Lsb pThis))).
Proof.
  intros Ha Hn Hlen. split.
  - rewrite length_take, length_drop. lia.
  - intros i Hi. by rewrite lookup_take_lt, lookup_drop.
Qed.

Lemma lsb_memcpy_in_inserts pThis a n pvSrc :
  0 <= a -> 0 <= n -> a + n <= Z.of_nat (length (Lsb pThis)) ->
  n <= Z.of_nat (length pvSrc) ->
  lsb_memcpy_in pThis a n pvSrc
    (set_Lsb (list_inserts (Z.to_nat a) (take (Z.to_nat n) pvSrc) (Lsb pThis)) pThis).
Proof.
  intros Ha Hn Hlen Hsrc.
  assert (Hk : length (take (Z.to_nat n) pvSrc) = Z.to_nat n)
    by (rewrite length_take; lia).
  repeat split; simpl.
  - apply length_inserts.
  - intros i Hi. rewrite list_lookup_inserts by lia.
    apply lookup_take_lt. lia.
  - intros i Hi. destruct (decide (i < Z.to_nat a)%nat).
    + by apply list_lookup_inserts_lt.
    + apply list_lookup_inserts_ge. lia.
Qed.

(** C4.  A read or write of the local storage buffer at address [a] of
    length [n] returns an error and leaves the buffer as it is when
    [a >= 4096] or [a + n > 4096]; otherwise it succeeds and is a memcpy of
    [n] bytes at offset [a] that leaves every byte outside [a, a+n) (and,
    for a read, every byte) unchanged. *)
Theorem lsb_access_bounds pThis (a n : Z) (pvSrc : list byte) :
  length (Lsb pThis) = 4096%nat ->
  0 <= a < 2 ^ 64 ->
  0 <= n <= PTRDIFF_MAX ->
  n <= Z.of_nat (length pvSrc) ->
  if (4096 <=? a) || (4096 <? a + n)
  then pspDevCcpXferMemLsbRead pThis a n = None
       /\ pspDevCcpXferMemLsbWrite pThis a pvSrc n = (-1, pThis)
  else (exists pvDst, pspDevCcpXferMemLsbRead pThis a n = Some pvDst
                      /\ lsb_memcpy_out pThis a n pvDst)
       /\ (exists pThis', pspDevCcpXferMemLsbWrite pThis a pvSrc n = (0, pThis')
                          /\ lsb_memcpy_in pThis a n pvSrc pThis').
Proof.
  intros Hlen Ha Hn Hsrc.
  destruct (4096 <=? a) eqn:E1; simpl.
  { apply Z.leb_le in E1. split.
    - apply lsb_read_out_of_bounds; auto.
    - apply lsb_write_out_of_bounds; auto. }
  apply Z.leb_gt in E1.
  destruct (4096 <? a + n) eqn:E2.
  { apply Z.ltb_lt in E2. split.
    - apply lsb_read_out_of_bounds; auto.
    - apply lsb_write_out_of_bounds; auto. }
  apply Z.ltb_ge in E2. split.
  - eexists. split; [apply lsb_read_in_bounds; lia |].
    apply lsb_memcpy_out_take; lia.
  - eexists. split; [apply lsb_write_in_bounds; lia |].
    apply lsb_memcpy_in_inserts; lia.
Qed.

End LsbProperties.

(** ** The queue executor and the MMIO front-end *)

Lemma irq_calls_app t1 t2 : irq_calls (t1 ++ t2) = irq_calls t1 ++ irq_calls t2.
Proof. induction t1 as [|[] t1 IH]; simpl; by rewrite ?IH. Qed.


Lemma irq_line_from_app b t1 t2 :
  irq_line_from b (t1 ++ t2) = irq_line_from (irq_line_from b t1) t2.
Proof. revert b; induction t1 as [|[] t1 IH]; intros b; simpl; by rewrite ?IH. Qed.

Lemma irq_line_from_no_calls b t : irq_calls t = [] -> irq_line_from b t = b.
Proof. revert b; induction t as [|[] t IH]; intros b H; simpl in *; auto; discriminate. Qed.

(** Bitwise facts on registers. *)
Lemma lor_has_bits x m : Z.land (Z.lor x m) m = m.
Proof.
  apply Z.bits_inj'. intros n Hn. rewrite Z.land_spec, Z.lor_spec.
  destruct (Z.testbit x n), (Z.testbit m n); reflexivity.
Qed.

Lemma has_bits_lor x m y : Z.land x m = m -> Z.land (Z.lor x y) m = m.
Proof.
  intros H. apply Z.bits_inj'. intros n Hn.
  apply (f_equal (fun z => Z.testbit z n)) in H.
  rewrite Z.land_spec in H. rewrite Z.land_spec, Z.lor_spec.
  destruct (Z.testbit x n), (Z.testbit m n), (Z.testbit y n); simpl in *; congruence.
Qed.

Lemma lor_keeps_other_bits x y m : Z.land y m = 0 -> Z.land (Z.lor x y) m = Z.land x m.
Proof.
  intros H. apply Z.bits_inj'. intros n Hn.
  apply (f_equal (fun z => Z.testbit z n)) in H.
  rewrite Z.land_spec, Z.bits_0 in H. rewrite !Z.land_spec, Z.lor_spec.
  destruct (Z.testbit x n), (Z.testbit m n), (Z.testbit y n); simpl in *; congruence.
Qed.

Lemma submask_disjoint x a m : Z.land x a = x -> Z.land a m = 0 -> Z.land x m = 0.
Proof.
  intros Hx Ha. apply Z.bits_inj'. intros n Hn.
  apply (f_equal (fun z => Z.testbit z n)) in Hx, Ha.
  rewrite Z.land_spec in Hx. rewrite Z.land_spec, Z.bits_0 in Ha.
  rewrite Z.land_spec, Z.bits_0.
  destruct (Z.testbit x n), (Z.testbit m n), (Z.testbit a n); simpl in *; congruence.
Qed.

Lemma submask_lor x y a : Z.land x a = x -> Z.land y a = y -> Z.land (Z.lor x y) a = Z.lor x y.
Proof.
  intros Hx Hy. apply Z.bits_inj'. intros n Hn.
  apply (f_equal (fun z => Z.testbit z n)) in Hx, Hy.
  rewrite Z.land_spec in Hx, Hy. rewrite Z.land_spec, !Z.lor_spec.
  destruct (Z.testbit x n), (Z.testbit y n), (Z.testbit a n); simpl in *; congruence.
Qed.

Lemma submask_l a b : Z.land a (Z.lor a b) = a.
Proof.
  apply Z.bits_inj'. intros n Hn. rewrite Z.land_spec, Z.lor_spec.
  destruct (Z.testbit a n), (Z.testbit b n); reflexivity.
Qed.

Lemma submask_r a b : Z.land b (Z.lor a b) = b.
Proof.
  apply Z.bits_inj'. intros n Hn. rewrite Z.land_spec, Z.lor_spec.
  destruct (Z.testbit a n), (Z.testbit b n); reflexivity.
Qed.

Lemma disjoint_lor_l a b m : Z.land (Z.lor a b) m = 0 -> Z.land a m = 0.
Proof.
  intros H. apply Z.bits_inj'. intros n Hn.
  apply (f_equal (fun z => Z.testbit z n)) in H.
  rewrite Z.land_spec, Z.lor_spec, Z.bits_0 in H. rewrite Z.land_spec, Z.bits_0.
  destruct (Z.testbit a n), (Z.testbit b n), (Z.testbit m n); simpl in *; congruence.
Qed.

Lemma disjoint_lor_r a b m : Z.land (Z.lor a b) m = 0 -> Z.land b m = 0.
Proof. rewrite Z.lor_comm. apply disjoint_lor_l. Qed.

Section ExecutorProperties.
Context `{hdr : CcpHdr} {Ext : Type} `{env : !CcpEnv Ext}.
Implicit Types (pThis : PSPDEVCCP Ext) (pQueue : CCPQUEUE) (uQueue : nat).

Lemma lookup_upd_queue f uQueue pThis :
  aQueues (upd_queue f uQueue pThis) !! uQueue = f <$> aQueues pThis !! uQueue.
Proof. apply list_lookup_alter_eq. Qed.

Lemma lookup_upd_queue_ne f uQueue j pThis :
  uQueue <> j -> aQueues (upd_queue f uQueue pThis) !! j = aQueues pThis !! j.
Proof. apply list_lookup_alter_ne. Qed.

Lemma drain_frame_refl q : drain_frame q q.
Proof.
  repeat split. exists 0. split; [by rewrite Z.lor_0_r | apply Z.land_0_l].
Qed.

Lemma drain_frame_trans q1 q2 q3 : drain_frame q1 q2 -> drain_frame q2 q3 -> drain_frame q1 q3.
Proof.
  intros (? & ? & ? & ? & ? & x & Hx & Hxm) (? & ? & ? & ? & ? & y & Hy & Hym).
  repeat split; try congruence.
  exists (Z.lor x y). split.
  - rewrite Hy, Hx. by rewrite Z.lor_assoc.
  - by apply submask_lor.
Qed.

Lemma drain_frame_success q : drain_frame q (queue_signal_success q).
Proof.
  repeat split. exists CCP_V5_Q_REG_ISTS_COMPLETION. split; [done | apply submask_l].
Qed.

Lemma drain_frame_error q : drain_frame q (queue_signal_error q).
Proof.
  repeat split. exists CCP_V5_Q_REG_ISTS_ERROR. split; [done | apply submask_r].
Qed.

(** One iteration: the queue it works on, the other queues and the trace. *)
Lemma queue_drain_step_next pThis uQueue h pThis' h' :
  queue_drain_step pThis uQueue h = inl (pThis', h') ->
  h' = u32 (h + 32) /\
  aQueues pThis' = alter queue_signal_success uQueue (aQueues pThis) /\
  Trace pThis' = Trace pThis.
Proof.
  unfold queue_drain_step.
  destruct (PSPEmuIoMgrPspAddrRead _ _ _) as [bytes|]; [|discriminate].
  destruct (pspDevCcpReqProcess _ _) as [rc core].
  destruct (rc =? 0); [|discriminate]. intros [= <- <-]. done.
Qed.

Lemma queue_drain_step_stop pThis uQueue h pThis' :
  queue_drain_step pThis uQueue h = inr pThis' ->
  aQueues pThis' = alter queue_signal_error uQueue (aQueues pThis) /\
  exists t, Trace pThis' = Trace pThis ++ t /\ irq_calls t = [] /\ run_calls t = [].
Proof.
  unfold queue_drain_step.
  destruct (PSPEmuIoMgrPspAddrRead _ _ _) as [bytes|].
  - destruct (pspDevCcpReqProcess _ _) as [rc core].
    destruct (rc =? 0); [discriminate|]. intros [= <-]. split; [done|].
    exists []. simpl. by rewrite app_nil_r.
  - intros [= <-]. split; [done|]. by eexists [_].
Qed.

(** The drain loop as a whole. *)
Lemma queue_drain_inv fuel pThis uQueue tail h pThis' h' q :
  queue_drain fuel pThis uQueue tail h = Some (pThis', h') ->
  aQueues pThis !! uQueue = Some q ->
  (exists q', aQueues pThis' !! uQueue = Some q' /\ drain_frame q q' /\
     (h' = tail \/
      (u32RegSts q' = CCP_V5_Q_REG_STATUS_ERROR /\
       Z.land (u32RegIsts q') CCP_V5_Q_REG_ISTS_ERROR = CCP_V5_Q_REG_ISTS_ERROR))) /\
  (forall j, uQueue <> j -> aQueues pThis' !! j = aQueues pThis !! j) /\
  (exists t, Trace pThis' = Trace pThis ++ t /\ irq_calls t = [] /\ run_calls t = []).
Proof.
  revert pThis h q. induction fuel as [|fuel IH]; intros pThis h q; simpl.
  - destruct (tail =? h) eqn:E; [|discriminate]. apply Z.eqb_eq in E.
    intros [= <- <-] Hq. split; [|split].
    + exists q. split; [done|]. split; [apply drain_frame_refl | by left].
    + done.
    + exists []. by rewrite app_nil_r.
  - destruct (tail =? h) eqn:E.
    { apply Z.eqb_eq in E. intros [= <- <-] Hq. split; [|split].
      + exists q. split; [done|]. split; [apply drain_frame_refl | by left].
      + done.
      + exists []. by rewrite app_nil_r. }
    destruct (queue_drain_step pThis uQueue h) as [[pThis1 h1]|pThis1] eqn:Hstep.
    + apply queue_drain_step_next in Hstep as (-> & Hqs & Htr).
      intros Hrun Hq.
      assert (Hq1 : aQueues pThis1 !! uQueue = Some (queue_signal_success q))
        by (by rewrite Hqs, list_lookup_alter_eq, Hq).
      destruct (IH _ _ _ Hrun Hq1) as ((q' & Hq' & Hfr & Hend) & Hoth & t & Ht & Hirq & Hrc).
      split; [|split].
      * exists q'. split; [done|]. split; [|done].
        eapply drain_frame_trans; [apply drain_frame_success | done].
      * intros j Hj. rewrite Hoth by done. rewrite Hqs. by apply list_lookup_alter_ne.
      * exists t. by rewrite Ht, Htr.
    + apply queue_drain_step_stop in Hstep as (Hqs & t & Ht & Hirq & Hrc).
      intros [= <- <-] Hq. split; [|split].
      * exists (queue_signal_error q). rewrite Hqs, list_lookup_alter_eq, Hq.
        split; [done|]. split; [apply drain_frame_error|]. right.
        split; [done|]. apply lor_has_bits.
      * intros j Hj. rewrite Hqs. by apply list_lookup_alter_ne.
      * by exists t.
Qed.

Lemma queue_drain_terminates (k : nat) fuel pThis uQueue tail h :
  0 <= h < 2 ^ 32 -> tail = u32 (h + 32 * Z.of_nat k) -> (k <= fuel)%nat ->
  is_Some (queue_drain fuel pThis uQueue tail h).
Proof.
  revert fuel pThis h. induction k as [|k IH]; intros fuel pThis h Hh Ht Hk.
  - assert (tail = h) as ->.
    { rewrite Ht. unfold u32. rewrite Z.mod_small; lia. }
    destruct fuel; simpl; rewrite Z.eqb_refl; eauto.
  - destruct fuel as [|fuel]; [lia|]. simpl.
    destruct (tail =? h); [eauto|].
    destruct (queue_drain_step pThis uQueue h) as [[pThis1 h1]|pThis1] eqn:Hstep; [|eauto].
    apply queue_drain_step_next in Hstep as (-> & _ & _).
    apply IH; [apply Z.mod_pos_bound; lia | | lia].
    rewrite Ht. unfold u32. rewrite Zplus_mod_idemp_l. f_equal. lia.
Qed.

(** C3.  A run of the queue executor on an enabled queue that has left its
    drain loop (the ring is empty or the status is ERROR) has the HALT bit
    set in the control register and Q_STOP set in the interrupt status; it
    sets Q_EMPTY when head equals tail and leaves that bit as it was
    otherwise; it calls [pfnIrqSet] once, asserting the line of device 0x15,
    when some bit of interrupt-enable AND interrupt-status is set at that
    point, and not at all otherwise.  A ring of whole descriptors is left
    after at most as many iterations as it has descriptors. *)
Theorem queue_run_halts fuel pThis uQueue q :
  aQueues pThis !! uQueue = Some q ->
  fEnabled q = true ->
  Z.land (Z.lor (Z.lor CCP_V5_Q_REG_ISTS_COMPLETION CCP_V5_Q_REG_ISTS_ERROR)
            CCP_V5_Q_REG_ISTS_Q_STOP) CCP_V5_Q_REG_ISTS_Q_EMPTY = 0 ->
  (forall pThis',
     pspDevCcpQueueRunMaybe fuel pThis uQueue = Some pThis' ->
     exists q' t,
       aQueues pThis' !! uQueue = Some q' /\ Trace pThis' = Trace pThis ++ t /\
       (u32RegReqHead q' = u32RegReqTail q' \/ u32RegSts q' = CCP_V5_Q_REG_STATUS_ERROR) /\
       Z.land (u32RegCtrl q') CCP_V5_Q_REG_CTRL_HALT = CCP_V5_Q_REG_CTRL_HALT /\
       Z.land (u32RegIsts q') CCP_V5_Q_REG_ISTS_Q_STOP = CCP_V5_Q_REG_ISTS_Q_STOP /\
       (u32RegReqHead q' = u32RegReqTail q' ->
        Z.land (u32RegIsts q') CCP_V5_Q_REG_ISTS_Q_EMPTY = CCP_V5_Q_REG_ISTS_Q_EMPTY) /\
       (u32RegReqHead q' <> u32RegReqTail q' ->
        Z.land (u32RegIsts q') CCP_V5_Q_REG_ISTS_Q_EMPTY
        = Z.land (u32RegIsts q) CCP_V5_Q_REG_ISTS_Q_EMPTY) /\
       irq_calls t
       = if nonzero (Z.land (u32RegIen q') (u32RegIsts q')) then [(0, 21, true)] else [])
  /\ (forall k : nat,
        0 <= u32RegReqHead q < 2 ^ 32 ->
        u32RegReqTail q = u32 (u32RegReqHead q + 32 * Z.of_nat k) ->
        (k <= fuel)%nat ->
        is_Some (pspDevCcpQueueRunMaybe fuel pThis uQueue)).
Proof.
  intros Hq Hen Hbits. split.
  - intros pThis'. unfold pspDevCcpQueueRunMaybe. rewrite Hq, Hen.
    destruct (queue_drain _ _ _ _ _) as [[pThis2 h]|] eqn:Hdrain; [|discriminate].
    intros [= <-].
    set (q1 := set_u32RegCtrl (and_not (u32RegCtrl q) CCP_V5_Q_REG_CTRL_HALT) q).
    assert (Hq1 : aQueues (queue_run_enter pThis uQueue) !! uQueue = Some q1).
    { unfold queue_run_enter. by rewrite lookup_upd_queue; simpl; rewrite Hq. }
    destruct (queue_drain_inv _ _ _ _ _ _ _ _ Hdrain Hq1)
      as ((q2 & Hq2 & Hfr & Hend) & _ & t & Ht & Hirq & Hrc).
    destruct Hfr as (Hctrl & Htail & Hhead & Hien & Hfen & x & Hx & Hxm).
    set (q3 := queue_halt (u32RegReqTail q) h q2).
    assert (Hq3 : aQueues (upd_queue (queue_halt (u32RegReqTail q) h) uQueue pThis2)
                    !! uQueue = Some q3).
    { by rewrite lookup_upd_queue, Hq2. }
    assert (Htail3 : u32RegReqTail q3 = u32RegReqTail q).
    { unfold q3, queue_halt. destruct (_ =? _); simpl; by rewrite Htail. }
    assert (Hhead3 : u32RegReqHead q3 = h).
    { unfold q3, queue_halt. by destruct (_ =? _). }
    assert (Hsts3 : u32RegSts q3 = u32RegSts q2).
    { unfold q3, queue_halt. by destruct (_ =? _). }
    assert (Hx0 : Z.land x CCP_V5_Q_REG_ISTS_Q_EMPTY = 0).
    { eapply submask_disjoint; [exact Hxm|]. eapply disjoint_lor_l, Hbits. }
    assert (Hs0 : Z.land CCP_V5_Q_REG_ISTS_Q_STOP CCP_V5_Q_REG_ISTS_Q_EMPTY = 0).
    { eapply disjoint_lor_r, Hbits. }
    exists q3.
    unfold queue_irq_maybe. rewrite Hq3.
    exists ((EvQueueRunMaybe uQueue :: t)
            ++ if nonzero (Z.land (u32RegIen q3) (u32RegIsts q3))
               then [EvIrqSet 0 21 true] else []).
    split; [by destruct (nonzero _)|]. split.
    { destruct (nonzero _); simpl; rewrite Ht; simpl;
        rewrite <- ?app_assoc; simpl; by rewrite ?app_nil_r. }
    split.
    { rewrite Hhead3, Htail3, Hsts3. destruct Hend as [->|[-> _]]; auto. }
    split.
    { unfold q3, queue_halt. destruct (_ =? _); simpl; apply lor_has_bits. }
    split.
    { unfold q3, queue_halt. destruct (_ =? _); simpl;
        [apply has_bits_lor|]; apply lor_has_bits. }
    split.
    { rewrite Hhead3, Htail3. intros ->. unfold q3, queue_halt.
      rewrite Z.eqb_refl. simpl. apply lor_has_bits. }
    split.
    { rewrite Hhead3, Htail3. intros Hne. unfold q3, queue_halt.
      destruct (_ =? _) eqn:E; [apply Z.eqb_eq in E; congruence|]. simpl.
      rewrite Hx. simpl.
      rewrite (lor_keeps_other_bits _ _ _ Hs0). by apply lor_keeps_other_bits. }
    rewrite irq_calls_app. simpl. rewrite Hirq.
    by destruct (nonzero _).
  - intros k Hh Ht Hk. unfold pspDevCcpQueueRunMaybe. rewrite Hq, Hen.
    destruct (queue_drain_terminates k fuel (queue_run_enter pThis uQueue) uQueue
                (u32RegReqTail q) (u32RegReqHead q) Hh Ht Hk) as [[pThis2 h] ->].
    eauto.
Qed.

Lemma queue_drain_reaches uQueue tail n pThis h pThis' h' fuel :
  drain_reaches uQueue tail n pThis h pThis' h' ->
  queue_drain (n + fuel) pThis uQueue tail h = queue_drain fuel pThis' uQueue tail h'.
Proof.
  induction 1 as [|n pThis h pThis1 h1 pThis' h' Hne Hstep _ IH]; [done|].
  simpl. destruct (tail =? h) eqn:E; [apply Z.eqb_eq in E; congruence|].
  by rewrite Hstep.
Qed.

Lemma drain_reaches_lookup uQueue tail n pThis h pThis' h' q :
  drain_reaches uQueue tail n pThis h pThis' h' ->
  aQueues pThis !! uQueue = Some q ->
  exists q', aQueues pThis' !! uQueue = Some q'.
Proof.
  intros H. revert q. induction H as [|n pThis h pThis1 h1 pThis' h' Hne Hstep _ IH];
    intros q Hq; [eauto|].
  apply queue_drain_step_next in Hstep as (_ & Hqs & _).
  eapply IH. by rewrite Hqs, list_lookup_alter_eq, Hq.
Qed.

(** C1, as the code has it.  When, in a drain of an enabled queue, the
    execution of the descriptor at [h] fails, the run ends there: the status
    register is ERROR, the ERROR bit is set in the interrupt status, no
    further request is processed (the device is as the failing request left
    it) and the head register holds [h], the address of the failing
    descriptor. *)
Theorem queue_run_failure fuel pThis uQueue q n pThisAt h bytes rc core' :
  aQueues pThis !! uQueue = Some q ->
  fEnabled q = true ->
  drain_reaches uQueue (u32RegReqTail q) n
    (queue_run_enter pThis uQueue) (u32RegReqHead q) pThisAt h ->
  u32RegReqTail q <> h ->
  PSPEmuIoMgrPspAddrRead (hIoMgr (Core pThisAt)) h sizeof_Req = Some bytes ->
  pspDevCcpReqProcess (Core pThisAt) (CCP5REQ_of_bytes bytes) = (rc, core') ->
  rc <> 0 ->
  (n < fuel)%nat ->
  exists pThis' q',
    pspDevCcpQueueRunMaybe fuel pThis uQueue = Some pThis' /\
    aQueues pThis' !! uQueue = Some q' /\
    u32RegSts q' = CCP_V5_Q_REG_STATUS_ERROR /\
    Z.land (u32RegIsts q') CCP_V5_Q_REG_ISTS_ERROR = CCP_V5_Q_REG_ISTS_ERROR /\
    Core pThis' = core' /\
    u32RegReqHead q' = h.
Proof.
  intros Hq Hen Hreach Hne Hread Hproc Hrc Hfuel.
  assert (Hq1 : exists q1, aQueues (queue_run_enter pThis uQueue) !! uQueue = Some q1).
  { unfold queue_run_enter. rewrite lookup_upd_queue. simpl. rewrite Hq. eauto. }
  destruct Hq1 as [q1 Hq1].
  destruct (drain_reaches_lookup _ _ _ _ _ _ _ _ Hreach Hq1) as [qAt HqAt].
  unfold pspDevCcpQueueRunMaybe. rewrite Hq, Hen.
  replace fuel with (n + S (fuel - S n))%nat by lia.
  rewrite (queue_drain_reaches _ _ _ _ _ _ _ _ Hreach).
  simpl. destruct (u32RegReqTail q =? h) eqn:E; [apply Z.eqb_eq in E; congruence|].
  unfold queue_drain_step. rewrite Hread, Hproc.
  destruct (rc =? 0) eqn:E0; [apply Z.eqb_eq in E0; congruence|].
  eexists _, (queue_halt (u32RegReqTail q) h (queue_signal_error qAt)).
  split; [reflexivity|].
  unfold queue_irq_maybe. rewrite !lookup_upd_queue. simpl. rewrite HqAt. simpl.
  unfold queue_halt. rewrite E. simpl.
  split; [destruct (nonzero _); simpl; by rewrite !list_lookup_alter_eq, HqAt|].
  split; [done|]. split; [apply has_bits_lor, lor_has_bits|].
  split; [by destruct (nonzero _)|done].
Qed.

Lemma queue_irq_maybe_cases uQueue pThis :
  queue_irq_maybe uQueue pThis = pThis
  \/ queue_irq_maybe uQueue pThis = emit (EvIrqSet 0 21 true) pThis.
Proof.
  unfold queue_irq_maybe. destruct (aQueues pThis !! uQueue); [|by left].
  destruct (nonzero _); [by right | by left].
Qed.



(** The write to the interrupt status register: the bits cleared, the line
    reset when nothing is pending. *)
Lemma queue_ists_write_spec u32Val uQueue pThis q :
  aQueues pThis !! uQueue = Some q ->
  let q' := set_u32RegIsts (and_not (u32RegIsts q) u32Val) q in
  aQueues (queue_ists_write u32Val uQueue pThis) = <[uQueue := q']> (aQueues pThis) /\
  Core (queue_ists_write u32Val uQueue pThis) = Core pThis /\
  Trace (queue_ists_write u32Val uQueue pThis)
  = Trace pThis ++ (if Z.land (u32RegIen q') (u32RegIsts q') =? 0
                    then [EvIrqSet 0 21 false] else []).
Proof.
  intros Hq q'. unfold queue_ists_write. rewrite lookup_upd_queue, Hq. simpl.
  fold q'. unfold nonzero. rewrite negb_involutive.
  assert (Halter : alter (fun q => set_u32RegIsts (and_not (u32RegIsts q) u32Val) q)
                     uQueue (aQueues pThis) = <[uQueue := q']> (aQueues pThis)).
  { apply list_eq. intros j. destruct (decide (uQueue = j)) as [<-|Hne].
    - rewrite list_lookup_alter_eq, Hq. simpl.
      symmetry. apply list_lookup_insert_eq. by eapply lookup_lt_Some.
    - by rewrite list_lookup_alter_ne, list_lookup_insert_ne. }
  unfold emit, upd_queue. cbn [aQueues Core Trace]. rewrite Halter.
  cbn [u32RegIen u32RegIsts q' set_u32RegIsts].
  destruct (Z.land _ _ =? 0); cbn [aQueues Core Trace]; by rewrite ?app_nil_r.
Qed.


Lemma queue_reg_write_lookup offRegQ u32Val uQueue pThis q :
  aQueues pThis !! uQueue = Some q ->
  exists q', aQueues (queue_reg_write offRegQ u32Val uQueue pThis) !! uQueue = Some q'.
Proof.
  intros Hq. unfold queue_reg_write.
  do 5 (destruct (offRegQ =? _);
        [rewrite lookup_upd_queue, Hq; simpl; eauto|]).
  destruct (offRegQ =? _); [|eauto].
  destruct (queue_ists_write_spec u32Val uQueue pThis q Hq) as (-> & _).
  rewrite list_lookup_insert_eq by (by eapply lookup_lt_Some). eauto.
Qed.

Lemma q_reg_ists_distinct :
  CCP_V5_Q_REG_ISTS <> CCP_V5_Q_REG_CTRL /\ CCP_V5_Q_REG_ISTS <> CCP_V5_Q_REG_HEAD /\
  CCP_V5_Q_REG_ISTS <> CCP_V5_Q_REG_TAIL /\ CCP_V5_Q_REG_ISTS <> CCP_V5_Q_REG_STATUS /\
  CCP_V5_Q_REG_ISTS <> CCP_V5_Q_REG_IEN.
Proof.
  pose proof q_reg_labels as H.
  rewrite !NoDup_cons, !not_elem_of_cons in H. intuition congruence.
Qed.

Lemma queue_reg_write_ists u32Val uQueue pThis :
  queue_reg_write CCP_V5_Q_REG_ISTS u32Val uQueue pThis
  = queue_ists_write u32Val uQueue pThis.
Proof.
  destruct q_reg_ists_distinct as (H1 & H2 & H3 & H4 & H5).
  unfold queue_reg_write.
  repeat match goal with
         | |- context [?a =? ?b] =>
             destruct (Z.eqb_spec a b); [congruence|]
         end.
  congruence.
Qed.




(** C9, as the code has it.  An MMIO access to the queue window of a width
    other than 32 bits is logged and changes neither the queues nor the rest
    of the device; a write is ignored and a read leaves the destination
    buffer of the caller as it is (it does not store a zero). *)
Theorem mmio_unsupported_width fuel pThis offMmio cb (pv : list byte) :
  cb <> 4 ->
  (exists pThis',
     pspDevCcpMmioRead fuel pThis offMmio cb pv = Some (pv, pThis') /\
     aQueues pThis' = aQueues pThis /\ Core pThis' = Core pThis /\
     Trace pThis' = Trace pThis ++ [EvPrintf (MsgUnsupportedAccessWidth offMmio cb)])
  /\ (exists pThis',
        pspDevCcpMmioWrite fuel pThis offMmio cb pv = Some pThis' /\
        aQueues pThis' = aQueues pThis /\ Core pThis' = Core pThis /\
        Trace pThis' = Trace pThis ++ [EvPrintf (MsgUnsupportedAccessWidth offMmio cb)]).
Proof.
  intros Hcb. unfold pspDevCcpMmioRead, pspDevCcpMmioWrite.
  destruct (Z.eqb_spec cb 4) as [|_]; [done|]. simpl. eauto 10.
Qed.

(** C10, as the code has it.  A write of [v] to the interrupt status
    register of a queue whose interrupt-enable is 0 or that is not enabled
    clears exactly the bits set in [v] in that register, leaves its other
    bits, the other registers, the other queue and the rest of the device
    as they are, and deasserts the interrupt line when interrupt-enable AND
    interrupt-status is zero afterwards. *)
Theorem ists_write_clears fuel pThis uQueue q v :
  aQueues pThis !! uQueue = Some q ->
  u32RegIen q = 0 \/ fEnabled q = false ->
  let q' := set_u32RegIsts (and_not (u32RegIsts q) v) q in
  exists pThis' t,
    pspDevCcpMmioQueueRegWrite fuel pThis uQueue CCP_V5_Q_REG_ISTS v = Some pThis' /\
    aQueues pThis' = <[uQueue := q']> (aQueues pThis) /\
    Core pThis' = Core pThis /\
    Trace pThis' = Trace pThis ++ t /\
    (forall n, 0 <= n ->
       Z.testbit (u32RegIsts q') n = Z.testbit (u32RegIsts q) n && negb (Z.testbit v n)) /\
    irq_calls t
    = (if Z.land (u32RegIen q') (u32RegIsts q') =? 0 then [(0, 21, false)] else []) /\
    (Z.land (u32RegIen q') (u32RegIsts q') = 0 -> irq_line (Trace pThis') = false).
Proof.
  intros Hq Hcase q'.
  destruct (queue_ists_write_spec v uQueue pThis q Hq) as (Hqs & Hcore & Htr).
  fold q' in Hqs, Htr.
  assert (Hq' : aQueues (queue_ists_write v uQueue pThis) !! uQueue = Some q').
  { rewrite Hqs. apply list_lookup_insert_eq. by eapply lookup_lt_Some. }
  assert (Hbit : forall n, 0 <= n ->
            Z.testbit (u32RegIsts q') n = Z.testbit (u32RegIsts q) n && negb (Z.testbit v n)).
  { intros n Hn. simpl. unfold and_not. by rewrite Z.land_spec, Z.lnot_spec. }
  unfold pspDevCcpMmioQueueRegWrite. rewrite queue_reg_write_ists, Hq'.
  destruct (nonzero (u32RegIen q')) eqn:Hien.
  - (* the executor is called and finds the queue not enabled *)
    assert (Hen : fEnabled q = false).
    { destruct Hcase as [H0|]; [|done]. unfold nonzero in Hien. simpl in Hien.
      rewrite H0 in Hien. discriminate. }
    unfold pspDevCcpQueueRunMaybe. rewrite Hq'. simpl fEnabled. rewrite Hen.
    eexists _, _. split; [reflexivity|]. simpl. rewrite Hqs, Hcore, Htr.
    split; [done|]. split; [done|]. split; [by rewrite <- app_assoc|].
    split; [done|]. split.
    + rewrite irq_calls_app. simpl. rewrite app_nil_r. by destruct (_ =? 0).
    + intros H0. simpl in H0. unfold irq_line. simpl. rewrite H0. simpl.
      by rewrite !irq_line_from_app.
  - eexists _, _. split; [reflexivity|]. rewrite Hqs, Hcore, Htr.
    split; [done|]. split; [done|]. split; [done|]. split; [done|]. split.
    + by destruct (_ =? 0).
    + intros H0. simpl in H0. unfold irq_line. simpl. rewrite H0. simpl.
      by rewrite !irq_line_from_app.
Qed.

Lemma queue_reg_write_trace_other offRegQ u32Val uQueue pThis :
  offRegQ <> CCP_V5_Q_REG_ISTS ->
  Trace (queue_reg_write offRegQ u32Val uQueue pThis) = Trace pThis.
Proof.
  intros Hne. unfold queue_reg_write.
  do 5 (destruct (offRegQ =? _); [reflexivity|]).
  destruct (Z.eqb_spec offRegQ CCP_V5_Q_REG_ISTS); [contradiction | reflexivity].
Qed.

(** The calls of [pfnIrqSet] of a run on an enabled queue. *)
Lemma queue_run_irq_calls fuel pThis uQueue q pThis' :
  aQueues pThis !! uQueue = Some q ->
  fEnabled q = true ->
  pspDevCcpQueueRunMaybe fuel pThis uQueue = Some pThis' ->
  exists q' t,
    aQueues pThis' !! uQueue = Some q' /\ Trace pThis' = Trace pThis ++ t /\
    irq_calls t
    = if nonzero (Z.land (u32RegIen q') (u32RegIsts q')) then [(0, 21, true)] else [].
Proof.
  intros Hq Hen. unfold pspDevCcpQueueRunMaybe. rewrite Hq, Hen.
  destruct (queue_drain _ _ _ _ _) as [[pThis2 h]|] eqn:Hdrain; [|discriminate].
  intros [= <-].
  assert (Hq1 : exists q1, aQueues (queue_run_enter pThis uQueue) !! uQueue = Some q1).
  { unfold queue_run_enter. rewrite lookup_upd_queue. simpl. rewrite Hq. eauto. }
  destruct Hq1 as [q1 Hq1].
  destruct (queue_drain_inv _ _ _ _ _ _ _ _ Hdrain Hq1)
    as ((q2 & Hq2 & _ & _) & _ & t & Ht & Hirq & Hrc).
  set (pThis3 := upd_queue (queue_halt (u32RegReqTail q) h) uQueue pThis2).
  assert (Hq3 : aQueues pThis3 !! uQueue = Some (queue_halt (u32RegReqTail q) h q2)).
  { unfold pThis3. by rewrite lookup_upd_queue, Hq2. }
  exists (queue_halt (u32RegReqTail q) h q2).
  unfold queue_irq_maybe. rewrite Hq3.
  destruct (nonzero _); simpl; rewrite Ht; simpl.
  - exists ((EvQueueRunMaybe uQueue :: t) ++ [EvIrqSet 0 21 true]).
    split; [by rewrite list_lookup_alter_eq, Hq2|].
    split; [by rewrite <- !app_assoc|].
    rewrite irq_calls_app. simpl. by rewrite Hirq.
  - exists (EvQueueRunMaybe uQueue :: t).
    split; [by rewrite list_lookup_alter_eq, Hq2|].
    split; [by rewrite <- !app_assoc|]. done.
Qed.

(** C8, as the code has it.  The device drives the interrupt line from the
    registers of the queue that is accessed, at two points only.  A call of
    the executor asserts the line when the queue is enabled and its
    interrupt-enable AND interrupt-status is non-zero at the end of the run,
    and leaves the line otherwise.  The register write itself deasserts the
    line when it is a write to the interrupt status register after which
    interrupt-enable AND interrupt-status of that queue is zero, and leaves
    the line otherwise.  An access of another width leaves the line. *)
Theorem irq_line_updates fuel pThis uQueue q :
  aQueues pThis !! uQueue = Some q ->
  (forall pThis',
     pspDevCcpQueueRunMaybe fuel pThis uQueue = Some pThis' ->
     exists q',
       aQueues pThis' !! uQueue = Some q' /\
       irq_line (Trace pThis')
       = if fEnabled q && nonzero (Z.land (u32RegIen q') (u32RegIsts q'))
         then true else irq_line (Trace pThis))
  /\ (forall offRegQ v,
        exists q',
          aQueues (queue_reg_write offRegQ v uQueue pThis) !! uQueue = Some q' /\
          irq_line (Trace (queue_reg_write offRegQ v uQueue pThis))
          = if (offRegQ =? CCP_V5_Q_REG_ISTS)
               && (Z.land (u32RegIen q') (u32RegIsts q') =? 0)
            then false else irq_line (Trace pThis))
  /\ (forall offMmio cb pv pv' pThis',
        cb <> 4 ->
        pspDevCcpMmioRead fuel pThis offMmio cb pv = Some (pv', pThis')
        \/ pspDevCcpMmioWrite fuel pThis offMmio cb pv = Some pThis' ->
        irq_line (Trace pThis') = irq_line (Trace pThis)).
Proof.
  intros Hq. split; [|split].
  - intros pThis' Hrun. destruct (fEnabled q) eqn:Hen.
    + destruct (queue_run_irq_calls _ _ _ _ _ Hq Hen Hrun) as (q' & t & Hq' & Ht & Hirq).
      exists q'. split; [done|]. rewrite Ht. unfold irq_line.
      rewrite irq_line_from_app. simpl.
      destruct (nonzero _).
      * clear Ht. revert Hirq. generalize (irq_line_from false (Trace pThis)).
        induction t as [|[] t IH]; intros b Hirq; simpl in *; try discriminate; auto.
        injection Hirq as -> -> -> Hirq. simpl.
        by apply irq_line_from_no_calls.
      * by apply irq_line_from_no_calls.
    + unfold pspDevCcpQueueRunMaybe in Hrun. rewrite Hq, Hen in Hrun.
      injection Hrun as <-. exists q. split; [done|]. simpl.
      unfold irq_line. by rewrite irq_line_from_app.
  - intros offRegQ v.
    destruct (Z.eqb_spec offRegQ CCP_V5_Q_REG_ISTS) as [->|Hne].
    + rewrite queue_reg_write_ists.
      destruct (queue_ists_write_spec v uQueue pThis q Hq) as (Hqs & _ & Htr).
      eexists. split.
      { rewrite Hqs. apply list_lookup_insert_eq. by eapply lookup_lt_Some. }
      rewrite Htr. unfold irq_line. rewrite irq_line_from_app. simpl.
      by destruct (_ =? 0).
    + destruct (queue_reg_write_lookup offRegQ v uQueue pThis q Hq) as (q' & Hq').
      exists q'. split; [done|]. simpl.
      by rewrite queue_reg_write_trace_other.
  - intros offMmio cb pv pv' pThis' Hcb.
    unfold pspDevCcpMmioRead, pspDevCcpMmioWrite.
    destruct (Z.eqb_spec cb 4) as [|_]; [done|]. simpl.
    intros [[= _ <-]|[= <-]]; simpl; unfold irq_line; by rewrite irq_line_from_app.
Qed.

End ExecutorProperties.

(** ** Transfers as seen from the address spaces *)

Section TransferProperties.
Context `{hdr : CcpHdr} {Ext : Type}.
Implicit Types (pThis : CCPCORE Ext) (pCtx : CCPXFERCTX) (pReq : CCP5REQ).

Lemma u32_add_small a i : 0 <= i -> u32 a + i < 2 ^ 32 -> u32 (a + i) = u32 a + i.
Proof.
  intros Hi Hlt. unfold u32 in *. rewrite <- Zplus_mod_idemp_l.
  apply Z.mod_small. pose proof (Z.mod_pos_bound a (2 ^ 32)). lia.
Qed.

Lemma u32_inj_near a b : 0 < b - a < 2 ^ 32 -> u32 a <> u32 b.
Proof.
  unfold u32. intros Hd Heq.
  assert (H : (b - a) mod 2 ^ 32 = 0).
  { rewrite Zminus_mod, Heq, Z.sub_diag. done. }
  rewrite Z.mod_small in H by lia. lia.
Qed.

Lemma iom_mapped_bound (m : gmap Z byte) a n : iom_mapped m a n = true -> a + n <= 2 ^ 32.
Proof. unfold iom_mapped. intros [H _]%andb_true_iff. by apply Z.leb_le. Qed.

Lemma iom_poke_lookup_out (l : list byte) (m : gmap Z byte) a k :
  k < a \/ a + Z.of_nat (length l) <= k -> iom_poke m a l !! k = m !! k.
Proof.
  revert m a. induction l as [|b l IH]; intros m a Hk; simpl; [done|].
  rewrite IH by (simpl in Hk; lia). apply lookup_insert_ne. simpl in Hk. lia.
Qed.

Lemma iom_poke_lookup_in (l : list byte) (m : gmap Z byte) a (j : nat) :
  (j < length l)%nat -> iom_poke m a l !! (a + Z.of_nat j) = l !! j.
Proof.
  revert m a j. induction l as [|b l IH]; intros m a j Hj; simpl in *; [lia|].
  destruct j as [|j].
  - rewrite Z.add_0_r, iom_poke_lookup_out by lia. apply lookup_insert_eq.
  - replace (a + Z.of_nat (S j)) with (a + 1 + Z.of_nat j) by lia.
    apply IH. lia.
Qed.

Lemma xfer_peek_length fn pThis a n : length (xfer_peek fn pThis a n) = Z.to_nat n.
Proof. unfold xfer_peek. by rewrite length_fmap, length_seqZ. Qed.

Lemma xfer_peek_lookup fn pThis a n (i : nat) :
  Z.of_nat i < n ->
  xfer_peek fn pThis a n !! i = Some (xfer_byte fn pThis (a + Z.of_nat i)).
Proof.
  intros Hi. unfold xfer_peek. rewrite list_lookup_fmap, lookup_seqZ_lt by done.
  simpl. by rewrite Z.add_0_l.
Qed.

(** A read through a callback yields the window it is asked for. *)
Lemma call_pfnRead_peek fn pThis a n data :
  call_pfnRead fn pThis a n = Some data ->
  0 <= a -> 0 <= n -> a + n < 2 ^ 64 ->
  length (Lsb pThis) = 4096%nat ->
  data = xfer_peek fn pThis a n.
Proof.
  intros Hread Ha Hn Hov Hlen. destruct fn; simpl in Hread.
  - discriminate.
  - unfold pspDevCcpXferMemLsbRead, sizeof_Lsb in Hread.
    rewrite u64_small in Hread by lia.
    destruct (a <? 4096) eqn:E1; [|discriminate]. apply Z.ltb_lt in E1.
    destruct (a + n <=? 4096) eqn:E2; [|discriminate]. apply Z.leb_le in E2.
    injection Hread as <-. apply list_eq. intros i.
    destruct (decide (Z.of_nat i < n)) as [Hi|Hi].
    + rewrite xfer_peek_lookup by done. rewrite lookup_take_lt, lookup_drop by lia.
      simpl. replace (Z.to_nat (a + Z.of_nat i)) with (Z.to_nat a + i)%nat by lia.
      destruct (lookup_lt_is_Some_2 (Lsb pThis) (Z.to_nat a + i)) as [b Hb]; [lia|].
      by rewrite Hb.
    + rewrite lookup_take_ge by lia. symmetry. apply lookup_ge_None_2.
      rewrite xfer_peek_length. lia.
  - unfold pspDevCcpXferMemLocalRead, PSPEmuIoMgrPspAddrRead in Hread.
    destruct (iom_mapped _ _ _) eqn:Hm; [|discriminate].
    apply iom_mapped_bound in Hm. injection Hread as <-.
    unfold iom_peek, xfer_peek. apply list_fmap_ext.
    intros i x [-> Hx]%lookup_seqZ. simpl.
    by rewrite u32_add_small by lia.
Qed.

Lemma call_pfnWrite_written fn pThis a data n pThis' :
  call_pfnWrite fn pThis a data n = (0, pThis') ->
  0 <= a -> 0 <= n -> a + n < 2 ^ 64 -> n <= Z.of_nat (length data) ->
  length (Lsb pThis) = 4096%nat ->
  xfer_written fn pThis a n data pThis'.
Proof.
  intros Hwrite Ha Hn Hov Hdata Hlen. destruct fn; simpl in Hwrite.
  - discriminate.
  - unfold pspDevCcpXferMemLsbWrite, sizeof_Lsb in Hwrite.
    rewrite u64_small in Hwrite by lia.
    destruct (a <? 4096) eqn:E1; [|discriminate]. apply Z.ltb_lt in E1.
    destruct (a + n <=? 4096) eqn:E2; [|discriminate]. apply Z.leb_le in E2.
    injection Hwrite as <-.
    assert (Hk : length (take (Z.to_nat n) data) = Z.to_nat n)
      by (rewrite length_take; lia).
    repeat split; simpl.
    + intros i Hi. rewrite list_lookup_inserts by lia.
      unfold byte_at. rewrite lookup_take_lt by lia. do 2 f_equal. lia.
    + intros fn' a' Ha' Hsep. destruct fn'; simpl; try done.
      destruct Hsep as [Hfn|Hsep]; [done|]. simpl in Hsep. f_equal.
      destruct (decide (a' < a)); [apply list_lookup_inserts_lt; lia|].
      apply list_lookup_inserts_ge. rewrite Hk.
      destruct (decide (a' < a + n)); [|lia].
      specialize (Hsep (a' - a)). lia.
    + apply length_inserts.
  - unfold pspDevCcpXferMemLocalWrite, PSPEmuIoMgrPspAddrWrite in Hwrite.
    destruct (iom_mapped _ _ _) eqn:Hm; [|discriminate].
    apply iom_mapped_bound in Hm. simpl in Hwrite. injection Hwrite as <-.
    assert (Hk : length (take (Z.to_nat n) data) = Z.to_nat n)
      by (rewrite length_take; lia).
    pose proof (Z.mod_pos_bound a (2 ^ 32)) as Hb. fold (u32 a) in Hb.
    repeat split; simpl.
    + intros i Hi. rewrite u32_add_small by lia.
      replace i with (Z.of_nat (Z.to_nat i)) at 1 by lia.
      rewrite iom_poke_lookup_in by lia.
      unfold byte_at. by rewrite lookup_take_lt by lia.
    + intros fn' a' Ha' Hsep. destruct fn'; simpl; try done.
      destruct Hsep as [Hfn|Hsep]; [done|]. simpl in Hsep. f_equal.
      pose proof (Z.mod_pos_bound a' (2 ^ 32)) as Hb'. fold (u32 a') in Hb'.
      apply iom_poke_lookup_out. rewrite Hk.
      destruct (decide (u32 a' < u32 a)); [lia|].
      destruct (decide (u32 a' < u32 a + n)); [|lia].
      specialize (Hsep (u32 a' - u32 a)).
      rewrite u32_add_small in Hsep by lia. lia.
Qed.

Lemma byte_at_peek fn pThis a n i :
  0 <= i < n -> byte_at (xfer_peek fn pThis a n) i = xfer_byte fn pThis (a + i).
Proof.
  intros Hi. unfold byte_at. rewrite xfer_peek_lookup by lia. simpl. do 2 f_equal. lia.
Qed.

(** A read pass that asks for no more than is left. *)
Lemma pspDevCcpXferCtxRead_peek pThis pCtx cb pCtx' data :
  pspDevCcpXferCtxRead pThis pCtx cb false = Some (pCtx', data) ->
  0 <= CcpAddrSrc pCtx -> 0 <= cb -> CcpAddrSrc pCtx + cb < 2 ^ 64 ->
  length (Lsb pThis) = 4096%nat ->
  cb <= cbReadLeft pCtx /\
  data = xfer_peek (pfnRead pCtx) pThis (CcpAddrSrc pCtx) cb /\
  pCtx' = mkCCPXFERCTX (pfnRead pCtx) (pfnWrite pCtx) (CcpAddrSrc pCtx + cb)
            (cbReadLeft pCtx - cb) (CcpAddrDst pCtx) (cbWriteLeft pCtx) (fWriteRev pCtx).
Proof.
  unfold pspDevCcpXferCtxRead. intros Hread Ha Hcb Hov Hlen.
  destruct (nonzero _ && _) eqn:Hc; [|discriminate].
  apply andb_true_iff in Hc as [_ Hc]. simpl in Hc. apply Z.eqb_eq in Hc.
  rewrite Hc in Hread.
  destruct (call_pfnRead _ _ _ _) as [d|] eqn:Hcall; [|discriminate].
  injection Hread as <- <-.
  split; [lia|]. split; [by eapply call_pfnRead_peek|].
  by rewrite u64_small by lia.
Qed.

(** A forward write pass that is asked for no more than is left. *)
Lemma pspDevCcpXferCtxWrite_written pThis pCtx data cb pThis' pCtx' :
  pspDevCcpXferCtxWrite pThis pCtx data cb false = (0, pThis', pCtx') ->
  fWriteRev pCtx = false ->
  0 <= CcpAddrDst pCtx -> 0 <= cb -> CcpAddrDst pCtx + cb < 2 ^ 64 ->
  cb <= Z.of_nat (length data) ->
  length (Lsb pThis) = 4096%nat ->
  cb <= cbWriteLeft pCtx /\
  xfer_written (pfnWrite pCtx) pThis (CcpAddrDst pCtx) cb data pThis' /\
  pCtx' = mkCCPXFERCTX (pfnRead pCtx) (pfnWrite pCtx) (CcpAddrSrc pCtx)
            (cbReadLeft pCtx) (CcpAddrDst pCtx + cb) (cbWriteLeft pCtx - cb) false.
Proof.
  unfold pspDevCcpXferCtxWrite. intros Hwrite Hrev Ha Hcb Hov Hdata Hlen.
  destruct (nonzero _ && _) eqn:Hc; [|discriminate].
  apply andb_true_iff in Hc as [_ Hc]. simpl in Hc. apply Z.eqb_eq in Hc.
  rewrite Hc, Hrev in Hwrite.
  destruct (call_pfnWrite _ _ _ _ _) as [rc pThis1] eqn:Hcall.
  destruct (rc =? 0) eqn:Hrc; [|injection Hwrite as -> _ _; discriminate].
  apply Z.eqb_eq in Hrc. subst rc. injection Hwrite as <- <-.
  split; [lia|]. split; [by eapply call_pfnWrite_written|].
  by rewrite u64_small by lia.
Qed.

Lemma xfer_cell_window_inj fn a i j :
  0 <= a -> 0 <= i -> i < j -> j < 2 ^ 32 -> xfer_cell fn (a + i) <> xfer_cell fn (a + j).
Proof.
  intros Ha Hi Hij Hj. destruct fn; simpl; try lia. apply u32_inj_near. lia.
Qed.

(** The copy loop of the PASSTHRU engine without byte swap: what it leaves
    in the destination window and outside of it, when no source byte lies
    where an earlier chunk was written. *)
Lemma passthru_loop_copy fuel pThis pCtx cbLeft pThis' :
  passthru_loop fuel pThis pCtx cbLeft = (0, pThis') ->
  fWriteRev pCtx = false -> cbReadLeft pCtx = cbLeft -> cbWriteLeft pCtx = cbLeft ->
  0 <= cbLeft < 2 ^ 32 ->
  0 <= CcpAddrSrc pCtx -> CcpAddrSrc pCtx + cbLeft < 2 ^ 64 ->
  0 <= CcpAddrDst pCtx -> CcpAddrDst pCtx + cbLeft < 2 ^ 64 ->
  length (Lsb pThis) = 4096%nat ->
  (forall i j, 0 <= i < cbLeft -> 0 <= j < 4096 * (i / 4096) ->
     pfnRead pCtx = pfnWrite pCtx ->
     xfer_cell (pfnWrite pCtx) (CcpAddrSrc pCtx + i)
     <> xfer_cell (pfnWrite pCtx) (CcpAddrDst pCtx + j)) ->
  (forall j, 0 <= j < cbLeft ->
     xfer_byte (pfnWrite pCtx) pThis' (CcpAddrDst pCtx + j)
     = xfer_byte (pfnRead pCtx) pThis (CcpAddrSrc pCtx + j)) /\
  (forall fn a,
     0 <= a ->
     fn <> pfnWrite pCtx
     \/ (forall j, 0 <= j < cbLeft ->
           xfer_cell (pfnWrite pCtx) a <> xfer_cell (pfnWrite pCtx) (CcpAddrDst pCtx + j)) ->
     xfer_byte fn pThis' a = xfer_byte fn pThis a) /\
  length (Lsb pThis') = 4096%nat.
Proof.
  revert pThis pCtx cbLeft.
  induction fuel as [|fuel IH]; intros pThis pCtx cbLeft; simpl.
  - destruct (cbLeft =? 0) eqn:E0; [|discriminate]. apply Z.eqb_eq in E0.
    intros [= <-]. intros. split; [intros; lia|]. done.
  - destruct (cbLeft =? 0) eqn:E0.
    { apply Z.eqb_eq in E0. intros [= <-]. intros. split; [intros; lia|]. done. }
    apply Z.eqb_neq in E0.
    intros Hloop Hrev Hrl Hwl Hcb HS HSov HD HDov Hlen Hsep.
    set (c := Z.min cbLeft _4K) in *.
    assert (Hc : 0 < c <= cbLeft /\ c <= 4096 /\ (c < cbLeft -> c = 4096))
      by (unfold c, _4K; lia).
    destruct (pspDevCcpXferCtxRead pThis pCtx c false) as [[pCtx1 data]|] eqn:Hread;
      [|discriminate].
    apply pspDevCcpXferCtxRead_peek in Hread as (_ & Hdata & ->); [|lia..|done].
    destruct (pspDevCcpXferCtxWrite pThis _ data c false) as [[rc pThis1] pCtx2] eqn:Hwrite.
    destruct (rc =? 0) eqn:Hrc; [|injection Hloop as -> _; discriminate].
    apply Z.eqb_eq in Hrc. subst rc.
    assert (Hdlen : Z.of_nat (length data) = c).
    { rewrite Hdata, xfer_peek_length. lia. }
    apply pspDevCcpXferCtxWrite_written in Hwrite
      as (_ & (Hw & Hframe & Hlen1 & _) & ->); simpl; [|done|lia..|done].
    simpl in Hw, Hframe.
    apply IH in Hloop; simpl; [simpl in Hloop|done|lia..| |].
    + destruct Hloop as (Hcopy & Hrest & Hlen').
      split; [|split; [|done]].
      * intros j Hj. destruct (decide (j < c)) as [Hjc|Hjc].
        -- rewrite Hrest; [|lia|].
           ++ rewrite Hw by lia. rewrite Hdata. apply byte_at_peek. lia.
           ++ right. intros j' Hj'.
              replace (CcpAddrDst pCtx + c + j') with (CcpAddrDst pCtx + (c + j')) by lia.
              apply xfer_cell_window_inj; lia.
        -- replace (CcpAddrDst pCtx + j) with (CcpAddrDst pCtx + c + (j - c)) by lia.
           rewrite Hcopy by lia.
           replace (CcpAddrSrc pCtx + c + (j - c)) with (CcpAddrSrc pCtx + j) by lia.
           apply Hframe; [lia|].
           destruct (decide (pfnRead pCtx = pfnWrite pCtx)) as [Heq|Hne]; [|by left].
           right. intros i Hi.
           pose proof (Z.div_mod j 4096). pose proof (Z.mod_pos_bound j 4096).
           apply Hsep; [lia..|done].
      * intros fn a Ha Hcond. rewrite Hrest; [|done|].
        -- apply Hframe; [done|]. destruct Hcond as [|Hcond]; [by left|].
           right. intros i Hi. apply Hcond. lia.
        -- destruct Hcond as [|Hcond]; [by left|].
           right. intros j Hj.
           replace (CcpAddrDst pCtx + c + j) with (CcpAddrDst pCtx + (c + j)) by lia.
           apply Hcond. lia.
    + by rewrite Hlen1.
    + intros i j Hi Hj Heq.
      replace (CcpAddrSrc pCtx + c + i) with (CcpAddrSrc pCtx + (c + i)) by lia.
      replace (CcpAddrDst pCtx + c + j) with (CcpAddrDst pCtx + (c + j)) by lia.
      assert (Hc4 : c = 4096) by lia.
      assert (Hdiv : (c + i) / 4096 = 1 + i / 4096).
      { rewrite Hc4. replace (4096 + i) with (i + 1 * 4096) by lia.
        rewrite Z.div_add by lia. lia. }
      apply Hsep; [lia| |done]. rewrite Hdiv. lia.
Qed.

Lemma xfer_cell_near fn x y :
  0 <= x -> 0 <= y -> 0 < y - x < 2 ^ 32 -> xfer_cell fn x <> xfer_cell fn y.
Proof.
  intros Hx Hy Hd. destruct fn; simpl; try lia. by apply u32_inj_near.
Qed.

Lemma byte_at_cons_0 b l : byte_at (b :: l) 0 = b.
Proof. done. Qed.

Lemma byte_at_cons_S b l i : 0 < i -> byte_at (b :: l) i = byte_at l (i - 1).
Proof.
  intros Hi. unfold byte_at.
  replace (Z.to_nat i) with (S (Z.to_nat (i - 1))) by lia. done.
Qed.

(** The reversed write: byte [i] of the source lands [i + 1] below the
    destination address the context starts with. *)
Lemma xfer_write_rev_spec data pThis pCtx pThis' pCtx' :
  xfer_write_rev data pThis pCtx = (0, pThis', pCtx') ->
  Z.of_nat (length data) <= CcpAddrDst pCtx < 2 ^ 64 ->
  Z.of_nat (length data) < 2 ^ 32 ->
  length (Lsb pThis) = 4096%nat ->
  (forall i, 0 <= i < Z.of_nat (length data) ->
     xfer_byte (pfnWrite pCtx) pThis' (CcpAddrDst pCtx - 1 - i) = byte_at data i) /\
  (forall fn a,
     0 <= a ->
     fn <> pfnWrite pCtx
     \/ (forall i, 0 <= i < Z.of_nat (length data) ->
           xfer_cell (pfnWrite pCtx) a
           <> xfer_cell (pfnWrite pCtx) (CcpAddrDst pCtx - 1 - i)) ->
     xfer_byte fn pThis' a = xfer_byte fn pThis a) /\
  length (Lsb pThis') = 4096%nat /\
  pOsslShaCtx pThis' = pOsslShaCtx pThis /\ ExtCtx pThis' = ExtCtx pThis.
Proof.
  revert pThis pCtx. induction data as [|b data IH]; intros pThis pCtx; simpl.
  - intros [= <- <-] _ _ Hlen. split; [intros; lia|]. done.
  - intros Hrev HA Hn Hlen.
    rewrite u64_small in Hrev by lia.
    destruct (call_pfnWrite _ _ _ _ _) as [rc pThis1] eqn:Hcall.
    destruct (rc =? 0) eqn:Hrc; [|injection Hrev as -> _ _; discriminate].
    apply Z.eqb_eq in Hrc. subst rc.
    apply call_pfnWrite_written in Hcall as (Hw & Hframe & Hlen1 & Hsha1 & Hext1);
      [|lia..|simpl; lia|done].
    apply IH in Hrev; simpl; [simpl in Hrev|lia..|by rewrite Hlen1].
    destruct Hrev as (Hcopy & Hrest & Hlen' & Hsha' & Hext').
    split; [|split; [|split; [done|split; congruence]]].
    + intros i Hi. destruct (decide (i = 0)) as [->|Hi0].
      * rewrite Z.sub_0_r, Hrest; [|lia|].
        -- by rewrite <- (Z.add_0_r (CcpAddrDst pCtx - 1)), Hw by lia.
        -- right. intros i' Hi'. apply not_eq_sym, xfer_cell_near; lia.
      * rewrite byte_at_cons_S by lia. rewrite <- Hcopy by lia. f_equal. lia.
    + intros fn a Ha Hcond. rewrite Hrest; [|done|].
      * apply Hframe; [done|]. destruct Hcond as [|Hcond]; [by left|].
        right. intros i Hi. assert (i = 0) as -> by lia.
        rewrite Z.add_0_r. specialize (Hcond 0). rewrite Z.sub_0_r in Hcond.
        apply Hcond. lia.
      * destruct Hcond as [|Hcond]; [by left|].
        right. intros i Hi.
        replace (CcpAddrDst pCtx - 1 - 1 - i) with (CcpAddrDst pCtx - 1 - (i + 1)) by lia.
        apply Hcond. lia.
Qed.

(** The fuel of the copy loop is never used up. *)
Lemma passthru_loop_fuel fuel1 fuel2 pThis pCtx cbLeft :
  0 <= cbLeft ->
  (Z.to_nat (cbLeft / _4K) < fuel1)%nat -> (Z.to_nat (cbLeft / _4K) < fuel2)%nat ->
  passthru_loop fuel1 pThis pCtx cbLeft = passthru_loop fuel2 pThis pCtx cbLeft.
Proof.
  revert fuel2 pThis pCtx cbLeft.
  induction fuel1 as [|fuel1 IH]; intros fuel2 pThis pCtx cbLeft Hcb H1 H2; [lia|].
  destruct fuel2 as [|fuel2]; [lia|]. simpl.
  destruct (cbLeft =? 0) eqn:E0; [done|]. apply Z.eqb_neq in E0.
  destruct (pspDevCcpXferCtxRead _ _ _ _) as [[pCtx1 data]|]; [|done].
  destruct (pspDevCcpXferCtxWrite _ _ _ _ _) as [[rc pThis1] pCtx2].
  destruct (rc =? 0); [|done].
  unfold _4K in *.
  assert (Hdiv : cbLeft < 4096 \/
                 (4096 <= cbLeft /\ (cbLeft - 4096) / 4096 = cbLeft / 4096 - 1)).
  { destruct (decide (cbLeft < 4096)); [by left|right]. split; [lia|].
    replace cbLeft with ((cbLeft - 4096) + 1 * 4096) at 2 by lia.
    rewrite Z.div_add by lia. lia. }
  destruct Hdiv as [Hlt|[Hge Hdiv]].
  - rewrite Z.min_l by lia. rewrite Z.sub_diag.
    destruct fuel1, fuel2; reflexivity.
  - rewrite Z.min_r by lia. apply IH; [lia| |].
    + rewrite Hdiv. assert (1 <= cbLeft / 4096) by (apply Z.div_le_lower_bound; lia). lia.
    + rewrite Hdiv. assert (1 <= cbLeft / 4096) by (apply Z.div_le_lower_bound; lia). lia.
Qed.

Lemma lor_bound x y n : 0 <= n -> 0 <= x < 2 ^ n -> 0 <= y < 2 ^ n -> 0 <= Z.lor x y < 2 ^ n.
Proof.
  intros Hn Hx Hy. split; [apply Z.lor_nonneg; lia|].
  destruct (decide (Z.lor x y = 0)) as [->|Hne]; [lia|].
  assert (0 <= Z.lor x y) by (apply Z.lor_nonneg; lia).
  apply Z.log2_lt_pow2; [lia|]. rewrite Z.log2_lor by lia.
  assert (Hlog : forall z, 0 <= z < 2 ^ n -> 0 < n -> Z.log2 z < n).
  { intros z Hz Hn0. destruct (decide (z = 0)) as [->|]; [done|].
    apply Z.log2_lt_pow2; lia. }
  assert (0 < n).
  { destruct (decide (n = 0)) as [->|]; [|lia].
    assert (x = 0) as -> by lia. assert (y = 0) as -> by lia. done. }
  apply Z.max_lub_lt; by apply Hlog.
Qed.

Lemma CCP_ADDR_bound hi lo :
  0 <= hi < 2 ^ 16 -> 0 <= lo < 2 ^ 32 -> 0 <= CCP_ADDR_CREATE_FROM_HI_LO hi lo < 2 ^ 48.
Proof.
  intros Hhi Hlo. unfold CCP_ADDR_CREATE_FROM_HI_LO.
  apply lor_bound; [lia| |lia]. rewrite Z.shiftl_mul_pow2 by lia. nia.
Qed.

Lemma pspDevCcpXferCtxInit_non_sha pThis pReq cbWrite fRev pThis1 pCtx :
  pspDevCcpXferCtxInit pThis pReq false cbWrite fRev = (pThis1, Some pCtx) ->
  pThis1 = set_cbWrittenLast 0 pThis /\
  exists rfn wfn,
    req_src_fn pReq = Some rfn /\ req_dst_fn pReq = Some wfn /\
    pCtx = mkCCPXFERCTX rfn wfn (req_src_addr pReq) (cbSrc pReq)
             (if fRev then u64 (req_dst_addr pReq + cbWrite) else req_dst_addr pReq)
             cbWrite fRev.
Proof.
  unfold pspDevCcpXferCtxInit, req_src_fn, req_dst_fn. simpl.
  destruct (xfer_fn_of_mem_type (CCP_V5_MEM_TYPE_GET (u16SrcMemType pReq))) as [rfn|];
    [|discriminate].
  destruct (xfer_fn_of_mem_type (CCP_V5_MEM_TYPE_GET (u16DstMemType pReq))) as [wfn|];
    [|discriminate].
  intros [= <- <-]. eauto 10.
Qed.

Lemma xfer_byte_set_cbWrittenLast fn v pThis a :
  xfer_byte fn (set_cbWrittenLast v pThis) a = xfer_byte fn pThis a.
Proof. by destruct fn. Qed.

Lemma xfer_peek_set_cbWrittenLast fn v pThis a n :
  xfer_peek fn (set_cbWrittenLast v pThis) a n = xfer_peek fn pThis a n.
Proof. done. Qed.

Lemma byte_at_take l n i : 0 <= i < n -> byte_at (take (Z.to_nat n) l) i = byte_at l i.
Proof. intros Hi. unfold byte_at. by rewrite lookup_take_lt by lia. Qed.

(** C6, as the code has it.  A PASSTHRU request succeeds only when bitwise
    is NOOP, reflect is 0 and byteswap is NOOP, or 256BIT with a source of
    32 bytes; any other combination fails it and leaves the device as it
    is.  After a successful request with the 256-bit byte swap the 32
    destination bytes are the source bytes in reverse order.  After a
    successful request without byte swap the destination bytes are the
    source bytes as they were before the request, provided no source byte
    lies in the part of the destination that an earlier chunk of 4096
    bytes was written to. *)
Theorem passthru_process pThis pReq uFunc rc pThis' :
  req_wf pReq ->
  length (Lsb pThis) = 4096%nat ->
  pspDevCcpReqPassthruProcess pThis pReq uFunc = (rc, pThis') ->
  let uByteSwap := u8 (CCP_V5_ENGINE_PASSTHRU_BYTESWAP_GET uFunc) in
  let uBitwise := u8 (CCP_V5_ENGINE_PASSTHRU_BITWISE_GET uFunc) in
  let uReflect := u8 (CCP_V5_ENGINE_PASSTHRU_REFLECT_GET uFunc) in
  (rc = 0 ->
   uBitwise = CCP_V5_ENGINE_PASSTHRU_BITWISE_NOOP /\ uReflect = 0 /\
   (uByteSwap = CCP_V5_ENGINE_PASSTHRU_BYTESWAP_NOOP
    \/ (uByteSwap = CCP_V5_ENGINE_PASSTHRU_BYTESWAP_256BIT /\ cbSrc pReq = 32))) /\
  (passthru_supported uByteSwap uBitwise uReflect pReq = false ->
   rc = -1 /\ pThis' = pThis) /\
  (rc = 0 -> uByteSwap = CCP_V5_ENGINE_PASSTHRU_BYTESWAP_256BIT ->
   req_dst_window pThis' pReq 32 = reverse (req_src_window pThis pReq)) /\
  (rc = 0 -> uByteSwap = CCP_V5_ENGINE_PASSTHRU_BYTESWAP_NOOP ->
   passthru_no_overlap pReq ->
   req_dst_window pThis' pReq (cbSrc pReq) = req_src_window pThis pReq).
Proof.
  intros Hwf Hlen Hproc uByteSwap uBitwise uReflect.
  destruct Hwf as (Hcb & HSl & HSh & HDl & HDh & _).
  pose proof (CCP_ADDR_bound _ _ HSh HSl) as HS. fold (req_src_addr pReq) in HS.
  pose proof (CCP_ADDR_bound _ _ HDh HDl) as HD. fold (req_dst_addr pReq) in HD.
  unfold pspDevCcpReqPassthruProcess in Hproc.
  fold uByteSwap uBitwise uReflect in Hproc.
  destruct (passthru_supported uByteSwap uBitwise uReflect pReq) eqn:Hsup;
    [|injection Hproc as <- <-; repeat split; intros; (done || lia)].
  assert (Hcomb : uBitwise = CCP_V5_ENGINE_PASSTHRU_BITWISE_NOOP /\ uReflect = 0 /\
            (uByteSwap = CCP_V5_ENGINE_PASSTHRU_BYTESWAP_NOOP
             \/ (uByteSwap = CCP_V5_ENGINE_PASSTHRU_BYTESWAP_256BIT /\ cbSrc pReq = 32))).
  { unfold passthru_supported in Hsup.
    apply andb_true_iff in Hsup as [[H1 H2]%andb_true_iff H3].
    apply Z.eqb_eq in H1, H3. split; [done|]. split; [done|].
    apply orb_true_iff in H2 as [H2|[H2 H4]%andb_true_iff].
    - left. by apply Z.eqb_eq.
    - right. split; by apply Z.eqb_eq. }
  split; [done|]. split; [done|].
  destruct (pspDevCcpXferCtxInit _ _ _ _ _) as [pThis1 [pCtx|]] eqn:Hinit;
    [|injection Hproc as <- <-; split; intros; lia].
  apply pspDevCcpXferCtxInit_non_sha in Hinit as (-> & rfn & wfn & Hrfn & Hwfn & ->).
  split.
  - (* 256-bit byte swap *)
    intros -> Hbs.
    assert (Hcb32 : cbSrc pReq = 32).
    { destruct Hcomb as (_ & _ & [H|[_ H]]); [|done].
      pose proof byteswap_labels. congruence. }
    rewrite Hbs, Z.eqb_refl, Hcb32 in Hproc.
    rewrite u64_small in Hproc by lia.
    unfold iterations, _4K in Hproc. simpl in Hproc.
    unfold _4K in Hproc. change (Z.min 32 4096) with 32 in Hproc.
    destruct (pspDevCcpXferCtxRead _ _ _ _) as [[pCtx1 data]|] eqn:Hread; [|discriminate].
    apply pspDevCcpXferCtxRead_peek in Hread as (_ & Hdata & ->); ctx_simpl; [|lia..|done].
    ctx_simpl in Hdata. rewrite xfer_peek_set_cbWrittenLast in Hdata.
    unfold pspDevCcpXferCtxWrite in Hproc. ctx_simpl in Hproc. simpl in Hproc.
    destruct (xfer_write_rev _ _ _) as [[rc' pThisW] pCtx2] eqn:Hrev.
    destruct (rc' =? 0) eqn:Hrc; [|injection Hproc as -> _; discriminate].
    apply Z.eqb_eq in Hrc. subst rc'. injection Hproc as <-.
    assert (Hdlen : length data = 32%nat) by (by rewrite Hdata, xfer_peek_length).
    apply xfer_write_rev_spec in Hrev as (Hcopy & _);
      rewrite ?length_take, ?Hdlen; ctx_simpl; [|lia..|done].
    ctx_simpl in Hcopy. rewrite length_take, Hdlen in Hcopy. ctx_simpl in Hcopy.
    unfold req_dst_window, req_src_window. rewrite Hrfn, Hwfn, Hcb32.
    apply list_eq. intros k.
    destruct (decide (k < 32)%nat) as [Hk|Hk].
    + rewrite xfer_peek_lookup by lia.
      rewrite reverse_lookup by (rewrite xfer_peek_length; lia).
      rewrite xfer_peek_length, xfer_peek_lookup by lia. f_equal.
      replace (req_dst_addr pReq + Z.of_nat k)
        with (req_dst_addr pReq + 32 - 1 - (31 - Z.of_nat k)) by lia.
      rewrite Hcopy by lia.
      rewrite (byte_at_take data 32) by lia.
      rewrite Hdata, byte_at_peek by lia. f_equal. lia.
    + rewrite !lookup_ge_None_2; [done| |].
      * rewrite length_reverse, xfer_peek_length. lia.
      * rewrite xfer_peek_length. lia.
  - (* no byte swap *)
    intros -> Hbs Hsep.
    assert (Hrev : (uByteSwap =? CCP_V5_ENGINE_PASSTHRU_BYTESWAP_256BIT) = false).
    { apply Z.eqb_neq. pose proof byteswap_labels. congruence. }
    rewrite Hrev in Hproc.
    apply passthru_loop_copy in Hproc as (Hcopy & _); ctx_simpl; [|done|done|done|lia..|done|].
    + ctx_simpl in Hcopy. unfold req_dst_window, req_src_window. rewrite Hrfn, Hwfn.
      unfold xfer_peek. apply list_fmap_ext.
      intros i x [-> Hx]%lookup_seqZ. rewrite Hcopy by lia.
      apply xfer_byte_set_cbWrittenLast.
    + intros i j Hi Hj Heq. apply Hsep; [congruence|done|lia..].
Qed.

End TransferProperties.

(** ** The SHA engine *)

Section ShaProperties.
Context `{hdr : CcpHdr} {Ext : Type} `{env : !CcpEnv Ext}.
Implicit Types (pThis : CCPCORE Ext) (pCtx : CCPXFERCTX) (pReq : CCP5REQ).

Lemma xfer_peek_app fn pThis a n1 n2 :
  0 <= n1 -> 0 <= n2 ->
  xfer_peek fn pThis a (n1 + n2) = xfer_peek fn pThis a n1 ++ xfer_peek fn pThis (a + n1) n2.
Proof.
  intros H1 H2. unfold xfer_peek. rewrite seqZ_app by done. rewrite fmap_app. f_equal.
  rewrite Z.add_0_l. rewrite <- (Z.add_0_r n1) at 1. rewrite <- fmap_add_seqZ.
  rewrite <- list_fmap_compose. apply list_fmap_ext. intros i x _. simpl.
  f_equal. lia.
Qed.

Lemma xfer_peek_ext fn pThis1 pThis2 a n :
  Lsb pThis1 = Lsb pThis2 -> hIoMgr pThis1 = hIoMgr pThis2 ->
  xfer_peek fn pThis1 a n = xfer_peek fn pThis2 a n.
Proof.
  intros HL HM. unfold xfer_peek. apply list_fmap_ext. intros i x _.
  destruct fn; simpl; by rewrite ?HL, ?HM.
Qed.

(** The fuel of the update loop is never used up. *)
Lemma sha_loop_fuel fuel1 fuel2 pThis pCtx cbLeft :
  0 <= cbLeft ->
  (Z.to_nat (cbLeft / 256) < fuel1)%nat -> (Z.to_nat (cbLeft / 256) < fuel2)%nat ->
  sha_loop fuel1 pThis pCtx cbLeft = sha_loop fuel2 pThis pCtx cbLeft.
Proof.
  revert fuel2 pThis pCtx cbLeft.
  induction fuel1 as [|fuel1 IH]; intros fuel2 pThis pCtx cbLeft Hcb H1 H2; [lia|].
  destruct fuel2 as [|fuel2]; [lia|]. simpl.
  destruct (cbLeft =? 0) eqn:E0; [done|]. apply Z.eqb_neq in E0.
  destruct (pspDevCcpXferCtxRead _ _ _ _) as [[pCtx1 data]|]; [|done].
  destruct (decide (cbLeft < 256)) as [Hlt|Hge].
  - rewrite Z.min_l by lia. rewrite Z.sub_diag.
    destruct fuel1, fuel2; reflexivity.
  - assert (Hdiv : (cbLeft - 256) / 256 = cbLeft / 256 - 1).
    { replace cbLeft with ((cbLeft - 256) + 1 * 256) at 2 by lia.
      rewrite Z.div_add by lia. lia. }
    assert (1 <= cbLeft / 256) by (apply Z.div_le_lower_bound; lia).
    rewrite Z.min_r by lia. apply IH; [lia| |]; rewrite Hdiv; lia.
Qed.

(** The update loop feeds the source window to the context. *)
Lemma sha_loop_spec fuel pThis pCtx cbLeft pThis' pCtx' ctx :
  sha_loop fuel pThis pCtx cbLeft = (0, pThis', pCtx') ->
  pOsslShaCtx pThis = Some ctx ->
  cbReadLeft pCtx = cbLeft -> 0 <= cbLeft ->
  0 <= CcpAddrSrc pCtx -> CcpAddrSrc pCtx + cbLeft < 2 ^ 64 ->
  length (Lsb pThis) = 4096%nat ->
  pThis' = set_pOsslShaCtx
             (Some (mkEVP_MD_CTX (md_type ctx)
                      (md_data ctx ++ xfer_peek (pfnRead pCtx) pThis (CcpAddrSrc pCtx) cbLeft)))
             pThis /\
  pfnWrite pCtx' = pfnWrite pCtx /\ CcpAddrDst pCtx' = CcpAddrDst pCtx /\
  cbWriteLeft pCtx' = cbWriteLeft pCtx /\ fWriteRev pCtx' = fWriteRev pCtx.
Proof.
  revert pThis pCtx cbLeft ctx.
  induction fuel as [|fuel IH]; intros pThis pCtx cbLeft ctx; simpl.
  - destruct (cbLeft =? 0) eqn:E0; [|discriminate]. apply Z.eqb_eq in E0. subst.
    intros [= <- <-] Hctx _ _ _ _ _. split; [|done].
    destruct pThis; simpl in *. rewrite Hctx. destruct ctx. simpl.
    by rewrite app_nil_r.
  - destruct (cbLeft =? 0) eqn:E0.
    { apply Z.eqb_eq in E0. subst.
      intros [= <- <-] Hctx _ _ _ _ _. split; [|done].
      destruct pThis; simpl in *. rewrite Hctx. destruct ctx. simpl.
      by rewrite app_nil_r. }
    apply Z.eqb_neq in E0.
    intros Hloop Hctx Hrl Hcb HS HSov Hlen.
    set (c := Z.min cbLeft 256) in *.
    assert (Hc : 0 < c <= cbLeft) by (unfold c; lia).
    destruct (pspDevCcpXferCtxRead pThis pCtx c false) as [[pCtx1 data]|] eqn:Hread;
      [|discriminate].
    apply pspDevCcpXferCtxRead_peek in Hread as (_ & Hdata & ->); [|lia..|done].
    unfold EVP_DigestUpdate in Hloop. rewrite Hctx in Hloop.
    eapply IH in Hloop; [|reflexivity|simpl; lia..|done].
    simpl in Hloop. destruct Hloop as (-> & Hrest). split; [|done].
    unfold set_pOsslShaCtx. simpl. do 3 f_equal.
    rewrite <- app_assoc. f_equal.
    replace cbLeft with (c + (cbLeft - c)) at 2 by lia.
    rewrite xfer_peek_app by lia. by rewrite Hdata.
Qed.

Lemma sha_select uFunc md :
  sha_type_is uFunc md ->
  let uShaType := u32 (CCP_V5_ENGINE_SHA_TYPE_GET uFunc) in
  (uShaType =? CCP_V5_ENGINE_SHA_TYPE_256) || (uShaType =? CCP_V5_ENGINE_SHA_TYPE_384) = true
  /\ (if uShaType =? CCP_V5_ENGINE_SHA_TYPE_256 then (EVP_sha256, 32) else (EVP_sha384, 48))
     = (md, EVP_MD_size md).
Proof.
  intros [[H ->]|[H ->]] uShaType; unfold uShaType; rewrite H.
  - by rewrite Z.eqb_refl.
  - rewrite Z.eqb_refl, orb_true_r.
    destruct (Z.eqb_spec CCP_V5_ENGINE_SHA_TYPE_384 CCP_V5_ENGINE_SHA_TYPE_256) as [E|_];
      [|done].
    pose proof sha_type_labels. congruence.
Qed.

Lemma EVP_MD_size_bound md : 0 < EVP_MD_size md <= 48.
Proof. destruct md; simpl; lia. Qed.

Lemma pspDevCcpXferCtxInit_sha pThis pReq cbWrite pThis1 pCtx :
  pspDevCcpXferCtxInit pThis pReq true cbWrite true = (pThis1, Some pCtx) ->
  pThis1 = set_cbWrittenLast 0 pThis /\
  0 <= req_lsb_ctx_id pReq < 128 /\
  exists rfn,
    req_src_fn pReq = Some rfn /\
    pCtx = mkCCPXFERCTX rfn XferMemLsb (req_src_addr pReq) (cbSrc pReq)
             (u64 (req_lsb_ctx_id pReq * 32 + cbWrite)) cbWrite true.
Proof.
  unfold pspDevCcpXferCtxInit, req_src_fn, req_lsb_ctx_id, ELEMENTS_aSlots, sizeof_abData.
  simpl.
  destruct (xfer_fn_of_mem_type (CCP_V5_MEM_TYPE_GET (u16SrcMemType pReq))) as [rfn|];
    [|discriminate].
  destruct (_ <? 128) eqn:E; [|discriminate]. apply Z.ltb_lt in E.
  intros [= <- <-]. split; [done|]. split; [|eauto].
  split; [apply Z.mod_pos_bound; lia | done].
Qed.

(** One descriptor of a message: without eom it adds its source window to
    the context and leaves the storage; with eom it also writes the digest,
    reversed, where the LSB slot of its source memory type starts, and frees
    the context. *)
Lemma sha_process_ok pThis pReq uFunc fInit fEom md acc pThis' :
  sha_type_is uFunc md ->
  req_wf pReq ->
  length (Lsb pThis) = 4096%nat ->
  sha_ctx_holds md (pOsslShaCtx pThis) acc ->
  pspDevCcpReqShaProcess pThis pReq uFunc fInit fEom = (0, pThis') ->
  let m := acc ++ req_src_window pThis pReq in
  length (Lsb pThis') = 4096%nat /\
  if fEom then
    pOsslShaCtx pThis' = None /\
    xfer_peek XferMemLsb pThis' (req_lsb_ctx_id pReq * 32) (EVP_MD_size md)
    = reverse (EVP_Digest md m)
  else
    Lsb pThis' = Lsb pThis /\ hIoMgr pThis' = hIoMgr pThis /\
    pOsslShaCtx pThis' = Some (mkEVP_MD_CTX md m).
Proof.
  intros Hty Hwf Hlen Hacc Hproc m.
  destruct Hwf as (Hcb & HSl & HSh & _).
  pose proof (CCP_ADDR_bound _ _ HSh HSl) as HS. fold (req_src_addr pReq) in HS.
  pose proof (EVP_MD_size_bound md) as Hsz.
  unfold pspDevCcpReqShaProcess in Hproc.
  destruct (sha_select uFunc md Hty) as [Hsel1 Hsel2].
  rewrite Hsel1, Hsel2 in Hproc.
  destruct (pspDevCcpXferCtxInit _ _ _ _ _) as [pThis1 [pCtx|]] eqn:Hinit; [|discriminate].
  apply pspDevCcpXferCtxInit_sha in Hinit as (-> & Hslot & rfn & Hrfn & ->).
  rewrite u64_small in Hproc by lia.
  set (pThis2 := match pOsslShaCtx (set_cbWrittenLast 0 pThis) with
                 | Some _ => set_cbWrittenLast 0 pThis
                 | None => set_pOsslShaCtx (Some (mkEVP_MD_CTX md [])) (set_cbWrittenLast 0 pThis)
                 end) in *.
  assert (H2 : pOsslShaCtx pThis2 = Some (mkEVP_MD_CTX md acc)
               /\ Lsb pThis2 = Lsb pThis /\ hIoMgr pThis2 = hIoMgr pThis).
  { unfold pThis2. ctx_simpl. unfold sha_ctx_holds in Hacc.
    destruct (pOsslShaCtx pThis) as [c|] eqn:Hc; ctx_simpl; rewrite ?Hc; by subst. }
  destruct H2 as (Hctx2 & HL2 & HM2).
  destruct (sha_loop _ _ _ _) as [[rc1 pThis3] pCtx3] eqn:Hloop.
  assert (rc1 = 0) as ->.
  { destruct (rc1 =? 0) eqn:E; [by apply Z.eqb_eq|]. simpl in Hproc. congruence. }
  apply (sha_loop_spec _ _ _ _ _ _ _ Hloop) in Hctx2 as (-> & Hw3 & HD3 & HWL3 & HR3);
    ctx_simpl; [|done|lia..|by rewrite HL2].
  ctx_simpl in Hw3. ctx_simpl in HD3. ctx_simpl in HWL3. ctx_simpl in HR3.
  assert (Hm : xfer_peek rfn pThis2 (req_src_addr pReq) (cbSrc pReq) = req_src_window pThis pReq).
  { unfold req_src_window. rewrite Hrfn. by apply xfer_peek_ext. }
  ctx_simpl in Hproc. rewrite Hm in Hproc. fold m in Hproc.
  rewrite Z.eqb_refl in Hproc. simpl andb in Hproc.
  destruct fEom.
  - (* eom: finalize and write to the storage buffer *)
    assert (Hdig : EVP_DigestFinal_ex (mkEVP_MD_CTX md m) (indeterminate (EVP_MD_size md))
                   = Some (EVP_Digest md m)).
    { pose proof (EVP_Digest_length md m). pose proof (indeterminate_length (EVP_MD_size md)).
      unfold EVP_DigestFinal_ex. simpl.
      destruct (Nat.leb_spec (length (EVP_Digest md m))
                  (length (indeterminate (EVP_MD_size md)))); [|lia].
      f_equal. rewrite <- (app_nil_r (EVP_Digest md m)) at 1. apply list_inserts_0_l.
      lia. }
    rewrite Hdig in Hproc.
    unfold pspDevCcpXferCtxWrite in Hproc. rewrite HWL3, HR3 in Hproc.
    rewrite Z.min_id in Hproc.
    assert (Hnz : nonzero (EVP_MD_size md) = true).
    { unfold nonzero. destruct (Z.eqb_spec (EVP_MD_size md) 0); [lia|done]. }
    rewrite Hnz, Z.eqb_refl in Hproc. simpl in Hproc.
    destruct (xfer_write_rev _ _ _) as [[rc2 pThis4] pCtx4] eqn:Hrev.
    injection Hproc as -> <-.
    pose proof (EVP_Digest_length md m) as Hdl.
    assert (Htake : take (Z.to_nat (EVP_MD_size md)) (EVP_Digest md m) = EVP_Digest md m).
    { apply take_ge. lia. }
    rewrite Htake in Hrev.
    apply xfer_write_rev_spec in Hrev as (Hcopy & _ & Hlen4 & _);
      rewrite ?HD3, ?Hdl; [|lia..|ctx_simpl; by rewrite HL2].
    rewrite Hw3, HD3, Hdl in Hcopy. ctx_simpl in Hcopy.
    split; [done|]. split; [done|].
    apply list_eq. intros k.
    destruct (decide (Z.of_nat k < EVP_MD_size md)) as [Hk|Hk].
    + rewrite xfer_peek_lookup by lia.
      rewrite reverse_lookup by lia.
      replace (req_lsb_ctx_id pReq * 32 + Z.of_nat k)
        with (req_lsb_ctx_id pReq * 32 + EVP_MD_size md - 1
              - (EVP_MD_size md - 1 - Z.of_nat k)) by lia.
      change (xfer_byte XferMemLsb (set_pOsslShaCtx None pThis4) ?a)
        with (xfer_byte XferMemLsb pThis4 a).
      rewrite Hcopy by lia. unfold byte_at.
      replace (Z.to_nat (EVP_MD_size md - 1 - Z.of_nat k))
        with (length (EVP_Digest md m) - S k)%nat by lia.
      destruct (lookup_lt_is_Some_2 (EVP_Digest md m) (length (EVP_Digest md m) - S k))
        as [b Hb]; [lia|]. by rewrite Hb.
    + rewrite !lookup_ge_None_2; [done| |].
      * rewrite length_reverse. lia.
      * rewrite xfer_peek_length. lia.
  - injection Hproc as <-. ctx_simpl. by rewrite HL2, HM2.
Qed.

Lemma req_src_window_ext pThis1 pThis2 pReq :
  Lsb pThis1 = Lsb pThis2 -> hIoMgr pThis1 = hIoMgr pThis2 ->
  req_src_window pThis1 pReq = req_src_window pThis2 pReq.
Proof.
  intros HL HM. unfold req_src_window. destruct (req_src_fn pReq); [|done].
  by apply xfer_peek_ext.
Qed.

Lemma sha_message_ext pThis1 pThis2 descs :
  Lsb pThis1 = Lsb pThis2 -> hIoMgr pThis1 = hIoMgr pThis2 ->
  sha_message pThis1 descs = sha_message pThis2 descs.
Proof.
  intros HL HM. unfold sha_message. f_equal. apply list_fmap_ext.
  intros i d _. by apply req_src_window_ext.
Qed.

Lemma sha_submit_app pThis d1 d2 :
  sha_submit pThis (d1 ++ d2)
  = let '(r1, pThis1) := sha_submit pThis d1 in
    let '(r2, pThis2) := sha_submit pThis1 d2 in
    (r1 ++ r2, pThis2).
Proof.
  revert pThis. induction d1 as [|[[[pReq uFunc] fInit] fEom] d1 IH]; intros pThis; simpl.
  - by destruct (sha_submit pThis d2).
  - destruct (pspDevCcpReqShaProcess _ _ _ _ _) as [rc pThis1]. rewrite IH.
    destruct (sha_submit pThis1 d1) as [r1 pThis2].
    by destruct (sha_submit pThis2 d2).
Qed.

(** The descriptors before the last: the storage is left and the context
    holds the message so far. *)
Lemma sha_submit_updates md descs pThis acc rcs pThis' :
  Forall (fun d => sha_type_is (sd_uFunc d) md /\ req_wf (sd_req d) /\ sd_fEom d = false)
    descs ->
  length (Lsb pThis) = 4096%nat ->
  sha_ctx_holds md (pOsslShaCtx pThis) acc ->
  sha_submit pThis descs = (rcs, pThis') ->
  Forall (fun rc => rc = 0) rcs ->
  Lsb pThis' = Lsb pThis /\ hIoMgr pThis' = hIoMgr pThis /\
  sha_ctx_holds md (pOsslShaCtx pThis') (acc ++ sha_message pThis descs).
Proof.
  revert pThis acc rcs.
  induction descs as [|[[[pReq uFunc] fInit] fEom] descs IH];
    intros pThis acc rcs Hall Hlen Hacc Hsub Hrcs; simpl in Hsub.
  - injection Hsub as <- <-. unfold sha_message. simpl. by rewrite app_nil_r.
  - apply Forall_cons in Hall as [(Hty & Hwf & Heom) Hall].
    unfold sd_uFunc, sd_req, sd_fEom in Hty, Hwf, Heom. simpl in Hty, Hwf, Heom. subst fEom.
    destruct (pspDevCcpReqShaProcess _ _ _ _ _) as [rc pThis1] eqn:Hproc.
    destruct (sha_submit pThis1 descs) as [rcs1 pThis2] eqn:Hsub1.
    injection Hsub as <- <-. apply Forall_cons in Hrcs as [-> Hrcs].
    destruct (sha_process_ok _ _ _ _ _ _ _ _ Hty Hwf Hlen Hacc Hproc)
      as (Hlen1 & HL1 & HM1 & Hctx1).
    destruct (IH pThis1 (acc ++ req_src_window pThis pReq) rcs1 Hall Hlen1) as (HL & HM & Hctx);
      [by rewrite Hctx1|done|done|].
    split; [congruence|]. split; [congruence|].
    rewrite <- app_assoc in Hctx.
    rewrite (sha_message_ext pThis1 pThis) in Hctx by done.
    exact Hctx.
Qed.

(** C5, as the code has it.  Let the descriptors of a message be processed
    one after the other, starting when no SHA context is in flight, all of
    one SHA type, SHA-256 or SHA-384, with eom on the last one only, and
    let each of them succeed.  Then the storage buffer holds, from the
    start of the LSB slot the last descriptor names in its source memory
    type, the digest of the message in reverse byte order, and the context
    is freed.  The init flag is not consulted.  A descriptor of any other
    SHA type fails and leaves the device as it is. *)
Theorem sha_multipart md pThis (descs : list sha_desc) (last : sha_desc) rcs pThis' :
  pOsslShaCtx pThis = None ->
  length (Lsb pThis) = 4096%nat ->
  Forall (fun d => sha_type_is (sd_uFunc d) md /\ req_wf (sd_req d) /\ sd_fEom d = false)
    descs ->
  sha_type_is (sd_uFunc last) md -> req_wf (sd_req last) -> sd_fEom last = true ->
  sha_submit pThis (descs ++ [last]) = (rcs, pThis') ->
  Forall (fun rc => rc = 0) rcs ->
  (xfer_peek XferMemLsb pThis' (req_lsb_ctx_id (sd_req last) * 32) (EVP_MD_size md)
   = reverse (EVP_Digest md (sha_message pThis (descs ++ [last])))
   /\ pOsslShaCtx pThis' = None)
  /\ (forall pThis0 pReq uFunc fInit fEom,
        u32 (CCP_V5_ENGINE_SHA_TYPE_GET uFunc) <> CCP_V5_ENGINE_SHA_TYPE_256 ->
        u32 (CCP_V5_ENGINE_SHA_TYPE_GET uFunc) <> CCP_V5_ENGINE_SHA_TYPE_384 ->
        pspDevCcpReqShaProcess pThis0 pReq uFunc fInit fEom = (-1, pThis0)).
Proof.
  intros Hnone Hlen Hall Hty Hwf Heom Hsub Hrcs. split.
  - rewrite sha_submit_app in Hsub.
    destruct (sha_submit pThis descs) as [r1 pThis1] eqn:Hsub1.
    destruct last as [[[pReq uFunc] fInit] fEom].
    unfold sd_uFunc, sd_req, sd_fEom in Hty, Hwf, Heom. simpl in Hty, Hwf, Heom. subst fEom.
    simpl in Hsub.
    destruct (pspDevCcpReqShaProcess _ _ _ _ _) as [rc pThis2] eqn:Hproc.
    injection Hsub as <- <-.
    apply Forall_app in Hrcs as [Hr1 Hr2]. apply Forall_cons in Hr2 as [-> _].
    destruct (sha_submit_updates md descs pThis [] r1 pThis1 Hall Hlen) as (HL & HM & Hctx);
      [by rewrite Hnone|done|done|].
    simpl in Hctx.
    assert (Hlen1 : length (Lsb pThis1) = 4096%nat) by (by rewrite HL).
    destruct (sha_process_ok _ _ _ _ _ _ _ _ Hty Hwf Hlen1 Hctx Hproc) as (_ & Hfree & Hdig).
    split; [|done]. unfold sd_req. simpl. rewrite Hdig. do 2 f_equal.
    unfold sha_message. rewrite fmap_app, concat_app. simpl. rewrite app_nil_r.
    f_equal. by apply req_src_window_ext.
  - intros pThis0 pReq uFunc fInit fEom H256 H384.
    unfold pspDevCcpReqShaProcess.
    destruct (Z.eqb_spec (u32 (CCP_V5_ENGINE_SHA_TYPE_GET uFunc)) CCP_V5_ENGINE_SHA_TYPE_256);
      [done|].
    destruct (Z.eqb_spec (u32 (CCP_V5_ENGINE_SHA_TYPE_GET uFunc)) CCP_V5_ENGINE_SHA_TYPE_384);
      done.
Qed.

End ShaProperties.

(** ** The RSA engine *)

Section RsaProperties.
Context `{hdr : CcpHdr} {Ext : Type} `{env : !CcpEnv Ext}.
Implicit Types (pThis : CCPCORE Ext) (pReq : CCP5REQ).

Lemma be_to_Z_reverse l : be_to_Z (reverse l) = le_to_Z l.
Proof. unfold be_to_Z. by rewrite reverse_involutive. Qed.

Lemma pspDevCcpReverseBuf_whole (l : list byte) n :
  Z.to_nat n = length l -> pspDevCcpReverseBuf l n = reverse l.
Proof.
  intros Hn. unfold pspDevCcpReverseBuf. rewrite Hn.
  by rewrite firstn_all, drop_all, app_nil_r.
Qed.

Lemma take_list_inserts_0 (k l : list byte) :
  (length k <= length l)%nat -> take (length k) (list_inserts 0 k l) = k.
Proof.
  intros Hle. apply list_eq. intros i.
  destruct (decide (i < length k)%nat) as [Hi|Hi].
  - rewrite lookup_take_lt by done.
    rewrite list_lookup_inserts by lia. f_equal. lia.
  - rewrite lookup_take_ge by lia. symmetry. apply lookup_ge_None_2. lia.
Qed.

(** A key of another memory type is not copied, and the status is 0. *)
Lemma pspDevCcpKeyCopyFromReq_skip pThis pReq cbKey (pvKey : list byte) :
  req_key_fn pReq = None ->
  pspDevCcpKeyCopyFromReq pThis pReq cbKey pvKey = (0, pvKey).
Proof.
  unfold req_key_fn, pspDevCcpKeyCopyFromReq.
  destruct (_ =? CCP_V5_MEM_TYPE_LOCAL); [discriminate|].
  by destruct (_ =? CCP_V5_MEM_TYPE_SB).
Qed.

Lemma pspDevCcpKeyCopyFromReq_copy pThis pReq cbKey (pvKey pvKey' : list byte) fn :
  req_key_fn pReq = Some fn ->
  req_wf pReq ->
  0 <= cbKey <= Z.of_nat (length pvKey) -> cbKey < 2 ^ 32 ->
  length (Lsb pThis) = 4096%nat ->
  pspDevCcpKeyCopyFromReq pThis pReq cbKey pvKey = (0, pvKey') ->
  take (Z.to_nat cbKey) pvKey' = xfer_peek fn pThis (req_key_addr pReq) cbKey.
Proof.
  intros Hfn Hwf Hcb Hcb32 Hlen.
  destruct Hwf as (_ & _ & _ & _ & _ & HKl & HKh).
  pose proof (CCP_ADDR_bound _ _ HKh HKl) as HK. fold (req_key_addr pReq) in HK.
  unfold req_key_fn in Hfn. unfold pspDevCcpKeyCopyFromReq. fold (req_key_addr pReq).
  assert (Hdata : forall data,
            call_pfnRead fn pThis (req_key_addr pReq) cbKey = Some data ->
            take (Z.to_nat cbKey) (list_inserts 0 data pvKey)
            = xfer_peek fn pThis (req_key_addr pReq) cbKey).
  { intros data Hread.
    apply call_pfnRead_peek in Hread; [|lia..|done]. subst data.
    rewrite <- (xfer_peek_length fn pThis (req_key_addr pReq) cbKey) at 1.
    apply take_list_inserts_0. rewrite xfer_peek_length. lia. }
  destruct (_ =? CCP_V5_MEM_TYPE_LOCAL).
  - injection Hfn as <-.
    destruct (pspDevCcpXferMemLocalRead _ _ _) as [data|] eqn:Hread; [|discriminate].
    intros [= <-]. by apply Hdata.
  - destruct (_ =? CCP_V5_MEM_TYPE_SB); [|discriminate]. injection Hfn as <-.
    destruct (_ && _) eqn:Hin; [|discriminate].
    intros [= <-]. apply Hdata. simpl. unfold pspDevCcpXferMemLsbRead. by rewrite Hin.
Qed.

(** What a write leaves in the window it went to. *)
Lemma xfer_written_peek fn pThis a n (data : list byte) pThis' :
  xfer_written fn pThis a n data pThis' ->
  Z.to_nat n = length data ->
  xfer_peek fn pThis' a n = data.
Proof.
  intros (Hin & _) Hn. apply list_eq. intros i.
  destruct (decide (i < length data)%nat) as [Hi|Hi].
  - rewrite xfer_peek_lookup by lia. rewrite Hin by lia.
    unfold byte_at. rewrite Nat2Z.id.
    by destruct (lookup_lt_is_Some_2 data i Hi) as [b ->].
  - rewrite !lookup_ge_None_2; [done|lia|]. rewrite xfer_peek_length. lia.
Qed.

(** The RSA request the code accepts.  The mode is 0 and the size 256 with
    512 source bytes or 512 with 1024; the destination receives, little
    endian on as many bytes as the size, the message to the power of the
    exponent modulo the modulus, with the modulus and the message the
    little-endian halves of the source and the exponent the little-endian
    first half of the key.  The key is what the key address holds in PSP
    memory or in the storage buffer for a key of memory type LOCAL or SB;
    for any other key memory type it is what the automatic array [abExp]
    held on entry. *)
Lemma rsa_process_result pThis pReq uFunc fInit fEom (abExp : list byte) pThis' :
  req_wf pReq ->
  length (Lsb pThis) = 4096%nat ->
  length abExp = 512%nat ->
  pspDevCcpReqRsaProcess pThis pReq uFunc fInit fEom abExp = (0, pThis') ->
  let uSz := u16 (CCP_V5_ENGINE_RSA_SZ_GET uFunc) in
  let uMode := u8 (CCP_V5_ENGINE_RSA_MODE_GET uFunc) in
  let key := match req_key_fn pReq with
             | Some fn => xfer_peek fn pThis (req_key_addr pReq) uSz
             | None => abExp
             end in
  let src := req_src_window pThis pReq in
  (uMode = 0 /\ ((uSz = 256 /\ cbSrc pReq = 512) \/ (uSz = 512 /\ cbSrc pReq = 1024))) /\
  req_dst_window pThis' pReq uSz
  = Z_to_le (Z.to_nat uSz)
      (le_to_Z (drop (Z.to_nat uSz) src) ^ le_to_Z (take (Z.to_nat (uSz / 2)) key)
       mod le_to_Z (take (Z.to_nat uSz) src)).
Proof.
  intros Hwf Hlen Hexp Hproc uSz uMode key src.
  pose proof Hwf as (Hcb & HSl & HSh & HDl & HDh & _).
  pose proof (CCP_ADDR_bound _ _ HSh HSl) as HS. fold (req_src_addr pReq) in HS.
  pose proof (CCP_ADDR_bound _ _ HDh HDl) as HD. fold (req_dst_addr pReq) in HD.
  unfold pspDevCcpReqRsaProcess in Hproc. fold uSz uMode in Hproc.
  destruct (_ && _) eqn:Hsup; [|discriminate].
  assert (Hacc : uMode = 0
                 /\ ((uSz = 256 /\ cbSrc pReq = 512) \/ (uSz = 512 /\ cbSrc pReq = 1024))).
  { apply andb_true_iff in Hsup as [H1 H2]. apply Z.eqb_eq in H1. split; [done|].
    apply orb_true_iff in H2 as [[H2 H3]%andb_true_iff|[H2 H3]%andb_true_iff];
      apply Z.eqb_eq in H2, H3; auto. }
  split; [done|].
  assert (Hsz : cbSrc pReq = 2 * uSz /\ 0 < uSz <= 512)
    by (destruct Hacc as (_ & [[-> ->]|[-> ->]]); lia).
  destruct Hsz as [Hsrc Hsz]. clear Hsup Hacc.
  replace (cbSrc pReq / 2) with uSz in Hproc
    by (by rewrite Hsrc, Z.mul_comm, Z.div_mul).
  destruct (pspDevCcpKeyCopyFromReq _ _ _ _) as [rc abExp'] eqn:Hkey.
  destruct (Z.eqb_spec rc 0) as [->|]; [|by injection Hproc].
  assert (Hhalf : 0 <= uSz / 2 <= uSz)
    by (split; [apply Z.div_pos | apply Z.div_le_upper_bound]; lia).
  assert (Hk : take (Z.to_nat (uSz / 2)) abExp' = take (Z.to_nat (uSz / 2)) key).
  { unfold key. destruct (req_key_fn pReq) as [fn|] eqn:Hfn.
    - apply pspDevCcpKeyCopyFromReq_copy with (fn := fn) in Hkey; [|done|done|lia..|done].
      rewrite <- Hkey, take_take. f_equal. lia.
    - rewrite pspDevCcpKeyCopyFromReq_skip in Hkey by done. by injection Hkey as <-. }
  rewrite Hk in Hproc. clear Hkey Hk.
  destruct (pspDevCcpXferCtxInit _ _ _ _ _) as [pThis1 [pCtx|]] eqn:Hinit; [|discriminate].
  apply pspDevCcpXferCtxInit_non_sha in Hinit as (-> & rfn & wfn & Hrfn & Hwfn & ->).
  destruct (pspDevCcpXferCtxRead _ _ _ _) as [[pCtx1 abData]|] eqn:Hread; [|discriminate].
  apply pspDevCcpXferCtxRead_peek in Hread as (_ & Hdata & ->); ctx_simpl; [|lia..|done].
  ctx_simpl in Hdata. rewrite xfer_peek_set_cbWrittenLast in Hdata.
  assert (Hsrcw : abData = src) by (unfold src, req_src_window; by rewrite Hrfn).
  clear Hdata. subst abData.
  assert (Hsl : length src = Z.to_nat (2 * uSz)).
  { unfold src, req_src_window. by rewrite Hrfn, xfer_peek_length, Hsrc. }
  rewrite pspDevCcpReverseBuf_whole in Hproc by (rewrite length_drop; lia).
  rewrite (take_ge (reverse _)) in Hproc by (rewrite length_reverse, length_drop; lia).
  destruct (RSA_public_encrypt _ _ _) as [abResult|] eqn:Hrsa; [|discriminate].
  apply RSA_public_encrypt_spec in Hrsa.
  rewrite be_to_Z_reverse, length_reverse, length_drop in Hrsa.
  replace (length src - Z.to_nat uSz)%nat with (Z.to_nat uSz) in Hrsa by lia.
  destruct (Z.eqb_spec (Z.of_nat (length abResult)) uSz) as [Hrl|]; [|discriminate].
  rewrite pspDevCcpReverseBuf_whole in Hproc by lia.
  destruct (pspDevCcpXferCtxWrite _ _ _ _ _) as [[rc pThisW] pCtx2] eqn:Hwrite.
  injection Hproc as -> ->.
  apply pspDevCcpXferCtxWrite_written in Hwrite as (_ & Hw & _); ctx_simpl;
    [|done|lia..| |done].
  - ctx_simpl in Hw. apply xfer_written_peek in Hw.
    + unfold req_dst_window. rewrite Hwfn, Hw, Hrsa. unfold Z_to_be.
      by rewrite reverse_involutive.
    + rewrite length_reverse. lia.
  - rewrite length_reverse. lia.
Qed.

End RsaProperties.

(** * Further properties *)

(** ** Byte strings and integers *)

Lemma byte_to_Z_range b : 0 <= byte_to_Z b < 256.
Proof.
  unfold byte_to_Z. pose proof (Byte.to_N_bounded b). lia.
Qed.

Lemma byte_of_to_Z b x : byte_of_Z (byte_to_Z b + 256 * x) = b.
Proof.
  unfold byte_of_Z, u8. pose proof (byte_to_Z_range b).
  replace (byte_to_Z b + 256 * x) with (byte_to_Z b + x * 2 ^ 8) by lia.
  rewrite Z.mod_add by lia. rewrite Z.mod_small by lia.
  unfold byte_to_Z. rewrite N2Z.id. by rewrite Byte.of_to_N.
Qed.

Lemma byte_to_of_Z z : byte_to_Z (byte_of_Z z) = z mod 256.
Proof.
  unfold byte_of_Z, byte_to_Z, u8. change (2 ^ 8) with 256.
  assert (H : 0 <= z mod 256 < 256) by (apply Z.mod_pos_bound; lia).
  destruct (Byte.of_N (Z.to_N (z mod 256))) as [b|] eqn:E.
  - apply Byte.to_of_N in E. rewrite E. lia.
  - apply Byte.of_N_None_iff in E. lia.
Qed.

(** Writing an integer read from a byte string back on as many bytes gives
    the string. *)
Lemma Z_to_le_to_Z (l : list byte) : Z_to_le (length l) (le_to_Z l) = l.
Proof.
  induction l as [|b l IH]; simpl; [done|].
  rewrite byte_of_to_Z. f_equal.
  pose proof (byte_to_Z_range b).
  replace (byte_to_Z b + 256 * le_to_Z l) with (byte_to_Z b + le_to_Z l * 256) by lia.
  rewrite Z.div_add by lia. rewrite Z.div_small by lia. done.
Qed.

(** Reading back an integer written on [n] bytes gives it modulo
    [2 ^ (8 n)]. *)
Lemma le_to_Z_to_le (n : nat) z : le_to_Z (Z_to_le n z) = z mod 2 ^ (8 * Z.of_nat n).
Proof.
  revert z. induction n as [|n IH]; intros z; simpl Z_to_le; simpl le_to_Z.
  - by rewrite Z.mod_1_r.
  - rewrite IH, byte_to_of_Z.
    replace (8 * Z.of_nat (S n)) with (8 + 8 * Z.of_nat n) by lia.
    rewrite Z.pow_add_r by lia. change (2 ^ 8) with 256.
    rewrite Z.rem_mul_r by lia. lia.
Qed.

Lemma le_to_Z_range (l : list byte) : 0 <= le_to_Z l < 2 ^ (8 * Z.of_nat (length l)).
Proof.
  induction l as [|b l IH]; simpl le_to_Z; simpl length; [simpl; lia|].
  pose proof (byte_to_Z_range b).
  replace (8 * Z.of_nat (S (length l))) with (8 + 8 * Z.of_nat (length l)) by lia.
  rewrite Z.pow_add_r by lia. lia.
Qed.

Lemma list_inserts_0_whole (k l : list byte) : length k = length l -> list_inserts 0 k l = k.
Proof.
  intros Hlen. apply list_eq. intros i.
  destruct (decide (i < length k)%nat) as [Hi|Hi].
  - rewrite list_lookup_inserts by lia. f_equal. lia.
  - rewrite !lookup_ge_None_2; [done|lia|]. rewrite length_inserts. lia.
Qed.

(** ** More on the queue executor and the MMIO front-end *)

Section ExecutorFurther.
Context `{hdr : CcpHdr} {Ext : Type} `{env : !CcpEnv Ext}.
Implicit Types (pThis : PSPDEVCCP Ext) (pQueue : CCPQUEUE) (uQueue : nat).

Lemma queue_drain_length fuel pThis uQueue tail h pThis' h' :
  queue_drain fuel pThis uQueue tail h = Some (pThis', h') ->
  length (aQueues pThis') = length (aQueues pThis).
Proof.
  revert pThis h. induction fuel as [|fuel IH]; intros pThis h; simpl.
  - destruct (tail =? h); [|discriminate]. by intros [= <- <-].
  - destruct (tail =? h); [by intros [= <- <-]|].
    destruct (queue_drain_step pThis uQueue h) as [[pThis1 h1]|pThis1] eqn:Hstep.
    + intros Hd. apply IH in Hd. rewrite Hd.
      apply queue_drain_step_next in Hstep as (_ & -> & _). apply length_alter.
    + intros [= <- <-].
      apply queue_drain_step_stop in Hstep as (-> & _). apply length_alter.
Qed.

Lemma queue_irq_maybe_queues uQueue pThis :
  aQueues (queue_irq_maybe uQueue pThis) = aQueues pThis
  /\ Core (queue_irq_maybe uQueue pThis) = Core pThis.
Proof. by destruct (queue_irq_maybe_cases uQueue pThis) as [-> | ->]. Qed.

(** What a call of the executor leaves alone: the other queue, the number
    of queues and, of its own queue, the tail, the interrupt enable and the
    enable flag; a queue that is not enabled, and the rest of the device
    with it, is left as it is. *)
Lemma queue_run_frame fuel pThis uQueue pThis' :
  pspDevCcpQueueRunMaybe fuel pThis uQueue = Some pThis' ->
  length (aQueues pThis') = length (aQueues pThis) /\
  (forall j, uQueue <> j -> aQueues pThis' !! j = aQueues pThis !! j) /\
  (forall q, aQueues pThis !! uQueue = Some q ->
     exists q',
       aQueues pThis' !! uQueue = Some q' /\
       u32RegReqTail q' = u32RegReqTail q /\ u32RegIen q' = u32RegIen q /\
       fEnabled q' = fEnabled q /\
       (fEnabled q = false -> q' = q /\ Core pThis' = Core pThis) /\
       (fEnabled q = true ->
        u32RegCtrl q'
        = Z.lor (and_not (u32RegCtrl q) CCP_V5_Q_REG_CTRL_HALT) CCP_V5_Q_REG_CTRL_HALT)).
Proof.
  unfold pspDevCcpQueueRunMaybe.
  destruct (aQueues pThis !! uQueue) as [q|] eqn:Hq.
  2: { intros [= <-]. simpl. split; [done|]. split; [done|]. by intros q. }
  destruct (fEnabled q) eqn:Hen.
  2: { intros [= <-]. simpl. split; [done|]. split; [done|].
       intros q0 [= <-]. exists q. rewrite Hen. by repeat split. }
  destruct (queue_drain _ _ _ _ _) as [[pThis2 h]|] eqn:Hdrain; [|discriminate].
  intros [= <-].
  set (q1 := set_u32RegCtrl (and_not (u32RegCtrl q) CCP_V5_Q_REG_CTRL_HALT) q).
  assert (Hq1 : aQueues (queue_run_enter pThis uQueue) !! uQueue = Some q1).
  { unfold queue_run_enter. by rewrite lookup_upd_queue; simpl; rewrite Hq. }
  destruct (queue_drain_inv _ _ _ _ _ _ _ _ Hdrain Hq1)
    as ((q2 & Hq2 & Hfr & _) & Hother & _).
  destruct Hfr as (Hctrl & Htail & Hhead & Hien & Hfen & _).
  destruct (queue_irq_maybe_queues uQueue
              (upd_queue (queue_halt (u32RegReqTail q) h) uQueue pThis2)) as [-> _].
  split; [|split].
  - simpl. rewrite length_alter. rewrite (queue_drain_length _ _ _ _ _ _ _ Hdrain).
    unfold queue_run_enter. simpl. apply length_alter.
  - intros j Hj. rewrite lookup_upd_queue_ne by done. rewrite Hother by done.
    unfold queue_run_enter. by rewrite lookup_upd_queue_ne.
  - intros q0 [= <-]. exists (queue_halt (u32RegReqTail q) h q2).
    rewrite lookup_upd_queue, Hq2. split; [done|].
    unfold queue_halt. destruct (_ =? _); simpl; rewrite ?Htail, ?Hien, ?Hfen, ?Hctrl;
      repeat split; try done; intros; congruence.
Qed.

(** After at least one iteration that went on, the queue holds the status
    SUCCESS and the COMPLETION bit. *)
Lemma drain_reaches_success uQueue tail n pThis h pThis' h' q :
  drain_reaches uQueue tail n pThis h pThis' h' ->
  aQueues pThis !! uQueue = Some q ->
  exists q',
    aQueues pThis' !! uQueue = Some q' /\ drain_frame q q' /\
    ((0 < n)%nat ->
     u32RegSts q' = CCP_V5_Q_REG_STATUS_SUCCESS /\
     Z.land (u32RegIsts q') CCP_V5_Q_REG_ISTS_COMPLETION = CCP_V5_Q_REG_ISTS_COMPLETION) /\
    (n = 0%nat -> q' = q).
Proof.
  intros H. revert q.
  induction H as [|n pThis h pThis1 h1 pThis' h' Hne Hstep Hreach IH]; intros q Hq.
  - exists q. split; [done|]. split; [apply drain_frame_refl|]. split; [lia|done].
  - apply queue_drain_step_next in Hstep as (_ & Hqs & _).
    assert (Hq1 : aQueues pThis1 !! uQueue = Some (queue_signal_success q))
      by (by rewrite Hqs, list_lookup_alter_eq, Hq).
    destruct (IH _ Hq1) as (q' & Hq' & Hfr & Hpos & Hzero).
    exists q'. split; [done|].
    split; [eapply drain_frame_trans; [apply drain_frame_success|done]|].
    split; [|lia]. intros _.
    destruct n as [|n].
    + rewrite (Hzero eq_refl). simpl. split; [done|]. apply lor_has_bits.
    + apply Hpos. lia.
Qed.

(** The drain loop goes through a ring whose descriptors all succeed as
    [ring_process] does. *)
Lemma ring_process_reaches uQueue tail (n : nat) pThis h coreEnd :
  ring_process n tail (Core pThis) h = Some coreEnd ->
  exists pThisEnd,
    drain_reaches uQueue tail n pThis h pThisEnd tail /\ Core pThisEnd = coreEnd.
Proof.
  revert pThis h. induction n as [|n IH]; intros pThis h; simpl.
  - destruct (Z.eqb_spec tail h) as [->|Hne]; [|discriminate].
    intros [= <-]. exists pThis. split; [constructor|done].
  - destruct (Z.eqb_spec tail h) as [|Hne]; [discriminate|].
    destruct (PSPEmuIoMgrPspAddrRead _ _ _) as [bytes|] eqn:Hread; [|discriminate].
    destruct (pspDevCcpReqProcess _ _) as [rc core'] eqn:Hproc.
    destruct (Z.eqb_spec rc 0) as [->|Hrc]; [|discriminate].
    intros Hrest.
    set (pThis1 := upd_queue queue_signal_success uQueue (set_Core core' pThis)).
    assert (Hstep : queue_drain_step pThis uQueue h = inl (pThis1, u32 (h + 32))).
    { unfold queue_drain_step. change sizeof_Req with 32. by rewrite Hread, Hproc. }
    destruct (IH pThis1 (u32 (h + 32)) Hrest) as (pThisEnd & Hreach & Hcore).
    exists pThisEnd. split; [|done]. by eapply drain_reaches_next.
Qed.

(** X1.  A ring whose descriptors all succeed is drained to its end: the queue
    executor processes them in order, each on the core the one before it
    left, and returns with that core, the head register at the tail, HALT,
    Q_STOP and Q_EMPTY set and, when there was a descriptor at all, the
    status SUCCESS and the COMPLETION bit. *)
Theorem queue_run_drains fuel pThis uQueue q (n : nat) coreEnd :
  aQueues pThis !! uQueue = Some q ->
  fEnabled q = true ->
  ring_process n (u32RegReqTail q) (Core pThis) (u32RegReqHead q) = Some coreEnd ->
  (n <= fuel)%nat ->
  exists pThis' q',
    pspDevCcpQueueRunMaybe fuel pThis uQueue = Some pThis' /\
    aQueues pThis' !! uQueue = Some q' /\
    Core pThis' = coreEnd /\
    u32RegReqHead q' = u32RegReqTail q /\ u32RegReqTail q' = u32RegReqTail q /\
    Z.land (u32RegCtrl q') CCP_V5_Q_REG_CTRL_HALT = CCP_V5_Q_REG_CTRL_HALT /\
    Z.land (u32RegIsts q') CCP_V5_Q_REG_ISTS_Q_STOP = CCP_V5_Q_REG_ISTS_Q_STOP /\
    Z.land (u32RegIsts q') CCP_V5_Q_REG_ISTS_Q_EMPTY = CCP_V5_Q_REG_ISTS_Q_EMPTY /\
    ((0 < n)%nat ->
     u32RegSts q' = CCP_V5_Q_REG_STATUS_SUCCESS /\
     Z.land (u32RegIsts q') CCP_V5_Q_REG_ISTS_COMPLETION = CCP_V5_Q_REG_ISTS_COMPLETION).
Proof.
  intros Hq Hen Hring Hfuel.
  destruct (ring_process_reaches uQueue (u32RegReqTail q) n
              (queue_run_enter pThis uQueue) (u32RegReqHead q) coreEnd Hring)
    as (pThisEnd & Hreach & HcoreEnd).
  set (q1 := set_u32RegCtrl (and_not (u32RegCtrl q) CCP_V5_Q_REG_CTRL_HALT) q).
  assert (Hq1 : aQueues (queue_run_enter pThis uQueue) !! uQueue = Some q1).
  { unfold queue_run_enter. by rewrite lookup_upd_queue; simpl; rewrite Hq. }
  destruct (drain_reaches_success _ _ _ _ _ _ _ _ Hreach Hq1)
    as (q2 & Hq2 & Hfr & Hpos & _).
  destruct Hfr as (_ & Htail & _).
  unfold pspDevCcpQueueRunMaybe. rewrite Hq, Hen.
  replace fuel with (n + (fuel - n))%nat by lia.
  rewrite (queue_drain_reaches _ _ _ _ _ _ _ _ Hreach).
  assert (Hend : queue_drain (fuel - n) pThisEnd uQueue (u32RegReqTail q) (u32RegReqTail q)
                 = Some (pThisEnd, u32RegReqTail q)).
  { destruct (fuel - n)%nat; simpl; by rewrite Z.eqb_refl. }
  rewrite Hend.
  set (q3 := queue_halt (u32RegReqTail q) (u32RegReqTail q) q2).
  destruct (queue_irq_maybe_queues uQueue
              (upd_queue (queue_halt (u32RegReqTail q) (u32RegReqTail q)) uQueue pThisEnd))
    as [Hqs Hcore].
  eexists _, q3. split; [reflexivity|]. rewrite Hqs, Hcore.
  split; [by rewrite lookup_upd_queue, Hq2|]. split; [done|].
  unfold q3, queue_halt. rewrite Z.eqb_refl. simpl.
  split; [done|]. split; [done|].
  split; [apply lor_has_bits|].
  split; [apply has_bits_lor, lor_has_bits|].
  split; [apply lor_has_bits|].
  intros Hn. destruct (Hpos Hn) as [Hs Hc]. split; [done|].
  by apply has_bits_lor, has_bits_lor.
Qed.

(** X2.  A descriptor that cannot be read from PSP memory ends the run like one
    that fails: the read is logged, the status is ERROR, the ERROR bit is
    set, the head register holds the address of that descriptor and the
    rest of the device is as the requests before it left it. *)
Theorem queue_run_unreadable fuel pThis uQueue q (n : nat) pThisAt h :
  aQueues pThis !! uQueue = Some q ->
  fEnabled q = true ->
  drain_reaches uQueue (u32RegReqTail q) n
    (queue_run_enter pThis uQueue) (u32RegReqHead q) pThisAt h ->
  u32RegReqTail q <> h ->
  PSPEmuIoMgrPspAddrRead (hIoMgr (Core pThisAt)) h sizeof_Req = None ->
  (n < fuel)%nat ->
  exists pThis' q',
    pspDevCcpQueueRunMaybe fuel pThis uQueue = Some pThis' /\
    aQueues pThis' !! uQueue = Some q' /\
    u32RegSts q' = CCP_V5_Q_REG_STATUS_ERROR /\
    Z.land (u32RegIsts q') CCP_V5_Q_REG_ISTS_ERROR = CCP_V5_Q_REG_ISTS_ERROR /\
    u32RegReqHead q' = h /\
    Core pThis' = Core pThisAt /\
    EvPrintf (MsgReqReadFailed h) ∈ Trace pThis'.
Proof.
  intros Hq Hen Hreach Hne Hread Hfuel.
  set (q1 := set_u32RegCtrl (and_not (u32RegCtrl q) CCP_V5_Q_REG_CTRL_HALT) q).
  assert (Hq1 : aQueues (queue_run_enter pThis uQueue) !! uQueue = Some q1).
  { unfold queue_run_enter. by rewrite lookup_upd_queue; simpl; rewrite Hq. }
  destruct (drain_reaches_success _ _ _ _ _ _ _ _ Hreach Hq1) as (q2 & Hq2 & _).
  unfold pspDevCcpQueueRunMaybe. rewrite Hq, Hen.
  replace fuel with (n + S (fuel - S n))%nat by lia.
  rewrite (queue_drain_reaches _ _ _ _ _ _ _ _ Hreach). simpl.
  destruct (Z.eqb_spec (u32RegReqTail q) h) as [|_]; [done|].
  unfold queue_drain_step. rewrite Hread.
  match goal with |- context [queue_irq_maybe uQueue ?d] =>
    destruct (queue_irq_maybe_queues uQueue d) as [Hqs Hcore];
    assert (Htr : EvPrintf (MsgReqReadFailed h) ∈ Trace (queue_irq_maybe uQueue d))
      by (destruct (queue_irq_maybe_cases uQueue d) as [-> | ->]; simpl; set_solver)
  end.
  eexists _, _. split; [reflexivity|]. rewrite Hqs, Hcore.
  split; [rewrite !lookup_upd_queue; simpl; rewrite Hq2; reflexivity|].
  split; [unfold queue_halt; by destruct (_ =? h)|].
  split.
  { unfold queue_halt; destruct (_ =? h); simpl.
    - by apply has_bits_lor, has_bits_lor, lor_has_bits.
    - by apply has_bits_lor, lor_has_bits. }
  split; [unfold queue_halt; by destruct (_ =? h)|].
  by split.
Qed.

(** The switch of pspDevCcpMmioQueueRegWrite changes the queue it is handed
    and nothing else of the device; a control write leaves the enable flag
    at the RUN bit of the value written. *)
Lemma queue_reg_write_queues offRegQ u32Val uQueue pThis :
  aQueues (queue_reg_write offRegQ u32Val uQueue pThis)
  = alter (queue_reg_store offRegQ u32Val) uQueue (aQueues pThis)
  /\ Core (queue_reg_write offRegQ u32Val uQueue pThis) = Core pThis.
Proof.
  unfold queue_reg_write, queue_reg_store.
  destruct (offRegQ =? CCP_V5_Q_REG_CTRL).
  { split; [|done]. simpl. apply list_alter_ext; [|done]. intros q _.
    destruct q as [c t h s i ists en]. simpl.
    by destruct (nonzero _), en. }
  destruct (offRegQ =? CCP_V5_Q_REG_HEAD); [by split|].
  destruct (offRegQ =? CCP_V5_Q_REG_TAIL); [by split|].
  destruct (offRegQ =? CCP_V5_Q_REG_STATUS); [by split|].
  destruct (offRegQ =? CCP_V5_Q_REG_IEN); [by split|].
  destruct (offRegQ =? CCP_V5_Q_REG_ISTS); [|split; [by rewrite list_alter_id|done]].
  unfold queue_ists_write.
  match goal with |- context [aQueues ?d !! uQueue] => destruct (aQueues d !! uQueue) end;
    [destruct (negb _)|]; by split.
Qed.

Lemma land_and_not_same x m : Z.land (and_not x m) m = 0.
Proof.
  unfold and_not. apply Z.bits_inj'. intros n Hn.
  rewrite !Z.land_spec, Z.lnot_spec, Z.bits_0 by done. by destruct (Z.testbit m n), (Z.testbit x n).
Qed.

Lemma land_and_not_other x m k : Z.land x k = 0 -> Z.land (and_not x m) k = 0.
Proof.
  unfold and_not. intros H. apply Z.bits_inj'. intros n Hn.
  apply (f_equal (fun z => Z.testbit z n)) in H.
  rewrite Z.land_spec, Z.bits_0 in H.
  rewrite !Z.land_spec, Z.lnot_spec, Z.bits_0 by done.
  destruct (Z.testbit x n), (Z.testbit k n); simpl in *; try done.
  by rewrite andb_false_r.
Qed.

(** X3.  The RUN bit is never stored.  In every state the guest can bring about
    the device has its two queues and the control register of each has the
    RUN bit clear: a guest that polls the control register never reads RUN,
    whatever it wrote. *)
Theorem reachable_run_bit_clear pThis :
  Z.land CCP_V5_Q_REG_CTRL_HALT CCP_V5_Q_REG_CTRL_RUN = 0 ->
  reachable pThis ->
  length (aQueues pThis) = 2%nat /\
  Forall (fun q => Z.land (u32RegCtrl q) CCP_V5_Q_REG_CTRL_RUN = 0) (aQueues pThis).
Proof.
  intros Hbits Hreach.
  set (P := fun q => Z.land (u32RegCtrl q) CCP_V5_Q_REG_CTRL_RUN = 0).
  assert (Hrun : forall fuel d uQueue d',
            pspDevCcpQueueRunMaybe fuel d uQueue = Some d' ->
            length (aQueues d) = 2%nat /\ Forall P (aQueues d) ->
            length (aQueues d') = 2%nat /\ Forall P (aQueues d')).
  { intros fuel d uQueue d' Hr [Hlen Hall].
    destruct (queue_run_frame _ _ _ _ Hr) as (Hl & Hother & Hown).
    split; [congruence|]. apply Forall_lookup. intros j x Hx.
    destruct (decide (uQueue = j)) as [<-|Hj].
    - destruct (aQueues d !! uQueue) as [q|] eqn:Hq.
      + destruct (Hown q eq_refl) as (q' & Hq' & _ & _ & _ & Hoff & Hon).
        assert (x = q') as -> by congruence.
        pose proof (Forall_lookup_1 _ _ _ _ Hall Hq) as HP. unfold P in *.
        destruct (fEnabled q) eqn:Hen.
        * rewrite (Hon eq_refl), lor_keeps_other_bits by done.
          by apply land_and_not_other.
        * by destruct (Hoff eq_refl) as [-> _].
      + apply lookup_ge_None in Hq. apply lookup_lt_Some in Hx. lia.
    - rewrite Hother in Hx by done. eapply Forall_lookup_1; eauto. }
  induction Hreach as [d Hlen _ | fuel d offMmio cbRead pvDst pvDst' d' _ IH Hrd
                      | fuel d offMmio cbWrite pvVal d' _ IH Hwr].
  - simpl. rewrite length_fmap. split; [done|].
    apply Forall_fmap, Forall_forall. intros q _. simpl. done.
  - unfold pspDevCcpMmioRead in Hrd.
    destruct (negb _); [by injection Hrd as _ <-|].
    destruct (_ <=? _); [|by injection Hrd as _ <-].
    destruct (_ <? _); [|by injection Hrd as _ <-].
    unfold pspDevCcpMmioQueueRegRead in Hrd.
    destruct (pspDevCcpQueueRunMaybe _ _ _) as [d1|] eqn:Hr; [|discriminate].
    injection Hrd as _ <-. by eapply Hrun.
  - unfold pspDevCcpMmioWrite in Hwr.
    destruct (negb _); [by injection Hwr as <-|].
    destruct (_ <=? _); [|by injection Hwr as <-].
    destruct (_ <? _); [|by injection Hwr as <-].
    unfold pspDevCcpMmioQueueRegWrite in Hwr.
    match type of Hwr with context [queue_reg_write ?o ?v ?u d] =>
      destruct (queue_reg_write_queues o v u d) as [Hqs _];
      set (d1 := queue_reg_write o v u d) in *;
      assert (Hd1 : length (aQueues d1) = 2%nat /\ Forall P (aQueues d1)) end.
    { destruct IH as [Hlen Hall]. rewrite Hqs, length_alter. split; [done|].
      apply Forall_alter; [done|]. intros q _ HP. unfold P, queue_reg_store in *.
      destruct (_ =? CCP_V5_Q_REG_CTRL); [apply land_and_not_same|].
      destruct (_ =? CCP_V5_Q_REG_HEAD); [done|].
      destruct (_ =? CCP_V5_Q_REG_TAIL); [done|].
      destruct (_ =? CCP_V5_Q_REG_STATUS); [done|].
      destruct (_ =? CCP_V5_Q_REG_IEN); [done|].
      by destruct (_ =? CCP_V5_Q_REG_ISTS). }
    destruct (aQueues d1 !! _); [|by injection Hwr as <-].
    destruct (nonzero _); [by eapply Hrun|by injection Hwr as <-].
Qed.

Ltac q_reg_cases :=
  let H := fresh in
  pose proof q_reg_labels as H;
  rewrite !NoDup_cons, !not_elem_of_cons in H;
  repeat match goal with
         | |- context [?a =? ?b] => destruct (Z.eqb_spec a b); [try (exfalso; intuition congruence)|]
         end;
  try done; try (exfalso; intuition congruence).

Lemma queue_reg_read_cases q :
  queue_reg_read CCP_V5_Q_REG_HEAD q = u32RegReqHead q /\
  queue_reg_read CCP_V5_Q_REG_TAIL q = u32RegReqTail q /\
  queue_reg_read CCP_V5_Q_REG_STATUS q = u32RegSts q /\
  queue_reg_read CCP_V5_Q_REG_IEN q = u32RegIen q.
Proof. unfold queue_reg_read. repeat split; q_reg_cases. Qed.

Lemma queue_reg_store_cases v q :
  queue_reg_store CCP_V5_Q_REG_HEAD v q = set_u32RegReqHead v q /\
  queue_reg_store CCP_V5_Q_REG_TAIL v q = set_u32RegReqTail v q /\
  queue_reg_store CCP_V5_Q_REG_STATUS v q = set_u32RegSts v q /\
  queue_reg_store CCP_V5_Q_REG_IEN v q = set_u32RegIen v q.
Proof. unfold queue_reg_store. repeat split; q_reg_cases. Qed.

(** The register a 32-bit write to a queue leaves for the next read: for
    the tail and the interrupt enable the value written, whatever the
    executor did in between; for the head and the status too when the queue
    is not enabled. *)
Lemma queue_reg_write_then_read fuel pThis uQueue offRegQ q v pThis1 :
  aQueues pThis !! uQueue = Some q ->
  offRegQ = CCP_V5_Q_REG_TAIL \/ offRegQ = CCP_V5_Q_REG_IEN
  \/ ((offRegQ = CCP_V5_Q_REG_HEAD \/ offRegQ = CCP_V5_Q_REG_STATUS) /\ fEnabled q = false) ->
  pspDevCcpMmioQueueRegWrite fuel pThis uQueue offRegQ v = Some pThis1 ->
  exists q1, aQueues pThis1 !! uQueue = Some q1 /\ queue_reg_read offRegQ q1 = v.
Proof.
  intros Hq Hoff Hwr. unfold pspDevCcpMmioQueueRegWrite in Hwr.
  destruct (queue_reg_write_queues offRegQ v uQueue pThis) as [Hqs _].
  set (d1 := queue_reg_write offRegQ v uQueue pThis) in *.
  assert (Hq1 : aQueues d1 !! uQueue = Some (queue_reg_store offRegQ v q))
    by (by rewrite Hqs, list_lookup_alter_eq, Hq).
  rewrite Hq1 in Hwr.
  destruct (queue_reg_read_cases (queue_reg_store offRegQ v q)) as (Rh & Rt & Rs & Ri).
  destruct (queue_reg_store_cases v q) as (Sh & St & Ss & Si).
  assert (Hnow : queue_reg_read offRegQ (queue_reg_store offRegQ v q) = v).
  { destruct Hoff as [->|[->|[[->| ->] _]]].
    - by rewrite Rt, St. - by rewrite Ri, Si. - by rewrite Rh, Sh. - by rewrite Rs, Ss. }
  destruct (nonzero _); [|injection Hwr as <-; eauto].
  destruct (queue_run_frame _ _ _ _ Hwr) as (_ & _ & Hown).
  destruct (Hown _ Hq1) as (q1 & Hq1' & Htail & Hien & _ & Hdis & _).
  exists q1. split; [done|].
  destruct (queue_reg_read_cases q1) as (_ & Rt1 & _ & Ri1).
  destruct Hoff as [->|[->|[Hhs Hen]]].
  - rewrite Rt1, Htail, <- Rt. done.
  - rewrite Ri1, Hien, <- Ri. done.
  - assert (Hen1 : fEnabled (queue_reg_store offRegQ v q) = false).
    { destruct Hhs as [-> | ->]; [by rewrite Sh|by rewrite Ss]. }
    by destruct (Hdis Hen1) as [-> _].
Qed.

(** X4.  Register round trip.  The four bytes written to the tail or to the
    interrupt enable register of a queue are the four bytes the next read
    of that register returns, whatever the executor did in between; the
    same holds for the head and the status register of a queue that is not
    enabled. *)
Theorem mmio_register_round_trip fuel pThis offMmio uQueue offRegQ q
    (pvVal pvDst : list byte) pThis1 :
  CCP_V5_Q_OFFSET <= offMmio ->
  u32 (offMmio - CCP_V5_Q_OFFSET) / CCP_V5_Q_SIZE < ELEMENTS_aQueues ->
  uQueue = Z.to_nat (u32 (offMmio - CCP_V5_Q_OFFSET) / CCP_V5_Q_SIZE) ->
  offRegQ = u32 (offMmio - CCP_V5_Q_OFFSET) mod CCP_V5_Q_SIZE ->
  aQueues pThis !! uQueue = Some q ->
  offRegQ = CCP_V5_Q_REG_TAIL \/ offRegQ = CCP_V5_Q_REG_IEN
  \/ ((offRegQ = CCP_V5_Q_REG_HEAD \/ offRegQ = CCP_V5_Q_REG_STATUS) /\ fEnabled q = false) ->
  length pvVal = 4%nat -> length pvDst = 4%nat ->
  pspDevCcpMmioWrite fuel pThis offMmio 4 pvVal = Some pThis1 ->
  is_Some (pspDevCcpMmioRead fuel pThis1 offMmio 4 pvDst) ->
  fst <$> pspDevCcpMmioRead fuel pThis1 offMmio 4 pvDst = Some pvVal.
Proof.
  intros Hoffs Hlt HuQ HoffQ Hq Hreg HlenV HlenD Hwr [[pvDst' pThis2] Hrd].
  rewrite Hrd. simpl. f_equal.
  apply Z.leb_le in Hoffs. apply Z.ltb_lt in Hlt.
  unfold pspDevCcpMmioWrite in Hwr. unfold pspDevCcpMmioRead in Hrd.
  change (if negb (4 =? 4) then ?a else ?b) with b in Hwr.
  change (if negb (4 =? 4) then ?a else ?b) with b in Hrd.
  rewrite Hoffs, Hlt, <- HuQ, <- HoffQ in Hwr, Hrd.
  destruct (queue_reg_write_then_read _ _ _ _ _ _ _ Hq Hreg Hwr) as (q1 & Hq1 & Hval).
  unfold pspDevCcpMmioQueueRegRead in Hrd. rewrite Hq1 in Hrd. cbn [from_option] in Hrd.
  destruct (pspDevCcpQueueRunMaybe _ _ _); [|discriminate].
  replace pvDst' with (list_inserts 0 (Z_to_le 4 (queue_reg_read offRegQ q1)) pvDst)
    by congruence.
  rewrite Hval.
  rewrite take_ge by lia.
  rewrite list_inserts_0_whole by (by rewrite Z_to_le_length).
  by rewrite <- HlenV, Z_to_le_to_Z.
Qed.

(** X5.  A write to the control register leaves the queue enabled exactly when
    the value written has the RUN bit, whatever the queue was before, and
    leaves the tail and the interrupt enable as they were.  With the
    interrupt enable at 0, or without the RUN bit, nothing is executed: the
    control register holds the value without RUN, and the other registers
    and the rest of the device are as before. *)
Theorem ctrl_write_enable fuel pThis uQueue q v pThis' :
  aQueues pThis !! uQueue = Some q ->
  pspDevCcpMmioQueueRegWrite fuel pThis uQueue CCP_V5_Q_REG_CTRL v = Some pThis' ->
  exists q',
    aQueues pThis' !! uQueue = Some q' /\
    fEnabled q' = nonzero (Z.land v CCP_V5_Q_REG_CTRL_RUN) /\
    u32RegReqTail q' = u32RegReqTail q /\ u32RegIen q' = u32RegIen q /\
    (u32RegIen q = 0 \/ Z.land v CCP_V5_Q_REG_CTRL_RUN = 0 ->
     q' = set_u32RegCtrl (and_not v CCP_V5_Q_REG_CTRL_RUN)
            (set_fEnabled (nonzero (Z.land v CCP_V5_Q_REG_CTRL_RUN)) q)
     /\ Core pThis' = Core pThis).
Proof.
  intros Hq Hwr. unfold pspDevCcpMmioQueueRegWrite in Hwr.
  destruct (queue_reg_write_queues CCP_V5_Q_REG_CTRL v uQueue pThis) as [Hqs Hcore].
  set (d1 := queue_reg_write CCP_V5_Q_REG_CTRL v uQueue pThis) in *.
  set (q1 := set_u32RegCtrl (and_not v CCP_V5_Q_REG_CTRL_RUN)
               (set_fEnabled (nonzero (Z.land v CCP_V5_Q_REG_CTRL_RUN)) q)).
  assert (Hq1 : aQueues d1 !! uQueue = Some q1).
  { rewrite Hqs, list_lookup_alter_eq, Hq. unfold queue_reg_store. by rewrite Z.eqb_refl. }
  rewrite Hq1 in Hwr. change (u32RegIen q1) with (u32RegIen q) in Hwr.
  destruct (nonzero (u32RegIen q)) eqn:Hien.
  - destruct (queue_run_frame _ _ _ _ Hwr) as (_ & _ & Hown).
    destruct (Hown _ Hq1) as (q' & Hq' & Htail & Hien' & Hen & Hdis & _).
    exists q'. split; [done|]. split; [done|]. split; [done|]. split; [done|].
    intros [H0|H0].
    + unfold nonzero in Hien. rewrite H0 in Hien. discriminate.
    + assert (Hoff : fEnabled q1 = false) by (simpl; unfold nonzero; by rewrite H0).
      destruct (Hdis Hoff) as [-> ->]. by split.
  - injection Hwr as <-. exists q1. by repeat split.
Qed.

(** X6.  A 32-bit read of a register of a queue that is not enabled is free of
    side effects: it hands back the register, or 0 at an offset that is no
    register, and changes neither the queues nor the rest of the device nor
    the interrupt line. *)
Theorem mmio_read_not_enabled fuel pThis offMmio uQueue offRegQ q (pvDst : list byte) :
  CCP_V5_Q_OFFSET <= offMmio ->
  u32 (offMmio - CCP_V5_Q_OFFSET) / CCP_V5_Q_SIZE < ELEMENTS_aQueues ->
  uQueue = Z.to_nat (u32 (offMmio - CCP_V5_Q_OFFSET) / CCP_V5_Q_SIZE) ->
  offRegQ = u32 (offMmio - CCP_V5_Q_OFFSET) mod CCP_V5_Q_SIZE ->
  aQueues pThis !! uQueue = Some q ->
  fEnabled q = false ->
  length pvDst = 4%nat ->
  exists pThis',
    pspDevCcpMmioRead fuel pThis offMmio 4 pvDst
    = Some (Z_to_le 4 (queue_reg_read offRegQ q), pThis') /\
    aQueues pThis' = aQueues pThis /\ Core pThis' = Core pThis /\
    irq_line (Trace pThis') = irq_line (Trace pThis) /\
    (offRegQ ∉ [CCP_V5_Q_REG_CTRL; CCP_V5_Q_REG_HEAD; CCP_V5_Q_REG_TAIL;
                CCP_V5_Q_REG_STATUS; CCP_V5_Q_REG_IEN; CCP_V5_Q_REG_ISTS] ->
     queue_reg_read offRegQ q = 0).
Proof.
  intros Hoffs Hlt HuQ HoffQ Hq Hen Hlen.
  apply Z.leb_le in Hoffs. apply Z.ltb_lt in Hlt.
  unfold pspDevCcpMmioRead.
  change (if negb (4 =? 4) then ?a else ?b) with b.
  rewrite Hoffs, Hlt, <- HuQ, <- HoffQ.
  unfold pspDevCcpMmioQueueRegRead, pspDevCcpQueueRunMaybe. rewrite Hq, Hen.
  cbn [from_option].
  rewrite list_inserts_0_whole by (by rewrite Z_to_le_length).
  eexists. split; [reflexivity|]. simpl.
  split; [done|]. split; [done|].
  split; [unfold irq_line; by rewrite irq_line_from_app|].
  intros Hnot. rewrite !not_elem_of_cons in Hnot. unfold queue_reg_read.
  repeat match goal with
         | |- context [?a =? ?b] => destruct (Z.eqb_spec a b); [exfalso; intuition congruence|]
         end.
  done.
Qed.

(** X7.  An access that addresses no queue, below the queue window or beyond the
    second queue, never runs the executor and never touches the interrupt
    line, the queues or the rest of the device.  Below the window nothing
    is logged and a read hands back zeros.  Beyond the queues the read and
    the write each log one line, the invalid queue with the offset into the
    window, the width and the queue number, and nothing else, and the read
    leaves the buffer as it was. *)
Theorem mmio_outside_queues fuel pThis offMmio (pv : list byte) :
  offMmio < CCP_V5_Q_OFFSET
  \/ (CCP_V5_Q_OFFSET <= offMmio
      /\ ELEMENTS_aQueues <= u32 (offMmio - CCP_V5_Q_OFFSET) / CCP_V5_Q_SIZE) ->
  let log :=
    if offMmio <? CCP_V5_Q_OFFSET then []
    else [EvPrintf (MsgInvalidQueue (u32 (offMmio - CCP_V5_Q_OFFSET)) 4
                      (u32 (offMmio - CCP_V5_Q_OFFSET) / CCP_V5_Q_SIZE))] in
  exists pv' pThisR pThisW,
    pspDevCcpMmioRead fuel pThis offMmio 4 pv = Some (pv', pThisR) /\
    pspDevCcpMmioWrite fuel pThis offMmio 4 pv = Some pThisW /\
    aQueues pThisR = aQueues pThis /\ Core pThisR = Core pThis /\
    aQueues pThisW = aQueues pThis /\ Core pThisW = Core pThis /\
    Trace pThisR = Trace pThis ++ log /\ Trace pThisW = Trace pThis ++ log /\
    run_calls log = [] /\ irq_calls log = [] /\
    pv' = (if offMmio <? CCP_V5_Q_OFFSET
           then list_inserts 0 (replicate 4 Byte.x00) pv else pv).
Proof.
  intros Hcase log. unfold log, pspDevCcpMmioRead, pspDevCcpMmioWrite.
  change (if negb (4 =? 4) then ?a else ?b) with b.
  destruct Hcase as [Hlow|[Hhigh Hq]].
  - assert (Hle : (CCP_V5_Q_OFFSET <=? offMmio) = false) by (apply Z.leb_gt; lia).
    assert (Hlt : (offMmio <? CCP_V5_Q_OFFSET) = true) by (apply Z.ltb_lt; lia).
    rewrite Hle, Hlt.
    eexists _, _, _. rewrite !app_nil_r. by repeat split.
  - assert (Hle : (CCP_V5_Q_OFFSET <=? offMmio) = true) by (apply Z.leb_le; lia).
    assert (Hlt : (offMmio <? CCP_V5_Q_OFFSET) = false) by (apply Z.ltb_ge; lia).
    assert (Hge : (u32 (offMmio - CCP_V5_Q_OFFSET) / CCP_V5_Q_SIZE <? ELEMENTS_aQueues) = false)
      by (apply Z.ltb_ge; lia).
    rewrite Hle, Hlt, Hge.
    eexists _, _, _. by repeat split.
Qed.

End ExecutorFurther.

(** ** More on transfers and request processors *)

Section TransferFurther.
Context `{hdr : CcpHdr} {Ext : Type} `{env : !CcpEnv Ext}.
Implicit Types (pThis : CCPCORE Ext) (pCtx : CCPXFERCTX) (pReq : CCP5REQ).

Lemma take_drop_inserts (k l : list byte) (i : nat) :
  (i + length k <= length l)%nat -> take (length k) (drop i (list_inserts i k l)) = k.
Proof.
  intros Hle. apply list_eq. intros j.
  destruct (decide (j < length k)%nat) as [Hj|Hj].
  - rewrite lookup_take_lt, lookup_drop by done.
    rewrite list_lookup_inserts by lia. f_equal. lia.
  - rewrite lookup_take_ge by lia. symmetry. apply lookup_ge_None_2. lia.
Qed.

(** X8.  Write and read of the local storage buffer.  What a successful write
    of [n] bytes put at offset [a] is what a read of [n] bytes at [a]
    returns afterwards, and that read succeeds. *)
Theorem lsb_write_read_round_trip pThis (a n : Z) (pvSrc : list byte) pThis' :
  length (Lsb pThis) = 4096%nat ->
  0 <= a < 2 ^ 64 -> 0 <= n <= PTRDIFF_MAX -> n <= Z.of_nat (length pvSrc) ->
  pspDevCcpXferMemLsbWrite pThis a pvSrc n = (0, pThis') ->
  pspDevCcpXferMemLsbRead pThis' a n = Some (take (Z.to_nat n) pvSrc).
Proof.
  intros Hlen Ha Hn Hsrc. unfold pspDevCcpXferMemLsbWrite, pspDevCcpXferMemLsbRead.
  unfold sizeof_Lsb, PTRDIFF_MAX in *.
  destruct (a <? 4096) eqn:E1; [|discriminate]. apply Z.ltb_lt in E1.
  rewrite u64_small by lia.
  destruct (a + n <=? 4096) eqn:E2; [|discriminate]. apply Z.leb_le in E2.
  simpl. intros [= <-]. simpl. f_equal.
  assert (Hk : length (take (Z.to_nat n) pvSrc) = Z.to_nat n) by (rewrite length_take; lia).
  rewrite <- Hk at 1. apply take_drop_inserts. lia.
Qed.

Lemma xfer_write_rev_frame (l : list byte) pThis pCtx rc pThis' pCtx' :
  xfer_write_rev l pThis pCtx = (rc, pThis', pCtx') ->
  cbReadLeft pCtx' = cbReadLeft pCtx /\ cbWriteLeft pCtx' = cbWriteLeft pCtx.
Proof.
  revert pThis pCtx. induction l as [|b l IH]; intros pThis pCtx; simpl.
  - by intros [= _ _ <-].
  - destruct (call_pfnWrite _ _ _ _ _) as [rc1 pThis1].
    destruct (rc1 =? 0).
    + intros Hw. apply IH in Hw. done.
    + by intros [= _ _ <-].
Qed.

(** X9.  Without a place for the count, a pass through a transfer context is all
    or nothing.  A read or a write of no bytes, or of more bytes than the
    context has left, fails and leaves the context and the device as they
    are.  A pass that succeeds takes exactly its bytes off what is left,
    except that a reversed write leaves the write budget as it was. *)
Theorem xfer_ctx_pass_all_or_nothing pThis pCtx (cb : Z) (pvSrc : list byte) :
  (cb = 0 \/ cbReadLeft pCtx < cb -> pspDevCcpXferCtxRead pThis pCtx cb false = None) /\
  (cb = 0 \/ cbWriteLeft pCtx < cb ->
   pspDevCcpXferCtxWrite pThis pCtx pvSrc cb false = (-1, pThis, pCtx)) /\
  (forall pCtx' data,
     pspDevCcpXferCtxRead pThis pCtx cb false = Some (pCtx', data) ->
     cb <> 0 /\ cb <= cbReadLeft pCtx /\ cbReadLeft pCtx' = cbReadLeft pCtx - cb /\
     cbWriteLeft pCtx' = cbWriteLeft pCtx) /\
  (forall pThis' pCtx',
     pspDevCcpXferCtxWrite pThis pCtx pvSrc cb false = (0, pThis', pCtx') ->
     cb <> 0 /\ cb <= cbWriteLeft pCtx /\ cbReadLeft pCtx' = cbReadLeft pCtx /\
     cbWriteLeft pCtx' = if fWriteRev pCtx then cbWriteLeft pCtx else cbWriteLeft pCtx - cb).
Proof.
  unfold pspDevCcpXferCtxRead, pspDevCcpXferCtxWrite, nonzero. simpl orb.
  split; [|split; [|split]].
  - intros [-> | Hlt].
    + destruct (Z.min_spec 0 (cbReadLeft pCtx)) as [[_ ->]|[_ ->]].
      * done.
      * destruct (Z.eqb_spec (cbReadLeft pCtx) 0) as [|Hne]; [done|]. simpl.
        by destruct (Z.eqb_spec (cbReadLeft pCtx) 0).
    + rewrite Z.min_r by lia.
      destruct (Z.eqb_spec (cbReadLeft pCtx) cb); [lia|]. by rewrite andb_false_r.
  - intros [-> | Hlt].
    + destruct (Z.min_spec 0 (cbWriteLeft pCtx)) as [[_ ->]|[_ ->]].
      * done.
      * destruct (Z.eqb_spec (cbWriteLeft pCtx) 0) as [|Hne]; [done|]. simpl.
        by destruct (Z.eqb_spec (cbWriteLeft pCtx) 0).
    + rewrite Z.min_r by lia.
      destruct (Z.eqb_spec (cbWriteLeft pCtx) cb); [lia|]. by rewrite andb_false_r.
  - intros pCtx' data.
    destruct (Z.eqb_spec (Z.min cb (cbReadLeft pCtx)) 0) as [|Hnz]; [done|].
    destruct (Z.eqb_spec (Z.min cb (cbReadLeft pCtx)) cb) as [Heq|]; [|done]. simpl.
    destruct (call_pfnRead _ _ _ _); [|done]. intros [= <- _]. simpl. lia.
  - intros pThis' pCtx'.
    destruct (Z.eqb_spec (Z.min cb (cbWriteLeft pCtx)) 0) as [|Hnz]; [done|].
    destruct (Z.eqb_spec (Z.min cb (cbWriteLeft pCtx)) cb) as [Heq|]; [|done]. simpl.
    destruct (fWriteRev pCtx) eqn:Hrev.
    + intros Hw. split; [lia|]. split; [lia|].
      apply xfer_write_rev_frame in Hw. done.
    + destruct (call_pfnWrite _ _ _ _ _) as [rc pThis1].
      destruct (Z.eqb_spec rc 0) as [->|Hne]; [|by intros [= ? _ _]].
      intros [= _ <-]. simpl. split; [lia|]. split; [lia|]. split; [done|]. lia.
Qed.


(** What a write callback does whatever its status. *)
Lemma call_pfnWrite_any fn pThis a (data : list byte) n rc pThis' :
  call_pfnWrite fn pThis a data n = (rc, pThis') ->
  pOsslShaCtx pThis' = pOsslShaCtx pThis /\ ExtCtx pThis' = ExtCtx pThis /\
  length (Lsb pThis') = length (Lsb pThis) /\
  (fn <> XferMemLsb -> Lsb pThis' = Lsb pThis) /\
  (fn <> XferMemLocal -> hIoMgr pThis' = hIoMgr pThis) /\
  (rc <> 0 -> pThis' = pThis) /\
  (fn = XferMemSys -> rc <> 0) /\
  cbWrittenLast pThis'
  = if bool_decide (fn = XferMemLocal) && (rc =? 0)
    then u64 (cbWrittenLast pThis + n) else cbWrittenLast pThis.
Proof.
  destruct fn; simpl.
  - unfold pspDevCcpXferMemSysWrite. intros [= <- <-]. repeat split; done.
  - unfold pspDevCcpXferMemLsbWrite.
    destruct (_ && _); intros [= <- <-]; simpl; rewrite ?length_inserts; repeat split; done.
  - unfold pspDevCcpXferMemLocalWrite, PSPEmuIoMgrPspAddrWrite.
    destruct (iom_mapped _ _ _); simpl; intros [= <- <-]; simpl; repeat split; done.
Qed.

Lemma xfer_write_rev_any (l : list byte) pThis pCtx rc pThis' pCtx' :
  xfer_write_rev l pThis pCtx = (rc, pThis', pCtx') ->
  pOsslShaCtx pThis' = pOsslShaCtx pThis /\ ExtCtx pThis' = ExtCtx pThis /\
  length (Lsb pThis') = length (Lsb pThis) /\
  (pfnWrite pCtx <> XferMemLsb -> Lsb pThis' = Lsb pThis) /\
  (pfnWrite pCtx <> XferMemLocal -> hIoMgr pThis' = hIoMgr pThis) /\
  (pfnWrite pCtx = XferMemSys -> l <> [] -> rc <> 0).
Proof.
  revert pThis pCtx. induction l as [|b l IH]; intros pThis pCtx; simpl.
  - intros [= <- <- <-]. repeat split; done.
  - destruct (call_pfnWrite _ _ _ _ _) as [rc1 pThis1] eqn:Hcall.
    apply call_pfnWrite_any in Hcall as (H1 & H2 & H3 & H4 & H5 & H6 & H7 & _).
    destruct (Z.eqb_spec rc1 0) as [->|Hne].
    + intros Hw. apply IH in Hw as (G1 & G2 & G3 & G4 & G5 & G6). simpl in *.
      split; [congruence|]. split; [congruence|]. split; [congruence|].
      split; [intros Hfn; rewrite G4, H4; done|].
      split; [intros Hfn; rewrite G5, H5; done|].
      intros Hfn _. by destruct (H7 Hfn).
    + intros [= <- <- <-]. rewrite H6 by done. repeat split; done.
Qed.

(** A reversed write into the storage buffer touches no byte outside the
    window that ends where the context points, whatever its status. *)
Lemma xfer_write_rev_lsb_outside (l : list byte) pThis pCtx rc pThis' pCtx' (i : nat) :
  xfer_write_rev l pThis pCtx = (rc, pThis', pCtx') ->
  pfnWrite pCtx = XferMemLsb ->
  Z.of_nat (length l) <= CcpAddrDst pCtx < 2 ^ 64 ->
  ~ (CcpAddrDst pCtx - Z.of_nat (length l) <= Z.of_nat i < CcpAddrDst pCtx) ->
  Lsb pThis' !! i = Lsb pThis !! i.
Proof.
  revert pThis pCtx. induction l as [|b l IH]; intros pThis pCtx; simpl.
  - by intros [= _ <- _].
  - intros Hw Hfn HA Hi. rewrite Hfn in Hw. simpl in Hw.
    rewrite u64_small in Hw by lia.
    unfold pspDevCcpXferMemLsbWrite in Hw.
    destruct (_ && _).
    + simpl in Hw. apply IH in Hw; simpl; [|done|lia..].
      rewrite Hw. simpl. apply list_lookup_insert_ne. lia.
    + simpl in Hw. by injection Hw as _ <- _.
Qed.

Lemma pspDevCcpXferCtxRead_any pThis pCtx cb pCtx' (data : list byte) :
  pspDevCcpXferCtxRead pThis pCtx cb false = Some (pCtx', data) ->
  pfnRead pCtx' = pfnRead pCtx /\ pfnWrite pCtx' = pfnWrite pCtx /\
  fWriteRev pCtx' = fWriteRev pCtx /\ CcpAddrDst pCtx' = CcpAddrDst pCtx /\
  cbWriteLeft pCtx' = cbWriteLeft pCtx /\
  call_pfnRead (pfnRead pCtx) pThis (CcpAddrSrc pCtx) cb = Some data.
Proof.
  unfold pspDevCcpXferCtxRead. simpl orb.
  destruct (nonzero _); [|done]. simpl andb.
  destruct (Z.eqb_spec (Z.min cb (cbReadLeft pCtx)) cb) as [->|]; [|done].
  destruct (call_pfnRead _ _ _ _); [|done]. by intros [= <- <-].
Qed.

Lemma pspDevCcpXferCtxWrite_any pThis pCtx (data : list byte) cb rc pThis' pCtx' :
  pspDevCcpXferCtxWrite pThis pCtx data cb false = (rc, pThis', pCtx') ->
  pOsslShaCtx pThis' = pOsslShaCtx pThis /\ ExtCtx pThis' = ExtCtx pThis /\
  length (Lsb pThis') = length (Lsb pThis) /\
  (pfnWrite pCtx <> XferMemLsb -> Lsb pThis' = Lsb pThis) /\
  (pfnWrite pCtx <> XferMemLocal -> hIoMgr pThis' = hIoMgr pThis) /\
  (pfnWrite pCtx = XferMemSys -> (0 < cb <= Z.of_nat (length data)) -> rc <> 0) /\
  (rc = 0 -> pfnRead pCtx' = pfnRead pCtx /\ pfnWrite pCtx' = pfnWrite pCtx /\
             fWriteRev pCtx' = fWriteRev pCtx).
Proof.
  unfold pspDevCcpXferCtxWrite. simpl orb.
  destruct (nonzero _) eqn:Hnz; simpl andb; [|intros [= <- <- <-]; repeat split; done].
  destruct (Z.eqb_spec (Z.min cb (cbWriteLeft pCtx)) cb) as [Heq|];
    [|intros [= <- <- <-]; repeat split; done].
  rewrite Heq in *.
  destruct (fWriteRev pCtx) eqn:Hrev.
  - intros Hw.
    assert (Hctx : pfnRead pCtx' = pfnRead pCtx /\ pfnWrite pCtx' = pfnWrite pCtx /\
                   fWriteRev pCtx' = fWriteRev pCtx).
    { clear -Hw. revert pThis pCtx Hw.
      generalize (take (Z.to_nat cb) data). intros l.
      induction l as [|b l IH]; intros pThis pCtx; simpl.
      - by intros [= _ _ <-].
      - destruct (call_pfnWrite _ _ _ _ _) as [rc1 pThis1].
        destruct (rc1 =? 0).
        + intros Hw. by apply IH in Hw.
        + by intros [= _ _ <-]. }
    apply xfer_write_rev_any in Hw as (G1 & G2 & G3 & G4 & G5 & G6).
    split; [done|]. split; [done|]. split; [done|]. split; [done|]. split; [done|].
    split; [|by rewrite Hrev in *].
    intros Hfn Hcb. apply G6; [done|].
    intros Hnil. apply (f_equal length) in Hnil. rewrite length_take in Hnil.
    simpl in Hnil. lia.
  - destruct (call_pfnWrite _ _ _ _ _) as [rc1 pThis1] eqn:Hcall.
    apply call_pfnWrite_any in Hcall as (H1 & H2 & H3 & H4 & H5 & H6 & H7 & _).
    destruct (Z.eqb_spec rc1 0) as [->|Hne].
    + intros [= <- <- <-]. simpl. repeat split; try done. intros Hfn. by destruct (H7 Hfn).
    + intros [= <- <- <-]. repeat split; done.
Qed.

Lemma passthru_loop_any fuel pThis pCtx cbLeft rc pThis' :
  passthru_loop fuel pThis pCtx cbLeft = (rc, pThis') ->
  pOsslShaCtx pThis' = pOsslShaCtx pThis /\ ExtCtx pThis' = ExtCtx pThis /\
  length (Lsb pThis') = length (Lsb pThis) /\
  (pfnWrite pCtx <> XferMemLsb -> Lsb pThis' = Lsb pThis) /\
  (pfnWrite pCtx <> XferMemLocal -> hIoMgr pThis' = hIoMgr pThis).
Proof.
  revert pThis pCtx cbLeft. induction fuel as [|fuel IH]; intros pThis pCtx cbLeft; simpl.
  - destruct (cbLeft =? 0); intros [= <- <-]; done.
  - destruct (cbLeft =? 0); [intros [= <- <-]; done|].
    destruct (pspDevCcpXferCtxRead _ _ _ _) as [[pCtx1 data]|] eqn:Hread;
      [|intros [= <- <-]; done].
    apply pspDevCcpXferCtxRead_any in Hread as (R1 & R2 & R3 & _).
    destruct (pspDevCcpXferCtxWrite _ _ _ _ _) as [[rc1 pThis1] pCtx2] eqn:Hwrite.
    apply pspDevCcpXferCtxWrite_any in Hwrite as (W1 & W2 & W3 & W4 & W5 & _ & W7).
    rewrite R2 in W4, W5.
    destruct (Z.eqb_spec rc1 0) as [->|Hne].
    + intros Hloop. apply IH in Hloop as (G1 & G2 & G3 & G4 & G5).
      destruct W7 as (_ & W7 & _); [done|]. rewrite W7, R2 in G4, G5.
      split; [congruence|]. split; [congruence|]. split; [congruence|].
      split; [intros Hfn; rewrite G4, W4; done|].
      intros Hfn; rewrite G5, W5; done.
    + intros [= <- <-]. done.
Qed.

(** X10.  What a PASSTHRU request never touches, whatever its status: the SHA
    context and the state of the other engines, the storage buffer unless
    the destination is the storage buffer, and PSP memory unless the
    destination is PSP memory.  The storage buffer keeps its size. *)
Theorem passthru_frame pThis pReq uFunc :
  let r := pspDevCcpReqPassthruProcess pThis pReq uFunc in
  pOsslShaCtx r.2 = pOsslShaCtx pThis /\ ExtCtx r.2 = ExtCtx pThis /\
  length (Lsb r.2) = length (Lsb pThis) /\
  (req_dst_fn pReq <> Some XferMemLsb -> Lsb r.2 = Lsb pThis) /\
  (req_dst_fn pReq <> Some XferMemLocal -> hIoMgr r.2 = hIoMgr pThis).
Proof.
  unfold pspDevCcpReqPassthruProcess.
  destruct (passthru_supported _ _ _ _); [|done].
  destruct (pspDevCcpXferCtxInit _ _ _ _ _) as [pThis1 [pCtx|]] eqn:Hinit.
  - apply pspDevCcpXferCtxInit_non_sha in Hinit as (-> & rfn & wfn & Hrfn & Hwfn & ->).
    destruct (passthru_loop _ _ _ _) as [rc pThis'] eqn:Hloop.
    apply passthru_loop_any in Hloop as (G1 & G2 & G3 & G4 & G5). simpl in *.
    rewrite Hwfn. repeat split; try done.
    + intros Hfn. apply G4. congruence.
    + intros Hfn. apply G5. congruence.
  - unfold pspDevCcpXferCtxInit in Hinit.
    destruct (xfer_fn_of_mem_type _); [|by injection Hinit as <-].
    destruct (if negb false then _ else _) as [[? ?]|]; [done|]. by injection Hinit as <-.
Qed.


Lemma req_addr_bounds pReq :
  req_wf pReq ->
  0 <= cbSrc pReq < 2 ^ 32 /\ 0 <= req_src_addr pReq < 2 ^ 48 /\
  0 <= req_dst_addr pReq < 2 ^ 48.
Proof.
  intros (Hcb & HSl & HSh & HDl & HDh & _).
  pose proof (CCP_ADDR_bound _ _ HSh HSl) as HS.
  pose proof (CCP_ADDR_bound _ _ HDh HDl) as HD.
  split; [exact Hcb|]. split; [exact HS|exact HD].
Qed.

(** X11.  A PASSTHRU request of at least one byte from or to SYSTEM memory, for
    which the device has no access path, never succeeds and changes neither
    the storage buffer nor PSP memory. *)
Theorem passthru_system_memory_fails pThis pReq uFunc :
  req_wf pReq ->
  length (Lsb pThis) = 4096%nat ->
  0 < cbSrc pReq ->
  req_src_fn pReq = Some XferMemSys \/ req_dst_fn pReq = Some XferMemSys ->
  let r := pspDevCcpReqPassthruProcess pThis pReq uFunc in
  r.1 <> 0 /\ Lsb r.2 = Lsb pThis /\ hIoMgr r.2 = hIoMgr pThis.
Proof.
  intros Hwf Hlen Hpos Hsys.
  apply req_addr_bounds in Hwf as (Hcb & HS & HD).
  unfold pspDevCcpReqPassthruProcess.
  destruct (passthru_supported _ _ _ _); [|done].
  destruct (pspDevCcpXferCtxInit _ _ _ _ _) as [pThis1 [pCtx|]] eqn:Hinit.
  - apply pspDevCcpXferCtxInit_non_sha in Hinit as (-> & rfn & wfn & Hrfn & Hwfn & ->).
    rewrite Hrfn, Hwfn in Hsys.
    unfold iterations. cbn [passthru_loop].
    destruct (Z.eqb_spec (cbSrc pReq) 0) as [|_]; [lia|].
    set (c := Z.min (cbSrc pReq) _4K).
    assert (Hc : 0 < c <= 4096) by (unfold c, _4K; lia).
    destruct (pspDevCcpXferCtxRead _ _ _ _) as [[pCtx1 data]|] eqn:Hread; [|done].
    apply pspDevCcpXferCtxRead_any in Hread as (_ & R2 & _ & _ & _ & Hcall).
    simpl in R2, Hcall.
    destruct Hsys as [[= ->]|[= ->]]; [done|].
    apply call_pfnRead_peek in Hcall; [|lia..|done].
    destruct (pspDevCcpXferCtxWrite _ _ _ _ _) as [[rc1 pThis1] pCtx2] eqn:Hwrite.
    apply pspDevCcpXferCtxWrite_any in Hwrite as (_ & _ & _ & W4 & W5 & W6 & _).
    rewrite R2 in W4, W5, W6.
    assert (Hrc : rc1 <> 0).
    { apply W6; [done|]. rewrite Hcall, xfer_peek_length. lia. }
    destruct (Z.eqb_spec rc1 0) as [|_]; [done|]. simpl.
    split; [done|]. split; [by rewrite W4|by rewrite W5].
  - unfold pspDevCcpXferCtxInit in Hinit.
    destruct (xfer_fn_of_mem_type _); [|by injection Hinit as <-].
    destruct (if negb false then _ else _) as [[? ?]|]; [done|]. by injection Hinit as <-.
Qed.

Lemma xfer_write_rev_count (l : list byte) pThis pCtx pThis' pCtx' :
  xfer_write_rev l pThis pCtx = (0, pThis', pCtx') ->
  0 <= cbWrittenLast pThis ->
  cbWrittenLast pThis + Z.of_nat (length l) < 2 ^ 64 ->
  cbWrittenLast pThis'
  = if bool_decide (pfnWrite pCtx = XferMemLocal)
    then cbWrittenLast pThis + Z.of_nat (length l) else cbWrittenLast pThis.
Proof.
  revert pThis pCtx. induction l as [|b l IH]; intros pThis pCtx; simpl.
  - intros [= <- _] _ _. case_bool_decide; lia.
  - destruct (call_pfnWrite _ _ _ _ _) as [rc1 pThis1] eqn:Hcall.
    apply call_pfnWrite_any in Hcall as (_ & _ & _ & _ & _ & _ & _ & Hcnt).
    destruct (Z.eqb_spec rc1 0) as [->|Hne]; [|by intros [= ? _ _]].
    intros Hw H0 Hlt. simpl in Hcnt. rewrite andb_true_r in Hcnt.
    apply IH in Hw; simpl in *.
    + rewrite Hw. case_bool_decide; [|done]. rewrite Hcnt, u64_small by lia. lia.
    + case_bool_decide; [rewrite Hcnt, u64_small by lia|]; lia.
    + case_bool_decide; [rewrite Hcnt, u64_small by lia|]; lia.
Qed.

Lemma passthru_loop_count fuel pThis pCtx cbLeft pThis' :
  passthru_loop fuel pThis pCtx cbLeft = (0, pThis') ->
  fWriteRev pCtx = false ->
  0 <= cbLeft -> 0 <= cbWrittenLast pThis -> cbWrittenLast pThis + cbLeft < 2 ^ 64 ->
  cbWrittenLast pThis'
  = if bool_decide (pfnWrite pCtx = XferMemLocal)
    then cbWrittenLast pThis + cbLeft else cbWrittenLast pThis.
Proof.
  revert pThis pCtx cbLeft. induction fuel as [|fuel IH]; intros pThis pCtx cbLeft; simpl.
  - destruct (Z.eqb_spec cbLeft 0) as [->|]; [|done].
    intros [= <-] _ _ _ _. case_bool_decide; lia.
  - destruct (Z.eqb_spec cbLeft 0) as [->|Hnz].
    { intros [= <-] _ _ _ _. case_bool_decide; lia. }
    intros Hloop Hrev Hcb H0 Hlt.
    set (c := Z.min cbLeft _4K) in *.
    assert (Hc : 0 < c <= cbLeft) by (unfold c, _4K; lia).
    destruct (pspDevCcpXferCtxRead _ _ _ _) as [[pCtx1 data]|] eqn:Hread; [|done].
    apply pspDevCcpXferCtxRead_any in Hread as (_ & R2 & R3 & _).
    unfold pspDevCcpXferCtxWrite in Hloop. simpl orb in Hloop.
    destruct (nonzero _); simpl andb in Hloop; [|done].
    destruct (Z.eqb_spec (Z.min c (cbWriteLeft pCtx1)) c) as [Heq|]; [|done].
    rewrite Heq, R3, Hrev in Hloop.
    destruct (call_pfnWrite _ _ _ _ _) as [rc1 pThis1] eqn:Hcall.
    apply call_pfnWrite_any in Hcall as (_ & _ & _ & _ & _ & _ & _ & Hcnt).
    cbn beta iota zeta in Hloop.
    destruct (rc1 =? 0) eqn:Erc; cbn beta iota zeta in Hloop; rewrite Erc in Hloop;
      [|by injection Hloop as ->].
    apply Z.eqb_eq in Erc. subst rc1.
    simpl in Hcnt. rewrite andb_true_r, R2 in Hcnt.
    assert (Hcnt' : cbWrittenLast pThis1
                    = if bool_decide (pfnWrite pCtx = XferMemLocal)
                      then cbWrittenLast pThis + c else cbWrittenLast pThis).
    { rewrite Hcnt. case_bool_decide; [apply u64_small; lia|done]. }
    apply IH in Hloop; cbn [fWriteRev pfnWrite] in *; [|done|lia|..].
    + rewrite Hloop, R2, Hcnt'. case_bool_decide; lia.
    + rewrite Hcnt'. case_bool_decide; lia.
    + rewrite Hcnt'. case_bool_decide; lia.
Qed.

Lemma passthru_supported_cases uFunc pReq :
  passthru_supported (u8 (CCP_V5_ENGINE_PASSTHRU_BYTESWAP_GET uFunc))
    (u8 (CCP_V5_ENGINE_PASSTHRU_BITWISE_GET uFunc))
    (u8 (CCP_V5_ENGINE_PASSTHRU_REFLECT_GET uFunc)) pReq = true ->
  (u8 (CCP_V5_ENGINE_PASSTHRU_BYTESWAP_GET uFunc) =? CCP_V5_ENGINE_PASSTHRU_BYTESWAP_256BIT)
  = false
  \/ ((u8 (CCP_V5_ENGINE_PASSTHRU_BYTESWAP_GET uFunc)
       =? CCP_V5_ENGINE_PASSTHRU_BYTESWAP_256BIT) = true /\ cbSrc pReq = 32).
Proof.
  unfold passthru_supported. intros Hsup.
  apply andb_true_iff in Hsup as [[_ H2]%andb_true_iff _].
  destruct (Z.eqb_spec (u8 (CCP_V5_ENGINE_PASSTHRU_BYTESWAP_GET uFunc))
              CCP_V5_ENGINE_PASSTHRU_BYTESWAP_256BIT) as [Heq|]; [|by left].
  right. split; [done|].
  apply orb_true_iff in H2 as [H2|[_ H2]%andb_true_iff]; [|by apply Z.eqb_eq].
  apply Z.eqb_eq in H2. pose proof byteswap_labels. congruence.
Qed.

Lemma passthru_count pThis pReq uFunc pThis' :
  req_wf pReq ->
  length (Lsb pThis) = 4096%nat ->
  pspDevCcpReqPassthruProcess pThis pReq uFunc = (0, pThis') ->
  cbWrittenLast pThis'
  = if bool_decide (req_dst_fn pReq = Some XferMemLocal) then cbSrc pReq else 0.
Proof.
  intros Hwf Hlen. apply req_addr_bounds in Hwf as (Hcb & HS & HD).
  unfold pspDevCcpReqPassthruProcess.
  destruct (passthru_supported _ _ _ _) eqn:Hsup; [|done].
  apply passthru_supported_cases in Hsup.
  destruct (pspDevCcpXferCtxInit _ _ _ _ _) as [pThis1 [pCtx|]] eqn:Hinit; [|done].
  apply pspDevCcpXferCtxInit_non_sha in Hinit as (-> & rfn & wfn & Hrfn & Hwfn & ->).
  rewrite Hwfn.
  assert (Hdec : bool_decide (Some wfn = Some XferMemLocal) = bool_decide (wfn = XferMemLocal)).
  { apply bool_decide_ext. split; congruence. }
  rewrite Hdec.
  destruct Hsup as [Hrev|[Hrev Hcb32]]; rewrite Hrev.
  - intros Hloop. apply passthru_loop_count in Hloop; simpl in *; [|done|lia..].
    rewrite Hloop. case_bool_decide; lia.
  - rewrite Hcb32. unfold iterations. cbn [passthru_loop]. simpl Z.eqb. cbv iota.
    unfold _4K. change (Z.min 32 4096) with 32.
    destruct (pspDevCcpXferCtxRead _ _ _ _) as [[pCtx1 data]|] eqn:Hread; [|done].
    apply pspDevCcpXferCtxRead_peek in Hread as (_ & Hdata & ->); ctx_simpl; [|lia..|done].
    unfold pspDevCcpXferCtxWrite. ctx_simpl. simpl.
    destruct (xfer_write_rev _ _ _) as [[rc1 pThisW] pCtx2] eqn:Hw.
    destruct (Z.eqb_spec rc1 0) as [->|Hne]; [|by intros [= ? _]].
    assert (Hdlen : length data = 32%nat) by (by rewrite Hdata, xfer_peek_length).
    apply xfer_write_rev_count in Hw; rewrite ?length_take, ?Hdlen; simpl; [|lia..].
    simpl in Hw. rewrite length_take, Hdlen in Hw.
    intros Hloop.
    assert (pThis' = pThisW) as ->.
    { revert Hloop. simpl. by intros [= <-]. }
    rewrite Hw. case_bool_decide; lia.
Qed.

End TransferFurther.

(** ** More on the SHA engine *)

Section ShaFurther.
Context `{hdr : CcpHdr} {Ext : Type} `{env : !CcpEnv Ext}.
Implicit Types (pThis : CCPCORE Ext) (pCtx : CCPXFERCTX) (pReq : CCP5REQ).

(** The 256-bit byte swap of a successful PASSTHRU request. *)
Lemma passthru_swap_copy pThis pReq uFunc pThis' :
  req_wf pReq ->
  length (Lsb pThis) = 4096%nat ->
  u8 (CCP_V5_ENGINE_PASSTHRU_BYTESWAP_GET uFunc) = CCP_V5_ENGINE_PASSTHRU_BYTESWAP_256BIT ->
  pspDevCcpReqPassthruProcess pThis pReq uFunc = (0, pThis') ->
  cbSrc pReq = 32 /\ length (Lsb pThis') = 4096%nat /\
  req_dst_window pThis' pReq 32 = reverse (req_src_window pThis pReq).
Proof.
  intros Hwf Hlen Hbs. apply req_addr_bounds in Hwf as (Hcb & HS & HD).
  unfold pspDevCcpReqPassthruProcess.
  destruct (passthru_supported _ _ _ _) eqn:Hsup; [|done].
  apply passthru_supported_cases in Hsup. rewrite Hbs, Z.eqb_refl in Hsup.
  destruct Hsup as [|[_ Hcb32]]; [done|].
  destruct (pspDevCcpXferCtxInit _ _ _ _ _) as [pThis1 [pCtx|]] eqn:Hinit; [|done].
  apply pspDevCcpXferCtxInit_non_sha in Hinit as (-> & rfn & wfn & Hrfn & Hwfn & ->).
  rewrite Hbs, Z.eqb_refl, Hcb32. rewrite u64_small by lia.
  unfold iterations. cbn [passthru_loop]. simpl Z.eqb. cbv iota.
  unfold _4K. change (Z.min 32 4096) with 32.
  destruct (pspDevCcpXferCtxRead _ _ _ _) as [[pCtx1 data]|] eqn:Hread; [|done].
  apply pspDevCcpXferCtxRead_peek in Hread as (_ & Hdata & ->); ctx_simpl; [|lia..|done].
  ctx_simpl in Hdata. rewrite xfer_peek_set_cbWrittenLast in Hdata.
  unfold pspDevCcpXferCtxWrite. ctx_simpl. simpl.
  destruct (xfer_write_rev _ _ _) as [[rc1 pThisW] pCtx2] eqn:Hw.
  destruct (Z.eqb_spec rc1 0) as [->|Hne]; [|by intros [= ? _]].
  intros [= <-].
  assert (Hdlen : length data = 32%nat) by (by rewrite Hdata, xfer_peek_length).
  apply xfer_write_rev_spec in Hw as (Hcopy & _ & Hlen' & _);
    rewrite ?length_take, ?Hdlen; ctx_simpl; [|lia..|done].
  ctx_simpl in Hcopy. rewrite length_take, Hdlen in Hcopy. ctx_simpl in Hcopy.
  split; [done|]. split; [done|].
  unfold req_dst_window, req_src_window. rewrite Hrfn, Hwfn, Hcb32.
  apply list_eq. intros k.
  destruct (decide (k < 32)%nat) as [Hk|Hk].
  - rewrite xfer_peek_lookup by lia.
    rewrite reverse_lookup by (rewrite xfer_peek_length; lia).
    rewrite xfer_peek_length, xfer_peek_lookup by lia. f_equal.
    replace (req_dst_addr pReq + Z.of_nat k)
      with (req_dst_addr pReq + 32 - 1 - (31 - Z.of_nat k)) by lia.
    rewrite Hcopy by lia.
    rewrite (byte_at_take data 32) by lia.
    rewrite Hdata, byte_at_peek by lia. f_equal. lia.
  - rewrite !lookup_ge_None_2; [done| |].
    + rewrite length_reverse, xfer_peek_length. lia.
    + rewrite xfer_peek_length. lia.
Qed.

(** The update loop reads and feeds the digest context, nothing else. *)
Lemma sha_loop_any fuel pThis pCtx cbLeft rc pThis' pCtx' :
  sha_loop fuel pThis pCtx cbLeft = (rc, pThis', pCtx') ->
  Lsb pThis' = Lsb pThis /\ hIoMgr pThis' = hIoMgr pThis /\ ExtCtx pThis' = ExtCtx pThis /\
  cbWrittenLast pThis' = cbWrittenLast pThis /\
  pfnWrite pCtx' = pfnWrite pCtx /\ CcpAddrDst pCtx' = CcpAddrDst pCtx /\
  cbWriteLeft pCtx' = cbWriteLeft pCtx /\ fWriteRev pCtx' = fWriteRev pCtx.
Proof.
  revert pThis pCtx cbLeft. induction fuel as [|fuel IH]; intros pThis pCtx cbLeft; simpl.
  - destruct (cbLeft =? 0); intros [= <- <- <-]; done.
  - destruct (cbLeft =? 0); [intros [= <- <- <-]; done|].
    destruct (pspDevCcpXferCtxRead _ _ _ _) as [[pCtx1 data]|] eqn:Hread;
      [|intros [= <- <- <-]; done].
    apply pspDevCcpXferCtxRead_any in Hread as (_ & R2 & R3 & R4 & R5 & _).
    intros Hloop. apply IH in Hloop as (G1 & G2 & G3 & G4 & G5 & G6 & G7 & G8).
    assert (Hupd : Lsb (EVP_DigestUpdate pThis data) = Lsb pThis
                   /\ hIoMgr (EVP_DigestUpdate pThis data) = hIoMgr pThis
                   /\ ExtCtx (EVP_DigestUpdate pThis data) = ExtCtx pThis
                   /\ cbWrittenLast (EVP_DigestUpdate pThis data) = cbWrittenLast pThis).
    { unfold EVP_DigestUpdate. by destruct (pOsslShaCtx pThis). }
    destruct Hupd as (U1 & U2 & U3 & U4).
    repeat split; congruence.
Qed.

Lemma sha_digest_size uFunc :
  let uShaType := u32 (CCP_V5_ENGINE_SHA_TYPE_GET uFunc) in
  exists md,
    (if uShaType =? CCP_V5_ENGINE_SHA_TYPE_256 then (EVP_sha256, 32) else (EVP_sha384, 48))
    = (md, EVP_MD_size md)
    /\ EVP_MD_size md = if uShaType =? CCP_V5_ENGINE_SHA_TYPE_256 then 32 else 48.
Proof. simpl. destruct (_ =? _); [exists EVP_sha256|exists EVP_sha384]; done. Qed.

(** The update loop keeps the digest the context was initialised for. *)
Lemma sha_loop_md_type fuel pThis pCtx cbLeft rc pThis' pCtx' :
  sha_loop fuel pThis pCtx cbLeft = (rc, pThis', pCtx') ->
  md_type <$> pOsslShaCtx pThis' = md_type <$> pOsslShaCtx pThis.
Proof.
  revert pThis pCtx cbLeft. induction fuel as [|fuel IH]; intros pThis pCtx cbLeft; simpl.
  - destruct (cbLeft =? 0); intros [= _ <- _]; done.
  - destruct (cbLeft =? 0); [intros [= _ <- _]; done|].
    destruct (pspDevCcpXferCtxRead _ _ _ _) as [[pCtx1 data]|] eqn:Hread;
      [|intros [= _ <- _]; done].
    intros Hloop. apply IH in Hloop as ->.
    unfold EVP_DigestUpdate. destruct (pOsslShaCtx pThis) eqn:E; simpl; by rewrite ?E.
Qed.

(** X13.  What a SHA request never touches, whatever its status, when the
    digest of a pending context fits the digest buffer of the request (a
    SHA-384 context is not finalised by a SHA-256 request): PSP memory, the
    state of the other engines, the size of the storage buffer, and every
    byte of the storage buffer outside the digest window of the slot its
    source memory type names.  A request that is not the end of a message
    leaves the whole storage buffer as it is, whatever the context. *)
Theorem sha_frame pThis pReq uFunc fInit fEom :
  (fEom = true ->
   forall ctx, pOsslShaCtx pThis = Some ctx ->
     EVP_MD_size (md_type ctx)
     <= if u32 (CCP_V5_ENGINE_SHA_TYPE_GET uFunc) =? CCP_V5_ENGINE_SHA_TYPE_256
        then 32 else 48) ->
  let r := pspDevCcpReqShaProcess pThis pReq uFunc fInit fEom in
  let cbDigest :=
    if u32 (CCP_V5_ENGINE_SHA_TYPE_GET uFunc) =? CCP_V5_ENGINE_SHA_TYPE_256
    then 32 else 48 in
  hIoMgr r.2 = hIoMgr pThis /\ ExtCtx r.2 = ExtCtx pThis /\
  length (Lsb r.2) = length (Lsb pThis) /\
  (fEom = false -> Lsb r.2 = Lsb pThis) /\
  (forall i : nat,
     ~ (req_lsb_ctx_id pReq * 32 <= Z.of_nat i < req_lsb_ctx_id pReq * 32 + cbDigest) ->
     Lsb r.2 !! i = Lsb pThis !! i).
Proof.
  intros Hfit. unfold pspDevCcpReqShaProcess.
  destruct (_ || _); [|done].
  destruct (sha_digest_size uFunc) as (md & -> & Hmd). rewrite <- Hmd in Hfit |- *.
  clear Hmd. pose proof (EVP_MD_size_bound md) as Hsz.
  destruct (pspDevCcpXferCtxInit _ _ _ _ _) as [pThis1 [pCtx|]] eqn:Hinit.
  2: { unfold pspDevCcpXferCtxInit in Hinit.
       destruct (xfer_fn_of_mem_type _); [|by injection Hinit as <-].
       destruct (if negb true then _ else _) as [[? ?]|]; [done|]. by injection Hinit as <-. }
  apply pspDevCcpXferCtxInit_sha in Hinit as (-> & Hslot & rfn & Hrfn & ->).
  rewrite u64_small by lia.
  set (pThis2 := match pOsslShaCtx (set_cbWrittenLast 0 pThis) with
                 | Some _ => set_cbWrittenLast 0 pThis
                 | None => set_pOsslShaCtx (Some (mkEVP_MD_CTX md [])) (set_cbWrittenLast 0 pThis)
                 end).
  assert (H2 : Lsb pThis2 = Lsb pThis /\ hIoMgr pThis2 = hIoMgr pThis
               /\ ExtCtx pThis2 = ExtCtx pThis).
  { unfold pThis2. simpl. by destruct (pOsslShaCtx pThis). }
  destruct H2 as (HL2 & HM2 & HE2).
  destruct (sha_loop _ _ _ _) as [[rc1 pThis3] pCtx3] eqn:Hloop.
  pose proof (sha_loop_md_type _ _ _ _ _ _ _ Hloop) as Hty3.
  apply sha_loop_any in Hloop as (HL3 & HM3 & HE3 & _ & Hfn3 & HD3 & HW3 & HR3).
  simpl in Hfn3, HD3, HW3, HR3.
  assert (Hsame : hIoMgr pThis3 = hIoMgr pThis /\ ExtCtx pThis3 = ExtCtx pThis /\
                  length (Lsb pThis3) = length (Lsb pThis) /\ Lsb pThis3 = Lsb pThis)
    by (repeat split; congruence).
  destruct ((rc1 =? 0) && fEom) eqn:Hfin.
  2: { simpl. destruct Hsame as (? & ? & ? & HL). rewrite HL. done. }
  apply andb_true_iff in Hfin as [_ ->].
  destruct (pOsslShaCtx pThis3) as [ctx|] eqn:Hc3.
  2: { simpl. destruct Hsame as (? & ? & ? & HL). rewrite HL. done. }
  assert (Hctx : EVP_MD_size (md_type ctx) <= EVP_MD_size md).
  { revert Hty3. unfold pThis2. simpl.
    destruct (pOsslShaCtx pThis) as [c|] eqn:Hc; simpl; rewrite ?Hc; simpl;
      intros [= ->]; [by apply Hfit|lia]. }
  unfold EVP_DigestFinal_ex. cbv zeta.
  pose proof (EVP_Digest_length (md_type ctx) (md_data ctx)) as Hdl.
  pose proof (indeterminate_length (EVP_MD_size md)) as Hil.
  destruct (Nat.leb_spec (length (EVP_Digest (md_type ctx) (md_data ctx)))
              (length (indeterminate (EVP_MD_size md)))) as [_|Hlt]; [|lia].
  destruct (pspDevCcpXferCtxWrite _ _ _ _ _) as [[rc2 pThis4] pCtx4] eqn:Hwrite. simpl.
  pose proof Hwrite as Hany.
  apply pspDevCcpXferCtxWrite_any in Hany as (_ & W2 & W3 & _ & W5 & _).
  rewrite Hfn3 in W5.
  split; [rewrite W5 by done; congruence|]. split; [congruence|]. split; [congruence|].
  split; [done|].
  intros i Hi.
  unfold pspDevCcpXferCtxWrite in Hwrite. simpl orb in Hwrite.
  rewrite HR3 in Hwrite.
  destruct (nonzero _ && _).
  - apply xfer_write_rev_lsb_outside with (i := i) in Hwrite; [congruence|done|..].
    + rewrite HD3, length_take. lia.
    + rewrite HD3, length_take. lia.
  - injection Hwrite as _ <- _. congruence.
Qed.

(** X14.  A SHA request that ends a message and whose digest window would run
    past the end of the storage buffer, which is the case of SHA-384 into
    the last slot, never succeeds and leaves the storage buffer as it is. *)
Theorem sha_digest_past_lsb_end pThis pReq uFunc fInit :
  4096 < req_lsb_ctx_id pReq * 32
         + (if u32 (CCP_V5_ENGINE_SHA_TYPE_GET uFunc) =? CCP_V5_ENGINE_SHA_TYPE_256
            then 32 else 48) ->
  let r := pspDevCcpReqShaProcess pThis pReq uFunc fInit true in
  r.1 <> 0 /\ Lsb r.2 = Lsb pThis.
Proof.
  intros Hpast. unfold pspDevCcpReqShaProcess.
  destruct (_ || _); [|done].
  destruct (sha_digest_size uFunc) as (md & -> & Hmd). rewrite <- Hmd in Hpast.
  pose proof (EVP_MD_size_bound md) as Hsz.
  destruct (pspDevCcpXferCtxInit _ _ _ _ _) as [pThis1 [pCtx|]] eqn:Hinit.
  2: { unfold pspDevCcpXferCtxInit in Hinit.
       destruct (xfer_fn_of_mem_type _); [|by injection Hinit as <-].
       destruct (if negb true then _ else _) as [[? ?]|]; [done|]. by injection Hinit as <-. }
  apply pspDevCcpXferCtxInit_sha in Hinit as (-> & Hslot & rfn & Hrfn & ->).
  rewrite u64_small by lia.
  set (pThis2 := match pOsslShaCtx (set_cbWrittenLast 0 pThis) with
                 | Some _ => set_cbWrittenLast 0 pThis
                 | None => set_pOsslShaCtx (Some (mkEVP_MD_CTX md [])) (set_cbWrittenLast 0 pThis)
                 end).
  assert (HL2 : Lsb pThis2 = Lsb pThis).
  { unfold pThis2. simpl. by destruct (pOsslShaCtx pThis). }
  destruct (sha_loop _ _ _ _) as [[rc1 pThis3] pCtx3] eqn:Hloop.
  apply sha_loop_any in Hloop as (HL3 & _ & _ & _ & Hfn3 & HD3 & HW3 & HR3).
  simpl in Hfn3, HD3, HW3, HR3.
  rewrite andb_true_r.
  destruct (Z.eqb_spec rc1 0) as [->|Hne]; [|simpl; split; [done|congruence]].
  destruct (pOsslShaCtx pThis3) as [ctx|]; [|simpl; split; [done|congruence]].
  assert (Hmd48 : EVP_MD_size md = 48) by (destruct md; simpl in Hpast |- *; lia).
  unfold EVP_DigestFinal_ex. cbv zeta.
  pose proof (EVP_Digest_length (md_type ctx) (md_data ctx)) as Hdl.
  pose proof (EVP_MD_size_bound (md_type ctx)) as Hcb.
  pose proof (indeterminate_length (EVP_MD_size md)) as Hil.
  destruct (Nat.leb_spec (length (EVP_Digest (md_type ctx) (md_data ctx)))
              (length (indeterminate (EVP_MD_size md)))) as [_|Hlt]; [|lia].
  unfold pspDevCcpXferCtxWrite. simpl orb. rewrite HR3, HW3, Z.min_id.
  assert (Hnz : nonzero (EVP_MD_size md) = true).
  { unfold nonzero. destruct (Z.eqb_spec (EVP_MD_size md) 0); [lia|done]. }
  rewrite Hnz, Z.eqb_refl. simpl andb. cbv iota.
  destruct (take _ _) as [|b l] eqn:Htake.
  { apply (f_equal length) in Htake. revert Htake.
    rewrite length_take, length_inserts. simpl. lia. }
  simpl. rewrite Hfn3, HD3. simpl.
  rewrite u64_small by lia.
  unfold pspDevCcpXferMemLsbWrite, sizeof_Lsb.
  destruct (Z.ltb_spec (req_lsb_ctx_id pReq * 32 + EVP_MD_size md - 1) 4096) as [|_]; [lia|].
  simpl. split; [done|congruence].
Qed.

(** X15.  The SHA engine and the byte swap together.  After a SHA-256 request
    that ended a message, a PASSTHRU request with the 256-bit byte swap
    whose source is the slot of the digest in the storage buffer delivers
    the digest of the message in its natural byte order. *)
Theorem sha256_digest_through_swap pThis pSha uSha fInit (acc : list byte) pThis1
    pCopy uCopy pThis2 :
  sha_type_is uSha EVP_sha256 ->
  req_wf pSha -> req_wf pCopy ->
  length (Lsb pThis) = 4096%nat ->
  sha_ctx_holds EVP_sha256 (pOsslShaCtx pThis) acc ->
  pspDevCcpReqShaProcess pThis pSha uSha fInit true = (0, pThis1) ->
  req_src_fn pCopy = Some XferMemLsb ->
  req_src_addr pCopy = req_lsb_ctx_id pSha * 32 ->
  u8 (CCP_V5_ENGINE_PASSTHRU_BYTESWAP_GET uCopy) = CCP_V5_ENGINE_PASSTHRU_BYTESWAP_256BIT ->
  pspDevCcpReqPassthruProcess pThis1 pCopy uCopy = (0, pThis2) ->
  req_dst_window pThis2 pCopy 32 = EVP_Digest EVP_sha256 (acc ++ req_src_window pThis pSha).
Proof.
  intros Hty HwfS HwfC Hlen Hacc Hsha Hfn Haddr Hbs Hcopy.
  apply (sha_process_ok _ _ _ _ _ _ _ _ Hty HwfS Hlen Hacc) in Hsha as (Hlen1 & _ & Hslot).
  apply passthru_swap_copy in Hcopy as (Hcb & _ & ->); [|done..].
  unfold req_src_window. rewrite Hfn, Haddr, Hcb.
  change (xfer_peek XferMemLsb pThis1 (req_lsb_ctx_id pSha * 32) 32)
    with (xfer_peek XferMemLsb pThis1 (req_lsb_ctx_id pSha * 32) (EVP_MD_size EVP_sha256)).
  rewrite Hslot. apply reverse_involutive.
Qed.

End ShaFurther.

(** ** More on the RSA engine *)

Section RsaFurther.
Context `{hdr : CcpHdr} {Ext : Type} `{env : !CcpEnv Ext}.
Implicit Types (pThis : CCPCORE Ext) (pReq : CCP5REQ).

Lemma reverse_buf_loop_length fuel (buf : list byte) i j :
  length (reverse_buf_loop fuel buf i j) = length buf.
Proof.
  revert buf i j. induction fuel as [|fuel IH]; intros buf i j; simpl; [done|].
  destruct (i <? j); [|done]. by rewrite IH, !length_insert.
Qed.

Lemma reverse_buf_loop_lookup fuel (buf : list byte) i j (k : nat) :
  0 <= i -> j < Z.of_nat (length buf) -> j - i + 1 <= 2 * Z.of_nat fuel ->
  reverse_buf_loop fuel buf i j !! k
  = if bool_decide (i <= Z.of_nat k <= j) then buf !! Z.to_nat (i + j - Z.of_nat k)
    else buf !! k.
Proof.
  revert buf i j. induction fuel as [|fuel IH]; intros buf i j Hi Hj Hfuel; simpl.
  - case_bool_decide; [lia|done].
  - destruct (Z.ltb_spec i j) as [Hlt|Hge].
    + rewrite IH by (rewrite ?length_insert; lia).
      destruct (lookup_lt_is_Some_2 buf (Z.to_nat i)) as [bi Hbi]; [lia|].
      destruct (lookup_lt_is_Some_2 buf (Z.to_nat j)) as [bj Hbj]; [lia|].
      rewrite Hbi, Hbj. simpl.
      case_bool_decide as Hin.
      * rewrite bool_decide_true by lia.
        rewrite list_lookup_insert_ne by lia. rewrite list_lookup_insert_ne by lia.
        f_equal. lia.
      * case_bool_decide as Hin'; [|rewrite !list_lookup_insert_ne by lia; done].
        destruct (decide (Z.of_nat k = i)) as [Hk|Hk].
        -- replace (Z.to_nat (i + j - Z.of_nat k)) with (Z.to_nat j) by lia.
           rewrite list_lookup_insert_ne by lia.
           replace k with (Z.to_nat i) by lia.
           rewrite list_lookup_insert_eq by lia. done.
        -- assert (Z.of_nat k = j) by lia.
           replace (Z.to_nat (i + j - Z.of_nat k)) with (Z.to_nat i) by lia.
           replace k with (Z.to_nat j) by lia.
           rewrite list_lookup_insert_eq by (rewrite length_insert; lia). done.
    + case_bool_decide; [|done]. f_equal. lia.
Qed.

(** X16.  The swap loop of pspDevCcpReverseBuf does what its name says: it ends
    within [cbBuf] iterations with the first [cbBuf] bytes of the buffer in
    reverse order and the bytes behind them as they were, and reversing the
    same bytes again gives the buffer back. *)
Theorem reverse_buf_loop_reverses (pbBuf : list byte) (cbBuf : Z) :
  0 <= cbBuf <= Z.of_nat (length pbBuf) ->
  pspDevCcpReverseBuf_loop pbBuf cbBuf
  = reverse (take (Z.to_nat cbBuf) pbBuf) ++ drop (Z.to_nat cbBuf) pbBuf
  /\ pspDevCcpReverseBuf_loop (pspDevCcpReverseBuf_loop pbBuf cbBuf) cbBuf = pbBuf.
Proof.
  intros Hcb.
  assert (Hrev : forall buf : list byte,
            Z.of_nat (length buf) = Z.of_nat (length pbBuf) ->
            pspDevCcpReverseBuf_loop buf cbBuf
            = reverse (take (Z.to_nat cbBuf) buf) ++ drop (Z.to_nat cbBuf) buf).
  { intros buf Hlen. apply list_eq. intros k. unfold pspDevCcpReverseBuf_loop.
    rewrite reverse_buf_loop_lookup by lia.
    destruct (decide (Z.of_nat k < cbBuf)) as [Hk|Hk].
    - rewrite bool_decide_true by lia.
      rewrite lookup_app_l by (rewrite length_reverse, length_take; lia).
      rewrite reverse_lookup by (rewrite length_take; lia).
      rewrite length_take, lookup_take_lt by lia. f_equal. lia.
    - rewrite bool_decide_false by lia.
      rewrite lookup_app_r by (rewrite length_reverse, length_take; lia).
      rewrite length_reverse, length_take, lookup_drop. f_equal. lia. }
  split; [by apply Hrev|].
  rewrite (Hrev (pspDevCcpReverseBuf_loop pbBuf cbBuf)).
  2: { unfold pspDevCcpReverseBuf_loop. by rewrite reverse_buf_loop_length. }
  rewrite Hrev by done.
  assert (Hl : length (reverse (take (Z.to_nat cbBuf) pbBuf)) = Z.to_nat cbBuf)
    by (rewrite length_reverse, length_take; lia).
  rewrite take_app_length' by done. rewrite drop_app_length' by done.
  rewrite reverse_involutive. apply take_drop.
Qed.

(** X17.  The RSA engine with the key in PSP memory or in the storage buffer.  A
    request that succeeds has mode 0 and a size of 256 or 512 bytes with a
    source of twice the size, and it leaves in the destination, in
    little-endian order, the message to the power of the exponent read from
    the key area, modulo the modulus in the first half of the source. *)
Theorem rsa_modular_exponentiation pThis pReq uFunc fInit fEom (abExp : list byte)
    fn pThis' :
  req_wf pReq ->
  length (Lsb pThis) = 4096%nat ->
  length abExp = 512%nat ->
  req_key_fn pReq = Some fn ->
  pspDevCcpReqRsaProcess pThis pReq uFunc fInit fEom abExp = (0, pThis') ->
  let uSz := u16 (CCP_V5_ENGINE_RSA_SZ_GET uFunc) in
  let src := req_src_window pThis pReq in
  let modulus := le_to_Z (take (Z.to_nat uSz) src) in
  let message := le_to_Z (drop (Z.to_nat uSz) src) in
  let exponent :=
    le_to_Z (take (Z.to_nat (uSz / 2)) (xfer_peek fn pThis (req_key_addr pReq) uSz)) in
  u8 (CCP_V5_ENGINE_RSA_MODE_GET uFunc) = 0 /\
  ((uSz = 256 /\ cbSrc pReq = 512) \/ (uSz = 512 /\ cbSrc pReq = 1024)) /\
  req_dst_window pThis' pReq uSz = Z_to_le (Z.to_nat uSz) (message ^ exponent mod modulus).
Proof.
  intros Hwf Hlen Hexp Hkey Hproc.
  pose proof (rsa_process_result _ _ _ _ _ _ _ Hwf Hlen Hexp Hproc) as Hres.
  cbv zeta in Hres. rewrite Hkey in Hres.
  destruct Hres as ((Hmode & Hsz) & Hdst). done.
Qed.

End RsaFurther.

(** ** The count of bytes written *)

Section WrittenCount.
Context `{hdr : CcpHdr} {Ext : Type} `{env : !CcpEnv Ext}.
Implicit Types (pThis : PSPDEVCCP Ext) (pReq : CCP5REQ).

(** X12.  The register at offset 0x28 of the second MMIO window after a
    successful PASSTHRU request.  It reads as the number of bytes the
    request wrote to PSP memory: the whole source size when the destination
    is PSP memory, zero when it is the storage buffer. *)
Theorem passthru_written_count pThis pReq uFunc (core' : CCPCORE Ext) (pvDst : list byte) :
  req_wf pReq ->
  length (Lsb (Core pThis)) = 4096%nat ->
  pspDevCcpReqPassthruProcess (Core pThis) pReq uFunc = (0, core') ->
  (pspDevCcpMmioRead2 (set_Core core' pThis) 40 4 pvDst).1
  = list_inserts 0
      (Z_to_le 4 (if bool_decide (req_dst_fn pReq = Some XferMemLocal)
                  then cbSrc pReq else 0)) pvDst.
Proof.
  intros Hwf Hlen Hproc.
  pose proof (passthru_count _ _ _ _ Hwf Hlen Hproc) as Hcnt.
  destruct Hwf as (Hcb & _).
  unfold pspDevCcpMmioRead2.
  change (negb (4 =? 4)) with false. change (40 =? 40) with true. cbv iota.
  cbn [fst set_Core Core]. rewrite Hcnt. f_equal. f_equal.
  unfold u32. case_bool_decide; apply Z.mod_small; lia.
Qed.

End WrittenCount.

(** ** The dispatch on the engine *)

Section DispatchProperties.
Context `{hdr : CcpHdr} {Ext : Type} `{env : !CcpEnv Ext}.
Implicit Types (pThis : CCPCORE Ext) (pReq : CCP5REQ).

(** X18.  The engines without a processor.  A request for DES3 or XTS-AES-128,
    or with an engine number that names none of the six engines that have
    a processor, fails whatever else it holds, and the device is left as
    it is. *)
Theorem unsupported_engines_fail pThis pReq :
  u32 (CCP_V5_ENGINE_GET (u32Dw0 pReq)) = CCP_V5_ENGINE_DES3
  \/ u32 (CCP_V5_ENGINE_GET (u32Dw0 pReq)) = CCP_V5_ENGINE_XTS_AES128
  \/ u32 (CCP_V5_ENGINE_GET (u32Dw0 pReq))
       ∉ [CCP_V5_ENGINE_PASSTHRU; CCP_V5_ENGINE_SHA; CCP_V5_ENGINE_AES;
          CCP_V5_ENGINE_ZLIB_DECOMP; CCP_V5_ENGINE_RSA; CCP_V5_ENGINE_ECC] ->
  pspDevCcpReqProcess pThis pReq = (-1, pThis).
Proof.
  intros Heng.
  assert (Hnot : u32 (CCP_V5_ENGINE_GET (u32Dw0 pReq))
                   ∉ [CCP_V5_ENGINE_PASSTHRU; CCP_V5_ENGINE_SHA; CCP_V5_ENGINE_AES;
                      CCP_V5_ENGINE_ZLIB_DECOMP; CCP_V5_ENGINE_RSA; CCP_V5_ENGINE_ECC]).
  { pose proof engine_labels as H.
    rewrite !NoDup_cons, !not_elem_of_cons in H.
    destruct Heng as [-> | [-> | Hn]]; [| |done];
      rewrite !not_elem_of_cons; intuition congruence. }
  rewrite !not_elem_of_cons in Hnot.
  destruct Hnot as (H1 & H2 & H3 & H4 & H5 & H6 & _).
  unfold pspDevCcpReqProcess.
  repeat match goal with
         | |- context [?a =? ?b] => destruct (Z.eqb_spec a b); [done|]
         end.
  done.
Qed.

End DispatchProperties.

(** ** The helpers of the ECC engine *)

Section EccProperties.
Context `{hdr : CcpHdr} {Ext : Type}.
Implicit Types (pThis : CCPCORE Ext) (pCtx : CCPXFERCTX).

(** X19.  The prime check of pspDevCcpEccGetGroup.  The table in the code is the
    prime of NIST P-384, and the group is handed out for that prime and for
    no other. *)
Theorem ecc_group_prime_p384 (pPrime : Z) :
  pspDevCcpEccGetGroup pPrime = Some EC_curve_P384
  <-> pPrime = 2 ^ 384 - 2 ^ 128 - 2 ^ 96 + 2 ^ 32 - 1.
Proof.
  unfold pspDevCcpEccGetGroup.
  assert (Htab : le_to_Z abPrime384 = 2 ^ 384 - 2 ^ 128 - 2 ^ 96 + 2 ^ 32 - 1)
    by (vm_compute; reflexivity).
  rewrite Htab. cbv zeta.
  destruct (Z.eqb_spec pPrime (2 ^ 384 - 2 ^ 128 - 2 ^ 96 + 2 ^ 32 - 1)) as [Heq|Hne];
    simpl; split; intros H; (done || congruence).
Qed.

Lemma BN_num_bytes_le (n k : Z) :
  0 <= n -> 0 < k -> (BN_num_bytes n <= k <-> n < 2 ^ (8 * k)).
Proof.
  intros Hn Hk. unfold BN_num_bytes.
  destruct (Z.eqb_spec n 0) as [->|Hne].
  - split; intros _; [apply Z.pow_pos_nonneg|]; lia.
  - assert (Hlog : 0 <= Z.log2 n) by apply Z.log2_nonneg.
    rewrite Z.log2_lt_pow2 by lia.
    pose proof (Z.div_mod (Z.log2 n) 8 ltac:(lia)).
    pose proof (Z.mod_pos_bound (Z.log2 n) 8 ltac:(lia)).
    lia.
Qed.

Lemma ecc_return_number_spec pThis pCtx (pResult : Z) rc pThis' pCtx' :
  0 <= pResult ->
  fWriteRev pCtx = false ->
  0 <= CcpAddrDst pCtx -> CcpAddrDst pCtx + 72 < 2 ^ 64 ->
  length (Lsb pThis) = 4096%nat ->
  pspDevCcpReqEccReturnNumber pThis pCtx pResult = (rc, pThis', pCtx') ->
  (2 ^ 576 <= pResult \/ cbWriteLeft pCtx < 72 -> rc = -1 /\ pThis' = pThis /\ pCtx' = pCtx) /\
  (rc = 0 ->
   pResult < 2 ^ 576 /\
   xfer_written (pfnWrite pCtx) pThis (CcpAddrDst pCtx) 72 (Z_to_le 72 pResult) pThis' /\
   pCtx' = mkCCPXFERCTX (pfnRead pCtx) (pfnWrite pCtx) (CcpAddrSrc pCtx) (cbReadLeft pCtx)
             (CcpAddrDst pCtx + 72) (cbWriteLeft pCtx - 72) false).
Proof.
  intros Hn Hrev HD HDov Hlen. unfold pspDevCcpReqEccReturnNumber, sizeof_CCP5ECCNUM.
  pose proof (BN_num_bytes_le pResult 72 Hn ltac:(lia)) as Hfit.
  change (8 * 72) with 576 in Hfit.
  destruct (Z.gtb_spec (BN_num_bytes pResult) 72) as [Hbig|Hok].
  - intros [= <- <- <-]. split; [done|]. intros; lia.
  - change (Z.to_nat 72) with 72%nat. intros Hw.
    assert (Hlt : pResult < 2 ^ 576) by (apply Hfit; lia).
    split.
    + intros [Hge|Hleft]; [lia|].
      revert Hw. unfold pspDevCcpXferCtxWrite. simpl orb.
      rewrite Z.min_r by lia.
      destruct (Z.eqb_spec (cbWriteLeft pCtx) 72); [lia|].
      rewrite andb_false_r. by intros [= <- <- <-].
    + intros ->.
      apply pspDevCcpXferCtxWrite_written in Hw as (_ & Hwr & ->);
        [|done|lia..|rewrite Z_to_le_length; lia|done].
      done.
Qed.

Lemma xfer_peek_frame fn (pThis pThis' : CCPCORE Ext) a n :
  0 <= a -> 0 <= n ->
  (forall i, 0 <= i < n -> xfer_byte fn pThis' (a + i) = xfer_byte fn pThis (a + i)) ->
  xfer_peek fn pThis' a n = xfer_peek fn pThis a n.
Proof.
  intros Ha Hn Hsame. unfold xfer_peek. apply list_fmap_ext.
  intros i x [-> Hx]%lookup_seqZ. apply Hsame. lia.
Qed.

(** X20.  The output of the ECC engine.  A number that fits 72 bytes is written
    little-endian on 72 bytes where the context points, and reads back as
    itself; a number of 2^576 or more, or a context with less than 72 bytes
    left, fails with nothing written.  A point is written as its X
    coordinate followed by its Y coordinate. *)
Theorem ecc_return_round_trip pThis pCtx (pX pY : Z) :
  0 <= pX -> 0 <= pY ->
  fWriteRev pCtx = false ->
  0 <= CcpAddrDst pCtx -> CcpAddrDst pCtx + 144 < 2 ^ 64 ->
  length (Lsb pThis) = 4096%nat ->
  (forall rc pThis' pCtx',
     pspDevCcpReqEccReturnNumber pThis pCtx pX = (rc, pThis', pCtx') ->
     (2 ^ 576 <= pX \/ cbWriteLeft pCtx < 72 -> rc = -1 /\ pThis' = pThis) /\
     (rc = 0 -> le_to_Z (xfer_peek (pfnWrite pCtx) pThis' (CcpAddrDst pCtx) 72) = pX)) /\
  (forall pThis' pCtx',
     pspDevCcpReqEccReturnPoint pThis pCtx (Some (pX, pY)) = (0, pThis', pCtx') ->
     le_to_Z (xfer_peek (pfnWrite pCtx) pThis' (CcpAddrDst pCtx) 72) = pX /\
     le_to_Z (xfer_peek (pfnWrite pCtx) pThis' (CcpAddrDst pCtx + 72) 72) = pY).
Proof.
  intros HX HY Hrev HD HDov Hlen.
  assert (Hback : forall n, 0 <= n < 2 ^ 576 -> le_to_Z (Z_to_le 72 n) = n).
  { intros n Hn. rewrite le_to_Z_to_le. change (8 * Z.of_nat 72) with 576.
    apply Z.mod_small. lia. }
  split.
  - intros rc pThis' pCtx' Hnum.
    apply ecc_return_number_spec in Hnum as (Hfail & Hok); [|done|done|done|lia|done].
    split; [intros H; by destruct (Hfail H) as (? & ? & _)|].
    intros Hrc. destruct (Hok Hrc) as (Hlt & Hwr & _).
    rewrite (xfer_written_peek _ _ _ _ _ _ Hwr) by (by rewrite Z_to_le_length).
    apply Hback. lia.
  - intros pThis' pCtx'. unfold pspDevCcpReqEccReturnPoint.
    destruct (pspDevCcpReqEccReturnNumber pThis pCtx pX) as [[rc1 pThis1] pCtx1] eqn:H1.
    apply ecc_return_number_spec in H1 as (_ & Hok1); [|done|done|done|lia|done].
    destruct (Z.eqb_spec rc1 0) as [->|Hne]; [|by intros [= ? _ _]].
    destruct Hok1 as (Hlt1 & Hwr1 & ->); [done|].
    intros H2.
    assert (Hlen1 : length (Lsb pThis1) = 4096%nat).
    { destruct Hwr1 as (_ & _ & Hl & _). by rewrite Hl. }
    apply ecc_return_number_spec in H2 as (_ & Hok2);
      cbn [pfnWrite CcpAddrDst fWriteRev]; [|done|done|lia|lia|done].
    destruct Hok2 as (Hlt2 & Hwr2 & _); [done|]. cbn [pfnWrite CcpAddrDst] in Hwr2.
    split.
    + transitivity (le_to_Z (Z_to_le 72 pX)); [|apply Hback; lia].
      rewrite <- (xfer_written_peek _ _ _ _ _ _ Hwr1) by (by rewrite Z_to_le_length).
      f_equal. apply xfer_peek_frame; [done|lia|].
      intros i Hi. destruct Hwr2 as (_ & Hframe & _).
      apply Hframe; [lia|]. right. intros j Hj.
      replace (CcpAddrDst pCtx + 72 + j) with (CcpAddrDst pCtx + (72 + j)) by lia.
      apply xfer_cell_window_inj; lia.
    + rewrite (xfer_written_peek _ _ _ _ _ _ Hwr2) by (by rewrite Z_to_le_length).
      apply Hback. lia.
Qed.

End EccProperties.

(** ** The tracer *)

Section TracerProperties.
Context `{thdr : TraceHdr}.
Implicit Types (pThis : PSPTRACEINT) (pEvt : PSPTRACEEVT) (w : TRACERS)
  (hTrace : option nat) (io : TRACEIO).

Lemma configure_spec pThis (tys : list nat) fEnable rc pThis' :
  pspEmuTraceEvtTypeConfigure pThis tys fEnable = (rc, pThis') ->
  pThis' = set_afEvtTypesEnabled (afEvtTypesEnabled pThis') pThis /\
  length (afEvtTypesEnabled pThis') = length (afEvtTypesEnabled pThis) /\
  (forall t, afEvtTypesEnabled pThis !! t = Some true ->
             afEvtTypesEnabled pThis' !! t = Some true) /\
  (Forall (fun t => (t < PSPTRACEEVTTYPE_LAST)%nat) tys ->
   rc = 0 /\
   (forall t, t ∈ tys -> (t < length (afEvtTypesEnabled pThis))%nat ->
              afEvtTypesEnabled pThis' !! t = Some true) /\
   (forall t, t ∉ tys -> afEvtTypesEnabled pThis' !! t = afEvtTypesEnabled pThis !! t)).
Proof.
  revert pThis. induction tys as [|ty tys IH]; intros pThis; simpl.
  - intros [= <- <-]. split; [by destruct pThis|]. split; [done|]. split; [done|].
    intros _. split; [done|]. split; [|done]. intros t Ht. by apply elem_of_nil in Ht.
  - destruct (Nat.ltb_spec ty PSPTRACEEVTTYPE_LAST) as [Hlt|Hge].
    + intros Hcfg. apply IH in Hcfg as (Hsame & Hlen & Hmono & Hall). simpl in *.
      rewrite length_insert in Hlen.
      split; [rewrite Hsame; by destruct pThis|]. split; [done|].
      split.
      { intros t Ht. apply Hmono.
        destruct (decide (ty = t)) as [->|Hne].
        - apply list_lookup_insert_eq. by apply lookup_lt_Some in Ht.
        - by rewrite list_lookup_insert_ne. }
      intros Hvalid. apply Forall_cons in Hvalid as [_ Hvalid].
      destruct (Hall Hvalid) as (-> & Hin & Hout). split; [done|]. split.
      * intros t Ht Htlen. apply elem_of_cons in Ht as [->|Ht].
        -- apply Hmono. by apply list_lookup_insert_eq.
        -- apply Hin; [done|]. by rewrite length_insert.
      * intros t Ht. apply not_elem_of_cons in Ht as [Hne Ht].
        rewrite Hout by done. by rewrite list_lookup_insert_ne.
    + intros [= <- <-]. split; [by destruct pThis|]. split; [done|]. split; [done|].
      intros Hvalid. apply Forall_cons in Hvalid as [Hvalid _]. lia.
Qed.

(** X21.  PSPEmuTraceEvtDisable does not disable.  The flag that tells enabling
    from disabling is not looked at: after the call every listed event
    type is enabled, and no type that was enabled has been disabled. *)
Theorem trace_disable_enables w hTrace (tys : list nat) (h : nat) pThis :
  trace_instance w hTrace = Some (h, pThis) ->
  length (afEvtTypesEnabled pThis) = PSPTRACEEVTTYPE_LAST ->
  Forall (fun t => (t < PSPTRACEEVTTYPE_LAST)%nat) tys ->
  exists pThis',
    PSPEmuTraceEvtDisable w hTrace tys = (0, set_instance h pThis' w) /\
    (forall t, t ∈ tys -> afEvtTypesEnabled pThis' !! t = Some true) /\
    (forall t, afEvtTypesEnabled pThis !! t = Some true ->
               afEvtTypesEnabled pThis' !! t = Some true) /\
    (forall t, t ∉ tys -> afEvtTypesEnabled pThis' !! t = afEvtTypesEnabled pThis !! t).
Proof.
  intros Hinst Hlen Hvalid. unfold PSPEmuTraceEvtDisable. rewrite Hinst.
  destruct (pspEmuTraceEvtTypeConfigure pThis tys false) as [rc pThis'] eqn:Hcfg.
  apply configure_spec in Hcfg as (_ & _ & Hmono & Hall).
  destruct (Hall Hvalid) as (-> & Hin & Hout).
  exists pThis'. split; [done|]. split; [|done].
  intros t Ht. apply Hin; [done|]. rewrite Hlen.
  by apply (proj1 (Forall_forall _ _) Hvalid).
Qed.

(** X22.  An event type that does not exist stops the configuration.
    PSPEmuTraceEvtEnable fails on it, but the types listed before it have
    been enabled, and the types after it are not looked at. *)
Theorem trace_enable_stops_at_invalid w hTrace (pre post : list nat) (bad h : nat) pThis :
  trace_instance w hTrace = Some (h, pThis) ->
  length (afEvtTypesEnabled pThis) = PSPTRACEEVTTYPE_LAST ->
  Forall (fun t => (t < PSPTRACEEVTTYPE_LAST)%nat) pre ->
  (PSPTRACEEVTTYPE_LAST <= bad)%nat ->
  exists pThis',
    PSPEmuTraceEvtEnable w hTrace (pre ++ bad :: post) = (-1, set_instance h pThis' w) /\
    (forall t, t ∈ pre -> afEvtTypesEnabled pThis' !! t = Some true) /\
    (forall t, t ∉ pre -> afEvtTypesEnabled pThis' !! t = afEvtTypesEnabled pThis !! t).
Proof.
  intros Hinst Hlen Hvalid Hbad. unfold PSPEmuTraceEvtEnable. rewrite Hinst.
  assert (Hsplit : forall (l : list nat) p,
            pspEmuTraceEvtTypeConfigure p (l ++ bad :: post) true
            = (-1, (pspEmuTraceEvtTypeConfigure p l true).2)
            \/ ~ Forall (fun t => (t < PSPTRACEEVTTYPE_LAST)%nat) l).
  { induction l as [|t l IH]; intros p; simpl.
    - left. destruct (Nat.ltb_spec bad PSPTRACEEVTTYPE_LAST); [lia|done].
    - destruct (Nat.ltb_spec t PSPTRACEEVTTYPE_LAST) as [Hlt|Hge].
      + destruct (IH (set_afEvtTypesEnabled (<[t:=true]> (afEvtTypesEnabled p)) p))
          as [->|Hn]; [by left|].
        right. intros [_ H]%Forall_cons. done.
      + right. intros [H _]%Forall_cons. lia. }
  destruct (Hsplit pre pThis) as [->|Hn]; [|done].
  destruct (pspEmuTraceEvtTypeConfigure pThis pre true) as [rc pThis'] eqn:Hcfg.
  apply configure_spec in Hcfg as (_ & _ & _ & Hall).
  destruct (Hall Hvalid) as (_ & Hin & Hout).
  exists pThis'. split; [done|]. split; [|done].
  intros t Ht. apply Hin; [done|]. rewrite Hlen.
  by apply (proj1 (Forall_forall _ _) Hvalid).
Qed.

(** What a successful link does to a numbered tracer. *)
Lemma link_keeps_wf pThis pEvt io rc pThis' :
  trace_wf pThis ->
  cTraceEvtsMax pThis + 4096 < 2 ^ 64 ->
  pspEmuTraceEvtLink pThis pEvt io = (rc, pThis') ->
  trace_wf pThis' /\
  afEvtTypesEnabled pThis' = afEvtTypesEnabled pThis /\
  fFlags pThis' = fFlags pThis /\
  (rc <> 0 -> pThis' = pThis) /\
  (rc = 0 ->
   cTraceEvts pThis' = cTraceEvts pThis + 1 /\
   papTraceEvts pThis'
   = <[cTraceEvts pThis := set_idTraceEvt (cTraceEvts pThis) pEvt]> (papTraceEvts pThis) /\
   cbEvtAlloc pThis' = u64 (cbEvtAlloc pThis + u64 (sizeof_PSPTRACEEVT + cbAlloc pEvt))).
Proof.
  intros (Hid & Hcnt & Hcap & Hmod & Hdom & Hids) Hov. unfold pspEmuTraceEvtLink, _4K.
  assert (Hgrow : exists m,
            (if cTraceEvts pThis =? cTraceEvtsMax pThis
             then if io_realloc io
                  then (0, set_cTraceEvtsMax (u64 (cTraceEvtsMax pThis + 4096)) pThis)
                  else (-1, pThis)
             else (0, pThis))
            = (if (cTraceEvts pThis =? cTraceEvtsMax pThis) && negb (io_realloc io)
               then -1 else 0,
               set_cTraceEvtsMax m pThis)
            /\ ((cTraceEvts pThis =? cTraceEvtsMax pThis) && negb (io_realloc io) = true
                -> m = cTraceEvtsMax pThis)
            /\ ((cTraceEvts pThis =? cTraceEvtsMax pThis) && negb (io_realloc io) = false
                -> cTraceEvts pThis + 1 <= m /\ m < cTraceEvts pThis + 1 + 4096
                   /\ m mod 4096 = 0)).
  { destruct (Z.eqb_spec (cTraceEvts pThis) (cTraceEvtsMax pThis)) as [Heq|Hne].
    - destruct (io_realloc io); simpl.
      + exists (u64 (cTraceEvtsMax pThis + 4096)). split; [done|]. split; [done|].
        intros _. rewrite u64_small by lia. split; [lia|]. split; [lia|].
        rewrite <- Z.add_mod_idemp_l by lia. rewrite Hmod. done.
      + exists (cTraceEvtsMax pThis). split; [by destruct pThis|]. done.
    - simpl. exists (cTraceEvtsMax pThis). split; [by destruct pThis|]. split; [done|].
      intros _. split; [lia|]. split; [lia|done]. }
  destruct Hgrow as (m & -> & Hfail & Hok).
  destruct ((cTraceEvts pThis =? cTraceEvtsMax pThis) && negb (io_realloc io)) eqn:Hc.
  - simpl. intros [= <- <-]. rewrite (Hfail eq_refl).
    replace (set_cTraceEvtsMax (cTraceEvtsMax pThis) pThis) with pThis by (by destruct pThis).
    split; [done|]. split; [done|]. split; [done|]. split; [done|]. intros; lia.
  - simpl. intros [= <- <-]. destruct (Hok eq_refl) as (Hm1 & Hm2 & Hm3). simpl.
    rewrite (u64_small (uTraceEvtIdNext pThis + 1)), (u64_small (cTraceEvts pThis + 1))
      by lia.
    split; [|split; [done|split; [done|split; [done|]]]].
    + unfold trace_wf. simpl. rewrite Hid. split; [done|]. split; [lia|].
      split; [lia|]. split; [done|]. split.
      * intros i. rewrite lookup_insert_is_Some, Hdom. split; [|].
        -- intros [<-|[_ H]]; lia.
        -- intros H. destruct (decide (cTraceEvts pThis = i)); [by left|right]. split; [done|lia].
      * intros i e. destruct (decide (cTraceEvts pThis = i)) as [<-|Hne].
        -- rewrite lookup_insert_eq. by intros [= <-].
        -- rewrite lookup_insert_ne by done. apply Hids.
    + intros _. rewrite Hid. done.
Qed.

Lemma create_and_link_keeps_wf pThis ty ct cb io rc pThis' slot :
  trace_wf pThis ->
  cTraceEvtsMax pThis + 4096 < 2 ^ 64 ->
  pspEmuTraceEvtCreateAndLink pThis ty ct cb io = (rc, pThis', slot) ->
  trace_wf pThis' /\
  afEvtTypesEnabled pThis' = afEvtTypesEnabled pThis /\
  match slot with
  | Some i =>
      rc = 0 /\ i = cTraceEvts pThis /\ cTraceEvts pThis' = cTraceEvts pThis + 1 /\
      exists pc,
        papTraceEvts pThis'
        = <[cTraceEvts pThis := mkPSPTRACEEVT (cTraceEvts pThis) ty ct pc cb ContentZero]>
            (papTraceEvts pThis) /\
        cbEvtAlloc pThis' = u64 (cbEvtAlloc pThis + u64 (sizeof_PSPTRACEEVT + cb))
  | None => rc <> 0 /\ pThis' = pThis
  end.
Proof.
  intros Hwf Hov. unfold pspEmuTraceEvtCreateAndLink.
  destruct (io_calloc io); [|by intros [= <- <- <-]].
  set (r := if nonzero _ then _ else _).
  assert (Hr : exists rc0 pc, r = (rc0, mkPSPTRACEEVT 0 ty ct pc cb ContentZero)).
  { unfold r. destruct (nonzero _); eauto. }
  destruct Hr as (rc0 & pc & ->).
  destruct (Z.eqb_spec rc0 0) as [->|Hne]; [|by intros [= <- <- <-]].
  destruct (pspEmuTraceEvtLink _ _ _) as [rc1 pThis1] eqn:Hlink.
  apply link_keeps_wf in Hlink as (Hwf1 & Hen & _ & Hfail & Hok); [|done..].
  destruct (Z.eqb_spec rc1 0) as [->|Hne].
  - intros [= <- <- <-]. destruct Hok as (Hc & Hp & Ha); [done|].
    split; [done|]. split; [done|]. split; [done|]. split; [done|]. split; [done|].
    exists pc. done.
  - intros [= <- <- <-]. rewrite (Hfail Hne). done.
Qed.

Lemma set_abContent_keeps_wf slot c pThis : trace_wf pThis -> trace_wf (set_abContent slot c pThis).
Proof.
  intros (Hid & Hcnt & Hcap & Hmod & Hdom & Hids). unfold trace_wf. simpl.
  split; [done|]. split; [done|]. split; [done|]. split; [done|]. split.
  - intros i. rewrite <- Hdom. destruct (decide (slot = i)) as [->|Hne].
    + rewrite lookup_alter_eq. by rewrite fmap_is_Some.
    + by rewrite lookup_alter_ne.
  - intros i e. destruct (decide (slot = i)) as [->|Hne].
    + rewrite lookup_alter_eq. destruct (papTraceEvts pThis !! i) as [e0|] eqn:He; [|done].
      simpl. intros [= <-]. simpl. by apply Hids.
    + rewrite lookup_alter_ne by done. apply Hids.
Qed.

Lemma trace_fill_instances h r c w (P : PSPTRACEINT -> Prop) pThis :
  instances w !! h = Some pThis ->
  (forall rc p slot, r = (rc, p, slot) -> P p /\ forall s, P (set_abContent s c p)) ->
  (forall h' p', instances w !! h' = Some p' -> P p') ->
  forall h' p', instances (trace_fill h r c w).2 !! h' = Some p' -> P p'.
Proof.
  intros Hh Hr Hw h' p'. destruct r as [[rc p] [slot|]]; simpl.
  - destruct (decide (h = h')) as [->|Hne].
    + rewrite lookup_insert_eq. intros [= <-]. by apply (Hr rc p (Some slot)).
    + rewrite lookup_insert_ne by done. apply Hw.
  - destruct (decide (h = h')) as [->|Hne].
    + rewrite lookup_insert_eq. intros [= <-]. by apply (Hr rc p None).
    + rewrite lookup_insert_ne by done. apply Hw.
Qed.


Lemma trace_instance_live w hTrace h pThis :
  trace_instance w hTrace = Some (h, pThis) -> instances w !! h = Some pThis.
Proof.
  unfold trace_instance. destruct (pspEmuTraceGetInstance w hTrace) as [h0|]; [|done].
  destruct (instances w !! h0) as [p|] eqn:Hp; [|done]. by intros [= <- <-].
Qed.

Lemma instance_for_type_live w hTrace ty io h pThis :
  pspEmuTraceGetInstanceForEvtType w hTrace ty io = Some (h, pThis) ->
  instances w !! h = Some pThis.
Proof.
  unfold pspEmuTraceGetInstanceForEvtType.
  destruct (trace_instance w hTrace) as [[h0 p]|] eqn:Hi; [|done].
  destruct (afEvtTypesEnabled_at _ _ _); [|done].
  intros [= <- <-]. by apply trace_instance_live in Hi.
Qed.

Lemma add_keeps_wf w h pThis ty ct cb io c :
  tracers_wf w ->
  instances w !! h = Some pThis ->
  forall h' p',
    instances (trace_fill h (pspEmuTraceEvtCreateAndLink pThis ty ct cb io) c w).2 !! h'
    = Some p' ->
    trace_wf p'.
Proof.
  intros Hw Hh. apply (trace_fill_instances _ _ _ _ _ pThis Hh).
  - intros rc p slot Hr. destruct (Hw h pThis Hh) as [Hwf Hroom].
    apply create_and_link_keeps_wf in Hr as (Hwf' & _); [|done..].
    split; [done|]. intros s. by apply set_abContent_keeps_wf.
  - intros h' p' Hp. by apply (Hw h' p').
Qed.

Lemma configure_keeps_wf w hTrace tys fEnable h pThis :
  tracers_wf w ->
  trace_instance w hTrace = Some (h, pThis) ->
  forall h' p',
    instances (set_instance h (pspEmuTraceEvtTypeConfigure pThis tys fEnable).2 w) !! h'
    = Some p' ->
    trace_wf p'.
Proof.
  intros Hw Hi h' p'. apply trace_instance_live in Hi.
  destruct (pspEmuTraceEvtTypeConfigure pThis tys fEnable) as [rc pThis'] eqn:Hcfg.
  apply configure_spec in Hcfg as (Hsame & _). simpl.
  destruct (decide (h = h')) as [->|Hne].
  - rewrite lookup_insert_eq. intros [= <-]. rewrite Hsame.
    by destruct (Hw h' pThis Hi) as [Hwf _].
  - rewrite lookup_insert_ne by done. intros Hp. by apply (Hw h' p').
Qed.

(** X23.  The numbering of the events is an invariant of the interface.  After
    any call of it, in every tracer the slots in use are those below the
    count, the event in slot [i] carries the identifier [i], the next
    identifier is the count, and the capacity is the least multiple of 4096
    that holds the count, as long as the capacities stay below 2^64. *)
Theorem trace_calls_keep_numbering w w' :
  tracers_wf w ->
  trace_call w w' ->
  forall h pThis, instances w' !! h = Some pThis -> trace_wf pThis.
Proof.
  intros Hw Hcall.
  assert (Hsame : forall h p, instances w !! h = Some p -> trace_wf p).
  { intros h p Hp. by apply (Hw h p). }
  destruct Hcall.
  - unfold PSPEmuTraceCreate. destruct (io_calloc io); [|done]. simpl.
    intros h p. destruct (decide (fresh (dom (instances w)) = h)) as [<-|Hne].
    + rewrite lookup_insert_eq. intros [= <-]. unfold trace_wf. simpl.
      split; [done|]. split; [lia|]. split; [lia|]. split; [done|]. split.
      * intros i. rewrite lookup_empty. split; [by intros [? ?]|lia].
      * intros i e. by rewrite lookup_empty.
    + rewrite lookup_insert_ne by done. apply Hsame.
  - simpl. intros h0 p Hp. apply lookup_delete_Some in Hp as [_ Hp]. by apply (Hsame h0).
  - done.
  - unfold PSPEmuTraceEvtEnable.
    destruct (trace_instance w hTrace) as [[h0 p0]|] eqn:Hi; [|done].
    pose proof (configure_keeps_wf w hTrace tys true h0 p0 Hw Hi) as Hk.
    by destruct (pspEmuTraceEvtTypeConfigure p0 tys true).
  - unfold PSPEmuTraceEvtDisable.
    destruct (trace_instance w hTrace) as [[h0 p0]|] eqn:Hi; [|done].
    pose proof (configure_keeps_wf w hTrace tys false h0 p0 Hw Hi) as Hk.
    by destruct (pspEmuTraceEvtTypeConfigure p0 tys false).
  - unfold PSPEmuTraceEvtAddString, PSPEmuTraceEvtAddStringV.
    destruct (pspEmuTraceGetInstanceForEvtType w hTrace ty io) as [[h0 p0]|] eqn:Hi; [|done].
    apply instance_for_type_live in Hi.
    destruct (_ >? 0); [|done]. by apply add_keeps_wf.
  - unfold PSPEmuTraceEvtAddXfer.
    destruct (pspEmuTraceGetInstanceForEvtType w hTrace ty io) as [[h0 p0]|] eqn:Hi; [|done].
    apply instance_for_type_live in Hi. by apply add_keeps_wf.
  - unfold PSPEmuTraceEvtAddDevRead, pspEmuTraceEvtAddDevReadWriteWorker.
    destruct (pspEmuTraceGetInstanceForEvtType w hTrace ty io) as [[h0 p0]|] eqn:Hi; [|done].
    apply instance_for_type_live in Hi. by apply add_keeps_wf.
  - unfold PSPEmuTraceEvtAddDevWrite, pspEmuTraceEvtAddDevReadWriteWorker.
    destruct (pspEmuTraceGetInstanceForEvtType w hTrace ty io) as [[h0 p0]|] eqn:Hi; [|done].
    apply instance_for_type_live in Hi. by apply add_keeps_wf.
Qed.

(** X24.  The outcomes of PSPEmuTraceEvtAddString for an event type of the
    enumeration, below PSPTRACEEVTTYPE_LAST, on a tracer whose array of
    flags has that many entries.  For an event type that is not enabled
    nothing is recorded and the status is 0.  For an enabled type an empty
    text is an error, status -1, with nothing recorded.  A text of 1 to
    4095 bytes that is recorded takes the next slot, with the next
    identifier, and is stored with its terminator; a call that fails
    leaves every tracer as it was. *)
Theorem trace_add_string_outcome w hTrace (ty : nat) (sz : list byte) io (h : nat) pThis :
  trace_instance w hTrace = Some (h, pThis) ->
  (ty < PSPTRACEEVTTYPE_LAST)%nat ->
  length (afEvtTypesEnabled pThis) = PSPTRACEEVTTYPE_LAST ->
  trace_wf pThis ->
  cTraceEvtsMax pThis + 4096 < 2 ^ 64 ->
  (length sz < 4096)%nat ->
  let r := PSPEmuTraceEvtAddString w hTrace ty sz io in
  if negb (default false (afEvtTypesEnabled pThis !! ty)) then r = (0, w)
  else if bool_decide (sz = []) then r = (-1, w)
  else
    g_pTraceDef r.2 = g_pTraceDef w /\
    (r.1 <> 0 -> instances r.2 = instances w) /\
    (r.1 = 0 ->
     exists pThis' pc,
       instances r.2 = <[h := pThis']> (instances w) /\
       cTraceEvts pThis' = cTraceEvts pThis + 1 /\
       uTraceEvtIdNext pThis' = uTraceEvtIdNext pThis + 1 /\
       papTraceEvts pThis'
       = <[cTraceEvts pThis :=
             mkPSPTRACEEVT (uTraceEvtIdNext pThis) ty PSPTRACEEVTCONTENTTYPE_STRING pc
               (Z.of_nat (length sz) + 1) (ContentString (sz ++ [Byte.x00]))]>
           (papTraceEvts pThis)).
Proof.
  intros Hi Hty Hflags Hwf Hroom Hsz.
  unfold PSPEmuTraceEvtAddString, PSPEmuTraceEvtAddStringV, pspEmuTraceGetInstanceForEvtType,
    afEvtTypesEnabled_at.
  rewrite Hi. apply trace_instance_live in Hi.
  destruct (lookup_lt_is_Some_2 (afEvtTypesEnabled pThis) ty) as [f Hf]; [lia|].
  rewrite Hf. simpl default.
  destruct f; simpl negb; cbv iota; [|done].
  cbv zeta.
  case_bool_decide as Hnil.
  { subst sz. done. }
  destruct (Z.gtb_spec (Z.of_nat (length sz)) 0) as [Hpos|Hz].
  2: { destruct sz; [done|simpl in Hz; lia]. }
  destruct (pspEmuTraceEvtCreateAndLink _ _ _ _ _) as [[rc p1] slot] eqn:Hcl.
  apply create_and_link_keeps_wf in Hcl as (Hwf1 & _ & Hslot); [|done..].
  assert (Htxt : take (Z.to_nat (Z.of_nat (length sz) + 1)) (take 4095 sz ++ [Byte.x00])
                 = sz ++ [Byte.x00]).
  { rewrite (take_ge sz) by lia. apply take_ge. rewrite length_app. simpl. lia. }
  rewrite Htxt.
  destruct slot as [i|]; simpl.
  - destruct Hslot as (-> & -> & Hc & pc & Hp & _).
    split; [done|]. split; [done|]. intros _.
    exists (set_abContent (cTraceEvts pThis)
              (ContentString (sz ++ [Byte.x00])) p1), pc.
    split; [done|]. split; [done|].
    destruct Hwf as (Hid & _). destruct Hwf1 as (Hid1 & _).
    split; [simpl; lia|].
    simpl. rewrite Hp. rewrite alter_insert_eq. simpl. by rewrite Hid.
  - destruct Hslot as (Hrc & ->).
    split; [done|]. split; [|done]. intros _. by apply insert_id.
Qed.

End TracerProperties.

(** * The properties on the reference device

    The properties above, and the places where the device departs from
    what one might expect of it, evaluated. *)

Section ReferenceChecks.
#[local] Existing Instance ccp_v5_hdr.
#[local] Existing Instance ccp_ref_env.

(** The guest brings about the failing ring with three register writes. *)
Lemma des3_dev_reachable :
  mmio_w32 4096 1 (mmio_w32 4100 4128 (mmio_w32 4104 4096
    (Some (dev0 (ram 4096 (req_bytes des3_req))))))
  = Some des3_dev.
Proof. vm_compute. reflexivity. Qed.

(** C1, as the code has it, on the failing ring: the head register stays
    at 0x1000. *)
Lemma queue_run_failure_witness :
  exists pThis' q',
    pspDevCcpQueueRunMaybe 1 des3_dev 0 = Some pThis' /\
    aQueues pThis' !! 0%nat = Some q' /\
    u32RegSts q' = CCP_V5_Q_REG_STATUS_ERROR /\
    Z.land (u32RegIsts q') CCP_V5_Q_REG_ISTS_ERROR = CCP_V5_Q_REG_ISTS_ERROR /\
    Core pThis' = Core des3_dev /\
    u32RegReqHead q' = 4096.
Proof.
  apply (queue_run_failure 1 des3_dev 0 (mkCCPQUEUE 0 4128 4096 0 0 0 true) 0
           (queue_run_enter des3_dev 0) 4096 (req_bytes des3_req) (-1) (Core des3_dev)).
  - reflexivity.
  - reflexivity.
  - apply drain_reaches_here.
  - simpl. lia.
  - vm_compute. reflexivity.
  - vm_compute. reflexivity.
  - lia.
  - lia.
Defined.

(** C1, refuted as stated: after the failing DES3 request at 0x1000 the
    head register holds 0x1000, not 0x1020. *)
Lemma queue_failure_head_stays :
  exists pThis' q',
    pspDevCcpQueueRunMaybe 1 des3_dev 0 = Some pThis' /\
    aQueues pThis' !! 0%nat = Some q' /\
    u32RegSts q' = CCP_V5_Q_REG_STATUS_ERROR /\
    u32RegReqHead q' = 4096 /\
    u32RegReqHead q' <> 4096 + 32.
Proof.
  eexists _, _. split; [vm_compute; reflexivity|].
  split; [reflexivity|]. repeat split. simpl. lia.
Qed.

(** C3 on the failing ring: HALT, Q_STOP and ERROR, no Q_EMPTY, no
    interrupt. *)
Lemma queue_run_halts_witness :
  exists q' t,
    aQueues des3_halted !! 0%nat = Some q' /\ Trace des3_halted = Trace des3_dev ++ t /\
    (u32RegReqHead q' = u32RegReqTail q' \/ u32RegSts q' = CCP_V5_Q_REG_STATUS_ERROR) /\
    Z.land (u32RegCtrl q') CCP_V5_Q_REG_CTRL_HALT = CCP_V5_Q_REG_CTRL_HALT /\
    Z.land (u32RegIsts q') CCP_V5_Q_REG_ISTS_Q_STOP = CCP_V5_Q_REG_ISTS_Q_STOP /\
    (u32RegReqHead q' = u32RegReqTail q' ->
     Z.land (u32RegIsts q') CCP_V5_Q_REG_ISTS_Q_EMPTY = CCP_V5_Q_REG_ISTS_Q_EMPTY) /\
    (u32RegReqHead q' <> u32RegReqTail q' ->
     Z.land (u32RegIsts q') CCP_V5_Q_REG_ISTS_Q_EMPTY = Z.land 0 CCP_V5_Q_REG_ISTS_Q_EMPTY) /\
    irq_calls t
    = if nonzero (Z.land (u32RegIen q') (u32RegIsts q')) then [(0, 21, true)] else [].
Proof.
  apply (queue_run_halts 1 des3_dev 0 (mkCCPQUEUE 0 4128 4096 0 0 0 true)).
  - reflexivity.
  - reflexivity.
  - reflexivity.
  - vm_compute. reflexivity.
Defined.


(** C4 on the last four bytes of the buffer. *)
Lemma lsb_access_bounds_witness :
  (exists pvDst,
     pspDevCcpXferMemLsbRead (core0 ∅) 4092 4 = Some pvDst
     /\ lsb_memcpy_out (core0 ∅) 4092 4 pvDst)
  /\ (exists pThis',
        pspDevCcpXferMemLsbWrite (core0 ∅) 4092 (replicate 4 Byte.xff) 4 = (0, pThis')
        /\ lsb_memcpy_in (core0 ∅) 4092 4 (replicate 4 Byte.xff) pThis').
Proof.
  apply (lsb_access_bounds (core0 ∅) 4092 4 (replicate 4 Byte.xff)).
  - reflexivity.
  - lia.
  - unfold PTRDIFF_MAX. lia.
  - simpl. lia.
Defined.

(** C9, as the code has it, on a one-byte access to the control register
    of queue 0. *)
Lemma mmio_unsupported_width_witness :
  (exists pThis',
     pspDevCcpMmioRead 1 (dev0 ∅) 4096 1 [Byte.xff] = Some ([Byte.xff], pThis') /\
     aQueues pThis' = aQueues (dev0 ∅) /\ Core pThis' = Core (dev0 ∅) /\
     Trace pThis' = Trace (dev0 ∅) ++ [EvPrintf (MsgUnsupportedAccessWidth 4096 1)])
  /\ (exists pThis',
        pspDevCcpMmioWrite 1 (dev0 ∅) 4096 1 [Byte.xff] = Some pThis' /\
        aQueues pThis' = aQueues (dev0 ∅) /\ Core pThis' = Core (dev0 ∅) /\
        Trace pThis' = Trace (dev0 ∅) ++ [EvPrintf (MsgUnsupportedAccessWidth 4096 1)]).
Proof.
  apply (mmio_unsupported_width 1 (dev0 ∅) 4096 1 [Byte.xff]). lia.
Defined.

(** C9, refuted as stated: a one-byte read of the control register hands
    the caller the byte its buffer held, 0xff, and not zero. *)
Lemma mmio_narrow_read_keeps_buffer :
  fst <$> pspDevCcpMmioRead 1 (dev0 ∅) 4096 1 [Byte.xff] = Some [Byte.xff]
  /\ fst <$> pspDevCcpMmioRead 1 (dev0 ∅) 4096 1 [Byte.xff] <> Some [Byte.x00].
Proof. split; [reflexivity | discriminate]. Qed.

(** The guest brings about the idle queue with two register writes. *)
Lemma idle_dev_reachable :
  mmio_w32 4096 1 (mmio_w32 4108 1 (Some (dev0 ∅))) = Some idle_dev.
Proof. vm_compute. reflexivity. Qed.

(** C10, refuted as stated: a write of Q_STOP | Q_EMPTY to the interrupt
    status of the idle queue leaves both bits set, because the executor runs
    after the write and sets them again. *)
Lemma ists_write_bits_set_again :
  exists pThis' q',
    pspDevCcpMmioWrite 1 idle_dev 4112 4 (Z_to_le 4 12) = Some pThis' /\
    aQueues pThis' !! 0%nat = Some q' /\
    u32RegIsts q' = 12 /\
    u32RegIsts q' <> and_not 12 12.
Proof.
  eexists _, _. split; [vm_compute; reflexivity|].
  split; [reflexivity|]. split; [reflexivity|]. vm_compute. discriminate.
Qed.

(** The guest brings about the masked queue with three register writes. *)
Lemma masked_dev_reachable : reachable masked_dev.
Proof.
  eapply (reachable_write 8 _ 4108 4 (Z_to_le 4 0)).
  - eapply (reachable_write 8 _ 4096 4 (Z_to_le 4 1)).
    + eapply (reachable_write 8 _ 4108 4 (Z_to_le 4 12)).
      * apply (reachable_init
                 (mkPSPDEVCCP (replicate 2 (mkCCPQUEUE 0 0 0 0 0 0 false)) (core0 ∅) []));
          reflexivity.
      * reflexivity.
    + reflexivity.
  - vm_compute. reflexivity.
Qed.

(** C8, as the code has it, on a run of queue 0 of the masked device,
    which leaves the line as it is. *)
Lemma irq_line_updates_witness :
  exists q',
    aQueues masked_run !! 0%nat = Some q' /\
    irq_line (Trace masked_run)
    = if true && nonzero (Z.land (u32RegIen q') (u32RegIsts q'))
      then true else irq_line (Trace masked_dev).
Proof.
  apply (irq_line_updates 1 masked_dev 0 (mkCCPQUEUE 2 0 0 0 0 12 true)).
  - reflexivity.
  - vm_compute. reflexivity.
Defined.

(** C10, as the code has it, on the masked device, whose interrupt-enable
    is 0: a write of Q_STOP clears it, keeps Q_EMPTY and deasserts the
    line. *)
Lemma ists_write_clears_witness :
  exists pThis' t,
    pspDevCcpMmioQueueRegWrite 1 masked_dev 0 CCP_V5_Q_REG_ISTS 4 = Some pThis' /\
    aQueues pThis' = <[0%nat := mkCCPQUEUE 2 0 0 0 0 8 true]> (aQueues masked_dev) /\
    Core pThis' = Core masked_dev /\
    Trace pThis' = Trace masked_dev ++ t /\
    (forall n, 0 <= n -> Z.testbit 8 n = Z.testbit 12 n && negb (Z.testbit 4 n)) /\
    irq_calls t = [(0, 21, false)] /\
    (Z.land 0 8 = 0 -> irq_line (Trace pThis') = false).
Proof.
  apply (ists_write_clears 1 masked_dev 0 (mkCCPQUEUE 2 0 0 0 0 12 true) 4).
  - reflexivity.
  - left. reflexivity.
Defined.

(** C8, refuted as stated: the line is asserted in a reachable state in
    which interrupt-enable AND interrupt-status is zero for both queues. *)
Lemma irq_line_stays_asserted :
  reachable masked_dev /\ irq_line (Trace masked_dev) = true /\ ~ irq_pending masked_dev.
Proof.
  split; [apply masked_dev_reachable|]. split; [reflexivity|].
  intros (q & Hq & Hne). apply Hne. simpl in Hq.
  apply elem_of_cons in Hq as [->|Hq]; [reflexivity|].
  apply elem_of_cons in Hq as [->|Hq]; [reflexivity|].
  by apply elem_of_nil in Hq.
Qed.

(** C6, as the code has it, on the copy with the 256-bit byte swap and on
    the copy of 4098 bytes onto themselves one byte further down, whose
    source and destination overlap and which is exact. *)
Lemma passthru_process_witness :
  req_dst_window (pspDevCcpReqPassthruProcess swap_core swap_req 2).2 swap_req 32
  = reverse (req_src_window swap_core swap_req)
  /\ req_dst_window (pspDevCcpReqPassthruProcess down_core down_req 0).2 down_req
       (cbSrc down_req)
     = req_src_window down_core down_req.
Proof.
  split.
  - destruct (passthru_process swap_core swap_req 2 0
                (pspDevCcpReqPassthruProcess swap_core swap_req 2).2)
      as (_ & _ & Hswap & _).
    + unfold req_wf. simpl. lia.
    + reflexivity.
    + vm_compute. reflexivity.
    + apply Hswap; reflexivity.
  - destruct (passthru_process down_core down_req 0
                (pspDevCcpReqPassthruProcess down_core down_req 0).1
                (pspDevCcpReqPassthruProcess down_core down_req 0).2)
      as (_ & _ & _ & Hcopy).
    + unfold req_wf. simpl. lia.
    + reflexivity.
    + apply surjective_pairing.
    + apply Hcopy; [vm_compute; reflexivity|reflexivity|].
      intros fn i j Hs _ Hi Hj. injection Hs as <-. simpl in Hi |- *.
      pose proof (Z.div_mod i 4096). pose proof (Z.mod_pos_bound i 4096).
      change (req_src_addr down_req) with 65537.
      change (req_dst_addr down_req) with 65536.
      unfold u32. rewrite !Z.mod_small by lia. lia.
Defined.

(** C6, refuted as stated: the request succeeds with byteswap NOOP and the
    last destination byte is 0xff, the source byte before the last, where
    the source has 0x00. *)
Lemma passthru_overlap_copy :
  (pspDevCcpReqPassthruProcess overlap_core overlap_req 0).1 = 0 /\
  req_src_window overlap_core overlap_req !! 4096%nat = Some Byte.x00 /\
  req_dst_window (pspDevCcpReqPassthruProcess overlap_core overlap_req 0).2
    overlap_req 4097 !! 4096%nat = Some Byte.xff /\
  req_dst_window (pspDevCcpReqPassthruProcess overlap_core overlap_req 0).2
    overlap_req 4097 <> req_src_window overlap_core overlap_req.
Proof.
  assert (Hsrc : req_src_window overlap_core overlap_req !! 4096%nat = Some Byte.x00)
    by (vm_compute; reflexivity).
  assert (Hdst : req_dst_window (pspDevCcpReqPassthruProcess overlap_core overlap_req 0).2
                   overlap_req 4097 !! 4096%nat = Some Byte.xff)
    by (vm_compute; reflexivity).
  split; [vm_compute; reflexivity|]. split; [done|]. split; [done|].
  intros Heq. rewrite Heq, Hsrc in Hdst. discriminate Hdst.
Qed.

(** The digests of abc of FIPS 180-4. *)
Lemma sha256_abc :
  be_to_Z (EVP_Digest EVP_sha256 [Byte.x61; Byte.x62; Byte.x63])
  = 0xba7816bf8f01cfea414140de5dae2223b00361a396177a9cb410ff61f20015ad.
Proof. vm_compute. reflexivity. Qed.

Lemma sha384_abc :
  be_to_Z (EVP_Digest EVP_sha384 [Byte.x61; Byte.x62; Byte.x63])
  = 0xcb00753f45a35e8bb5a03d699ac65007272c32ab0eded1631a8b605a43ff5bed8086072ba1e7cc2358baeca134c825a7.
Proof. vm_compute. reflexivity. Qed.

(** C5, as the code has it, on abc submitted as ab and c to a device
    without a pending context. *)
Lemma sha_multipart_witness :
  sha_message abc_core abc_descs = [Byte.x61; Byte.x62; Byte.x63] /\
  xfer_peek XferMemLsb (sha_submit abc_core abc_descs).2
    (req_lsb_ctx_id (sd_req (sha256_req 259 1 false true)) * 32) (EVP_MD_size EVP_sha256)
  = reverse (EVP_Digest EVP_sha256 (sha_message abc_core abc_descs)) /\
  pOsslShaCtx (sha_submit abc_core abc_descs).2 = None.
Proof.
  split; [reflexivity|].
  apply (sha_multipart EVP_sha256 abc_core [sha256_req 257 2 true false]
           (sha256_req 259 1 false true) [0; 0] (sha_submit abc_core abc_descs).2).
  - reflexivity.
  - reflexivity.
  - constructor; [|constructor]. split; [left; split; reflexivity|].
    split; [unfold req_wf; simpl; lia | reflexivity].
  - left; split; reflexivity.
  - unfold req_wf. simpl. lia.
  - reflexivity.
  - vm_compute. reflexivity.
  - repeat constructor.
Defined.

(** C5, refuted as stated: the message abc, submitted whole with init and
    eom, leaves the reversed digest of xabc in slot 7, not that of abc. *)
Lemma sha_init_keeps_context :
  (sha_submit stale_core [sha256_req 257 3 true true]).1 = [0] /\
  xfer_peek XferMemLsb (sha_submit stale_core [sha256_req 257 3 true true]).2 (7 * 32) 32
  = reverse (EVP_Digest EVP_sha256 [Byte.x78; Byte.x61; Byte.x62; Byte.x63]) /\
  xfer_peek XferMemLsb (sha_submit stale_core [sha256_req 257 3 true true]).2 (7 * 32) 32
  <> reverse (EVP_Digest EVP_sha256 [Byte.x61; Byte.x62; Byte.x63]).
Proof.
  split; [vm_compute; reflexivity|]. split; [vm_compute; reflexivity|].
  vm_compute. discriminate.
Qed.

(** C7: an accepted RSA request is to take its exponent from the key area.
    The RSA-2048 request [rsa_req], whose key memory type is SYSTEM, is
    accepted, and the power written to the destination has the exponent
    that the array [abExp] held on entry, 5 or 7 here, and not the exponent
    3 that the key area holds: [pspDevCcpKeyCopyFromReq] read nothing and
    returned 0. *)
Theorem rsa_exponent_from_abExp :
  req_key_fn rsa_req = None /\
  iom_peek (hIoMgr rsa_core) 12288 128 = Z_to_le 128 3 /\
  ((rsa_run 5).1 = 0 /\
   req_dst_window (rsa_run 5).2 rsa_req 256 = Z_to_le 256 (2 ^ 5 mod rsa_modulus)) /\
  ((rsa_run 7).1 = 0 /\
   req_dst_window (rsa_run 7).2 rsa_req 256 = Z_to_le 256 (2 ^ 7 mod rsa_modulus)) /\
  req_dst_window (rsa_run 5).2 rsa_req 256 <> Z_to_le 256 (2 ^ 3 mod rsa_modulus) /\
  req_dst_window (rsa_run 7).2 rsa_req 256 <> Z_to_le 256 (2 ^ 3 mod rsa_modulus).
Proof.
  split; [reflexivity|]. split; [vm_compute; reflexivity|].
  split; [split; vm_compute; reflexivity|].
  split; [split; vm_compute; reflexivity|].
  split; vm_compute; discriminate.
Qed.

(** With the key memory type LOCAL the exponent 3 of the key area is
    used, whatever [abExp] held. *)
Lemma rsa_exponent_from_key_area :
  (pspDevCcpReqRsaProcess rsa_core rsa_req_local 256 false false (Z_to_le 512 5)).1 = 0 /\
  req_dst_window
    (pspDevCcpReqRsaProcess rsa_core rsa_req_local 256 false false (Z_to_le 512 5)).2
    rsa_req_local 256
  = Z_to_le 256 (2 ^ 3 mod rsa_modulus).
Proof. split; vm_compute; reflexivity. Qed.


#[local] Existing Instance trace_ref_hdr.

(** X1.  The ring with the two copies is drained: the second copy found what
    the first one wrote, the head register ends at the tail, with SUCCESS
    and COMPLETION. *)
Lemma queue_run_drains_witness :
  exists pThis' q',
    pspDevCcpQueueRunMaybe 2 ring_dev 0 = Some pThis' /\
    aQueues pThis' !! 0%nat = Some q' /\
    Core pThis' = ring_end /\
    u32RegReqHead q' = 4160 /\ u32RegReqTail q' = 4160 /\
    Z.land (u32RegCtrl q') CCP_V5_Q_REG_CTRL_HALT = CCP_V5_Q_REG_CTRL_HALT /\
    Z.land (u32RegIsts q') CCP_V5_Q_REG_ISTS_Q_STOP = CCP_V5_Q_REG_ISTS_Q_STOP /\
    Z.land (u32RegIsts q') CCP_V5_Q_REG_ISTS_Q_EMPTY = CCP_V5_Q_REG_ISTS_Q_EMPTY /\
    ((0 < 2)%nat ->
     u32RegSts q' = CCP_V5_Q_REG_STATUS_SUCCESS /\
     Z.land (u32RegIsts q') CCP_V5_Q_REG_ISTS_COMPLETION = CCP_V5_Q_REG_ISTS_COMPLETION).
Proof.
  apply (queue_run_drains 2 ring_dev 0 (mkCCPQUEUE 0 4160 4096 0 0 0 true) 2 ring_end).
  - reflexivity.
  - reflexivity.
  - vm_compute. reflexivity.
  - lia.
Defined.

(** X2.  The ring in memory that is not there: ERROR, the head stays at
    0x1000, and the failed read is logged. *)
Lemma queue_run_unreadable_witness :
  exists pThis' q',
    pspDevCcpQueueRunMaybe 1 void_dev 0 = Some pThis' /\
    aQueues pThis' !! 0%nat = Some q' /\
    u32RegSts q' = CCP_V5_Q_REG_STATUS_ERROR /\
    Z.land (u32RegIsts q') CCP_V5_Q_REG_ISTS_ERROR = CCP_V5_Q_REG_ISTS_ERROR /\
    u32RegReqHead q' = 4096 /\
    Core pThis' = Core (queue_run_enter void_dev 0) /\
    EvPrintf (MsgReqReadFailed 4096) ∈ Trace pThis'.
Proof.
  apply (queue_run_unreadable 1 void_dev 0 (mkCCPQUEUE 0 4128 4096 0 0 0 true) 0
           (queue_run_enter void_dev 0) 4096).
  - reflexivity.
  - reflexivity.
  - apply drain_reaches_here.
  - simpl. lia.
  - vm_compute. reflexivity.
  - lia.
Defined.

(** X3.  The RUN bit on the masked device, which the guest brought about with a
    write of RUN. *)
Lemma reachable_run_bit_clear_witness :
  length (aQueues masked_dev) = 2%nat /\
  Forall (fun q => Z.land (u32RegCtrl q) CCP_V5_Q_REG_CTRL_RUN = 0) (aQueues masked_dev).
Proof.
  apply (reachable_run_bit_clear masked_dev).
  - reflexivity.
  - apply masked_dev_reachable.
Defined.

(** X4.  0x1020 written to the tail register of queue 0 is read back. *)
Lemma mmio_register_round_trip_witness :
  fst <$> pspDevCcpMmioRead 1 tail_dev 4100 4 (replicate 4 Byte.x00)
  = Some (Z_to_le 4 4128).
Proof.
  apply (mmio_register_round_trip 1 (dev0 ∅) 4100 0 4 (mkCCPQUEUE 2 0 0 0 0 0 false)
           (Z_to_le 4 4128) (replicate 4 Byte.x00) tail_dev).
  - simpl. lia.
  - vm_compute. reflexivity.
  - reflexivity.
  - reflexivity.
  - reflexivity.
  - left. reflexivity.
  - reflexivity.
  - reflexivity.
  - vm_compute. reflexivity.
  - vm_compute. eexists. reflexivity.
Defined.

(** X5.  RUN written to the control register of queue 0 of the fresh device
    enables the queue and is not stored. *)
Lemma ctrl_write_enable_witness :
  exists q',
    aQueues run_dev !! 0%nat = Some q' /\
    fEnabled q' = nonzero (Z.land 1 CCP_V5_Q_REG_CTRL_RUN) /\
    u32RegReqTail q' = 0 /\ u32RegIen q' = 0 /\
    (0 = 0 \/ Z.land 1 CCP_V5_Q_REG_CTRL_RUN = 0 ->
     q' = set_u32RegCtrl (and_not 1 CCP_V5_Q_REG_CTRL_RUN)
            (set_fEnabled (nonzero (Z.land 1 CCP_V5_Q_REG_CTRL_RUN))
               (mkCCPQUEUE 2 0 0 0 0 0 false))
     /\ Core run_dev = Core (dev0 ∅)).
Proof.
  apply (ctrl_write_enable 1 (dev0 ∅) 0 (mkCCPQUEUE 2 0 0 0 0 0 false) 1 run_dev).
  - reflexivity.
  - vm_compute. reflexivity.
Defined.

(** X6.  A read of the control register of queue 0 of the fresh device hands
    back HALT and changes nothing. *)
Lemma mmio_read_not_enabled_witness :
  exists pThis',
    pspDevCcpMmioRead 1 (dev0 ∅) 4096 4 (replicate 4 Byte.xff)
    = Some (Z_to_le 4 (queue_reg_read 0 (mkCCPQUEUE 2 0 0 0 0 0 false)), pThis') /\
    aQueues pThis' = aQueues (dev0 ∅) /\ Core pThis' = Core (dev0 ∅) /\
    irq_line (Trace pThis') = irq_line (Trace (dev0 ∅)) /\
    (0 ∉ [CCP_V5_Q_REG_CTRL; CCP_V5_Q_REG_HEAD; CCP_V5_Q_REG_TAIL;
          CCP_V5_Q_REG_STATUS; CCP_V5_Q_REG_IEN; CCP_V5_Q_REG_ISTS] ->
     queue_reg_read 0 (mkCCPQUEUE 2 0 0 0 0 0 false) = 0).
Proof.
  apply (mmio_read_not_enabled 1 (dev0 ∅) 4096 0 0 (mkCCPQUEUE 2 0 0 0 0 0 false)
           (replicate 4 Byte.xff)).
  - simpl. lia.
  - vm_compute. reflexivity.
  - reflexivity.
  - reflexivity.
  - reflexivity.
  - reflexivity.
  - reflexivity.
Defined.

(** X7.  An access at offset 0, below the queue window, and an access at
    the first offset beyond the second queue, which is logged. *)
Lemma mmio_outside_queues_witness :
  (exists pv' pThisR pThisW,
     pspDevCcpMmioRead 1 (dev0 ∅) 0 4 (replicate 4 Byte.xff) = Some (pv', pThisR) /\
     pspDevCcpMmioWrite 1 (dev0 ∅) 0 4 (replicate 4 Byte.xff) = Some pThisW /\
     aQueues pThisR = aQueues (dev0 ∅) /\ Core pThisR = Core (dev0 ∅) /\
     aQueues pThisW = aQueues (dev0 ∅) /\ Core pThisW = Core (dev0 ∅) /\
     Trace pThisR = Trace (dev0 ∅) ++ [] /\ Trace pThisW = Trace (dev0 ∅) ++ [] /\
     run_calls [] = [] /\ irq_calls [] = [] /\
     pv' = list_inserts 0 (replicate 4 Byte.x00) (replicate 4 Byte.xff))
  /\ (exists pv' pThisR pThisW,
        pspDevCcpMmioRead 1 (dev0 ∅) 12288 4 (replicate 4 Byte.xff) = Some (pv', pThisR) /\
        pspDevCcpMmioWrite 1 (dev0 ∅) 12288 4 (replicate 4 Byte.xff) = Some pThisW /\
        aQueues pThisR = aQueues (dev0 ∅) /\ Core pThisR = Core (dev0 ∅) /\
        aQueues pThisW = aQueues (dev0 ∅) /\ Core pThisW = Core (dev0 ∅) /\
        Trace pThisR = Trace (dev0 ∅) ++ [EvPrintf (MsgInvalidQueue 8192 4 2)] /\
        Trace pThisW = Trace (dev0 ∅) ++ [EvPrintf (MsgInvalidQueue 8192 4 2)] /\
        run_calls [EvPrintf (MsgInvalidQueue 8192 4 2)] = [] /\
        irq_calls [EvPrintf (MsgInvalidQueue 8192 4 2)] = [] /\
        pv' = replicate 4 Byte.xff).
Proof.
  split.
  - refine (mmio_outside_queues 1 (dev0 ∅) 0 (replicate 4 Byte.xff) _).
    left. simpl. lia.
  - refine (mmio_outside_queues 1 (dev0 ∅) 12288 (replicate 4 Byte.xff) _).
    right. split; [simpl; lia|vm_compute; discriminate].
Defined.

(** X8.  Four bytes written to the end of the storage buffer are read back. *)
Lemma lsb_write_read_round_trip_witness :
  pspDevCcpXferMemLsbRead
    (set_Lsb (list_inserts 4092 (replicate 4 Byte.xff) (Lsb (core0 ∅))) (core0 ∅)) 4092 4
  = Some (take (Z.to_nat 4) (replicate 4 Byte.xff)).
Proof.
  apply (lsb_write_read_round_trip (core0 ∅) 4092 4 (replicate 4 Byte.xff)).
  - reflexivity.
  - lia.
  - unfold PTRDIFF_MAX. lia.
  - simpl. lia.
  - reflexivity.
Defined.

(** X11.  The copy to SYSTEM memory fails and changes nothing. *)
Lemma passthru_system_memory_fails_witness :
  (pspDevCcpReqPassthruProcess swap_core sys_req 2).1 <> 0 /\
  Lsb (pspDevCcpReqPassthruProcess swap_core sys_req 2).2 = Lsb swap_core /\
  hIoMgr (pspDevCcpReqPassthruProcess swap_core sys_req 2).2 = hIoMgr swap_core.
Proof.
  apply (passthru_system_memory_fails swap_core sys_req 2).
  - unfold req_wf. simpl. lia.
  - reflexivity.
  - simpl. lia.
  - right. reflexivity.
Defined.

(** X12.  After the copy of 32 bytes within PSP memory the register reads 32. *)
Lemma passthru_written_count_witness :
  (pspDevCcpMmioRead2
     (set_Core (pspDevCcpReqPassthruProcess copy_core copy_req 0).2 copy_dev)
     40 4 (replicate 4 Byte.xff)).1
  = list_inserts 0
      (Z_to_le 4 (if bool_decide (req_dst_fn copy_req = Some XferMemLocal) then 32 else 0))
      (replicate 4 Byte.xff).
Proof.
  apply (passthru_written_count copy_dev copy_req 0
           (pspDevCcpReqPassthruProcess copy_core copy_req 0).2 (replicate 4 Byte.xff)).
  - unfold req_wf. simpl. lia.
  - reflexivity.
  - vm_compute. reflexivity.
Defined.

(** X13.  The SHA-256 request on abc that ends the message begun with the
    x, on the device that holds the SHA-256 context of that message. *)
Lemma sha_frame_witness :
  let r := pspDevCcpReqShaProcess stale_core abc_req (Z.shiftl 3 10) false true in
  hIoMgr r.2 = hIoMgr stale_core /\ ExtCtx r.2 = ExtCtx stale_core /\
  length (Lsb r.2) = length (Lsb stale_core) /\
  (true = false -> Lsb r.2 = Lsb stale_core) /\
  (forall i : nat,
     ~ (req_lsb_ctx_id abc_req * 32 <= Z.of_nat i < req_lsb_ctx_id abc_req * 32 + 32) ->
     Lsb r.2 !! i = Lsb stale_core !! i).
Proof.
  refine (sha_frame stale_core abc_req (Z.shiftl 3 10) false true _).
  intros _ ctx Hctx. vm_compute in Hctx. injection Hctx as <-. simpl. lia.
Defined.

(** X14.  SHA-384 of abc into slot 127 fails. *)
Lemma sha_digest_past_lsb_end_witness :
  (pspDevCcpReqShaProcess abc_core sha384_last_slot (Z.shiftl 4 10) true true).1 <> 0 /\
  Lsb (pspDevCcpReqShaProcess abc_core sha384_last_slot (Z.shiftl 4 10) true true).2
  = Lsb abc_core.
Proof.
  apply (sha_digest_past_lsb_end abc_core sha384_last_slot (Z.shiftl 4 10) true).
  vm_compute. reflexivity.
Defined.

(** X15.  SHA-256 of abc into slot 7, copied to slot 8 with the byte swap: slot
    8 holds the digest as FIPS 180-4 prints it. *)
Lemma sha256_digest_through_swap_witness :
  req_dst_window abc_delivered slot_copy_req 32
  = EVP_Digest EVP_sha256 ([] ++ req_src_window abc_core abc_req).
Proof.
  apply (sha256_digest_through_swap abc_core abc_req (Z.shiftl 3 10) true [] abc_hashed
           slot_copy_req 2 abc_delivered).
  - left. split; reflexivity.
  - unfold req_wf. simpl. lia.
  - unfold req_wf. simpl. lia.
  - reflexivity.
  - reflexivity.
  - vm_compute. reflexivity.
  - reflexivity.
  - reflexivity.
  - reflexivity.
  - vm_compute. reflexivity.
Defined.

(** X16.  The first five of the bytes 0 to 7, reversed. *)
Lemma reverse_buf_loop_reverses_witness :
  pspDevCcpReverseBuf_loop (ramp 8) 5
  = reverse (take (Z.to_nat 5) (ramp 8)) ++ drop (Z.to_nat 5) (ramp 8)
  /\ pspDevCcpReverseBuf_loop (pspDevCcpReverseBuf_loop (ramp 8) 5) 5 = ramp 8.
Proof.
  apply (reverse_buf_loop_reverses (ramp 8) 5). simpl. lia.
Defined.

(** X17.  The RSA-2048 request with the key in PSP memory: 2^3 modulo the
    modulus. *)
Lemma rsa_modular_exponentiation_witness :
  u8 (CCP_V5_ENGINE_RSA_MODE_GET 256) = 0 /\
  ((u16 (CCP_V5_ENGINE_RSA_SZ_GET 256) = 256 /\ cbSrc rsa_req_local = 512)
   \/ (u16 (CCP_V5_ENGINE_RSA_SZ_GET 256) = 512 /\ cbSrc rsa_req_local = 1024)) /\
  req_dst_window
    (pspDevCcpReqRsaProcess rsa_core rsa_req_local 256 false false (Z_to_le 512 5)).2
    rsa_req_local (u16 (CCP_V5_ENGINE_RSA_SZ_GET 256))
  = Z_to_le (Z.to_nat (u16 (CCP_V5_ENGINE_RSA_SZ_GET 256)))
      (le_to_Z (drop (Z.to_nat (u16 (CCP_V5_ENGINE_RSA_SZ_GET 256)))
                  (req_src_window rsa_core rsa_req_local))
       ^ le_to_Z (take (Z.to_nat (u16 (CCP_V5_ENGINE_RSA_SZ_GET 256) / 2))
                    (xfer_peek XferMemLocal rsa_core (req_key_addr rsa_req_local)
                       (u16 (CCP_V5_ENGINE_RSA_SZ_GET 256))))
       mod le_to_Z (take (Z.to_nat (u16 (CCP_V5_ENGINE_RSA_SZ_GET 256)))
                      (req_src_window rsa_core rsa_req_local))).
Proof.
  apply (rsa_modular_exponentiation rsa_core rsa_req_local 256 false false (Z_to_le 512 5)
           XferMemLocal
           (pspDevCcpReqRsaProcess rsa_core rsa_req_local 256 false false (Z_to_le 512 5)).2).
  - unfold req_wf. simpl. lia.
  - reflexivity.
  - reflexivity.
  - reflexivity.
  - vm_compute. reflexivity.
Defined.

(** X20.  The numbers 5 and 7 through a context on the storage buffer. *)
Lemma ecc_return_round_trip_witness :
  (forall rc pThis' pCtx',
     pspDevCcpReqEccReturnNumber (core0 ∅) lsb_ctx 5 = (rc, pThis', pCtx') ->
     (2 ^ 576 <= 5 \/ cbWriteLeft lsb_ctx < 72 -> rc = -1 /\ pThis' = core0 ∅) /\
     (rc = 0 -> le_to_Z (xfer_peek (pfnWrite lsb_ctx) pThis' (CcpAddrDst lsb_ctx) 72) = 5)) /\
  (forall pThis' pCtx',
     pspDevCcpReqEccReturnPoint (core0 ∅) lsb_ctx (Some (5, 7)) = (0, pThis', pCtx') ->
     le_to_Z (xfer_peek (pfnWrite lsb_ctx) pThis' (CcpAddrDst lsb_ctx) 72) = 5 /\
     le_to_Z (xfer_peek (pfnWrite lsb_ctx) pThis' (CcpAddrDst lsb_ctx + 72) 72) = 7).
Proof.
  apply (ecc_return_round_trip (core0 ∅) lsb_ctx 5 7).
  - lia.
  - lia.
  - reflexivity.
  - simpl. lia.
  - simpl. lia.
  - reflexivity.
Defined.

(** X21.  PSPEmuTraceEvtDisable for the types 3 and 4, which are enabled, on the
    default tracer: both stay enabled. *)
Lemma trace_disable_enables_witness :
  exists pThis',
    PSPEmuTraceEvtDisable tracers0 None [3; 4]%nat = (0, set_instance 0 pThis' tracers0) /\
    (forall t, t ∈ [3; 4]%nat -> afEvtTypesEnabled pThis' !! t = Some true) /\
    (forall t, afEvtTypesEnabled tracer0 !! t = Some true ->
               afEvtTypesEnabled pThis' !! t = Some true) /\
    (forall t, t ∉ [3; 4]%nat ->
               afEvtTypesEnabled pThis' !! t = afEvtTypesEnabled tracer0 !! t).
Proof.
  apply (trace_disable_enables tracers0 None [3; 4]%nat 0%nat tracer0).
  - reflexivity.
  - reflexivity.
  - repeat constructor.
Defined.

(** X22.  PSPEmuTraceEvtEnable for the types 1, 8 and 2, of which 8 does not
    exist: the call fails, 1 is enabled, 2 is not. *)
Lemma trace_enable_stops_at_invalid_witness :
  exists pThis',
    PSPEmuTraceEvtEnable tracers0 None ([1%nat] ++ 8%nat :: [2%nat])
    = (-1, set_instance 0 pThis' tracers0) /\
    (forall t, t ∈ [1%nat] -> afEvtTypesEnabled pThis' !! t = Some true) /\
    (forall t, t ∉ [1%nat] ->
               afEvtTypesEnabled pThis' !! t = afEvtTypesEnabled tracer0 !! t).
Proof.
  apply (trace_enable_stops_at_invalid tracers0 None [1%nat] [2%nat] 8%nat 0%nat tracer0).
  - reflexivity.
  - reflexivity.
  - repeat constructor.
  - simpl. lia.
Defined.

Lemma tracers0_wf : tracers_wf tracers0.
Proof.
  intros h p Hp. cbn [tracers0 instances] in Hp.
  apply lookup_singleton_Some in Hp as [<- <-].
  split; [|simpl; lia].
  unfold trace_wf. simpl. split; [done|]. split; [lia|]. split; [lia|]. split; [done|].
  split.
  - intros i. rewrite lookup_empty. split; [by intros [? ?]|lia].
  - intros i e. by rewrite lookup_empty.
Qed.

Lemma tracers1_instances : instances tracers1 !! 0%nat = Some tracer1.
Proof. vm_compute. reflexivity. Qed.

(** X23.  The tracer after the text x was added is numbered. *)
Lemma trace_calls_keep_numbering_witness : trace_wf tracer1.
Proof.
  apply (trace_calls_keep_numbering tracers0 tracers1 tracers0_wf
           (call_add_string tracers0 None 3%nat [Byte.x78] trace_io_ok) 0%nat tracer1).
  apply tracers1_instances.
Defined.

(** X24.  The text x added with the enabled type 3 to the default tracer. *)
Lemma trace_add_string_outcome_witness :
  g_pTraceDef tracers1 = g_pTraceDef tracers0 /\
  ((PSPEmuTraceEvtAddString tracers0 None 3 [Byte.x78] trace_io_ok).1 <> 0 ->
   instances tracers1 = instances tracers0) /\
  ((PSPEmuTraceEvtAddString tracers0 None 3 [Byte.x78] trace_io_ok).1 = 0 ->
   exists pThis' pc,
     instances tracers1 = <[0%nat := pThis']> (instances tracers0) /\
     cTraceEvts pThis' = cTraceEvts tracer0 + 1 /\
     uTraceEvtIdNext pThis' = uTraceEvtIdNext tracer0 + 1 /\
     papTraceEvts pThis'
     = <[cTraceEvts tracer0 :=
           mkPSPTRACEEVT (uTraceEvtIdNext tracer0) 3 PSPTRACEEVTCONTENTTYPE_STRING pc
             (Z.of_nat (length [Byte.x78]) + 1) (ContentString ([Byte.x78] ++ [Byte.x00]))]>
         (papTraceEvts tracer0)).
Proof.
  apply (trace_add_string_outcome tracers0 None 3%nat [Byte.x78] trace_io_ok 0%nat tracer0);
    [reflexivity|simpl; lia|reflexivity|..].
  - destruct (tracers0_wf 0%nat tracer0) as [Hwf _]; [reflexivity|exact Hwf].
  - simpl. lia.
  - simpl. lia.
Defined.

(** X18.  The DES3 request fails and leaves the device as it is. *)
Lemma unsupported_engines_fail_witness :
  pspDevCcpReqProcess (core0 ∅) des3_req = (-1, core0 ∅).
Proof.
  apply (unsupported_engines_fail (core0 ∅) des3_req).
  left. reflexivity.
Defined.

End ReferenceChecks.
